(** * Packetimpact testbench: layer states and connections

    A shallow embedding of the connection engine of the packetimpact
    testbench (package [testbench], file connections.go): the per-layer
    states ([etherState], [ipv4State], [ipv6State], [tcpState], [udpState]),
    the generic [Connection] built on them and the [TCPIPv4] handshake.

    Go pointers to scalars ([*uint32], [*uint8], ...) are [option]s, [None]
    being the nil pointer.  A dereference of nil, or an index out of range,
    is the outcome [Panic]; [t.Fatalf] is the outcome [Fatal]. *)

From Stdlib Require Import ZArith List Bool Lia Sorted Permutation.
From Stdlib Require String.
Import ListNotations String.StringSyntax.
Delimit Scope string_scope with string.
Local Open Scope Z_scope.

(** ** Outcomes of a call *)

(** What went wrong, one constructor per failure site of connections.go. *)
Inductive failure : Type :=
| CantUpdateState   (* "can't update tcpState with %T Layer" *)
| CantMerge         (* "can't merge %+v into %+v" *)
| CantBuild         (* "can't build outgoing packet" *)
| ShortFrame        (* "the received frame should be at least as long ..." *)
| NoSynAck          (* "didn't get synack during handshake" *)
| NotTCP.           (* "expected %s to be TCP" *)

Inductive Outcome (A : Type) : Type :=
| Ok (a : A)            (* normal return *)
| Err (e : failure)     (* a non-nil [error] is returned *)
| Fatal (e : failure)   (* [t.Fatalf]: the running test is aborted *)
| Panic                 (* nil dereference or index out of range *)
| OutOfFuel.            (* the model, not the program, ran out of steps *)

Arguments Ok {A} a.
Arguments Err {A} e.
Arguments Fatal {A} e.
Arguments Panic {A}.
Arguments OutOfFuel {A}.

Definition bind {A B : Type} (m : Outcome A) (k : A -> Outcome B) : Outcome B :=
  match m with
  | Ok a => k a
  | Err e => Err e
  | Fatal e => Fatal e
  | Panic => Panic
  | OutOfFuel => OutOfFuel
  end.

Notation "x <- m ;; k" := (bind m (fun x => k))
  (at level 61, m at next level, right associativity).

(** [if err := f(); err != nil { t.Fatalf(...) }] *)
Definition fatal_on_error {A : Type} (m : Outcome A) : Outcome A :=
  match m with
  | Err e => Fatal e
  | other => other
  end.

(** ** Sequence numbers and TCP flags *)

Module seqnum.

(** [seqnum.Value] and [seqnum.Size] are [uint32]. *)
Abbreviation Value := Z.
Abbreviation Size := Z.

Definition modulus : Z := 2 ^ 32.

(** The conversion [seqnum.Size(n)] of a Go [int]. *)
Definition Size_of_int (n : Z) : Size := n mod modulus.

(** Modelled from the spec: package seqnum (pkg/tcpip/seqnum) is not among
    the sources at hand; its [UpdateForward] advances a value by a size in
    modular 32-bit arithmetic. *)
Definition UpdateForward (v : Value) (s : Size) : Value := (v + s) mod modulus.

End seqnum.

Module header.

(** Modelled from the spec: the TCP control flags of package header
    (pkg/tcpip/header), with the bit values of RFC 793 that the spec's
    handshake scenario uses (SYN is 0x02). *)
Definition TCPFlagFin : Z := 1.
Definition TCPFlagSyn : Z := 2.
Definition TCPFlagRst : Z := 4.
Definition TCPFlagPsh : Z := 8.
Definition TCPFlagAck : Z := 16.
Definition TCPFlagUrg : Z := 32.

End header.

(** [flags & mask != 0] *)
Definition has_flag (flags mask : Z) : bool := negb (Z.land flags mask =? 0).

(** ** Layers

    The layer structs are declared in layers.go; the fields below are those
    the connection code refers to.  A field is set ([Some]) or unset. *)

Definition bytes := list Z.
Definition Address := list Z.

Module Ether.
Record t : Type := Build { SrcAddr : option Address; DstAddr : option Address }.
Definition empty : t := Build None None.
End Ether.

Module IPv4.
Record t : Type := Build { SrcAddr : option Address; DstAddr : option Address }.
Definition empty : t := Build None None.
End IPv4.

Module IPv6.
Record t : Type := Build { SrcAddr : option Address; DstAddr : option Address }.
Definition empty : t := Build None None.
End IPv6.

Module TCP.
Record t : Type := Build {
  SrcPort : option Z;
  DstPort : option Z;
  SeqNum : option Z;
  AckNum : option Z;
  Flags : option Z
}.
Definition empty : t := Build None None None None None.
(** [TCP{Flags: Uint8(f)}] *)
Definition with_flags (f : Z) : t := Build None None None None (Some f).
End TCP.

Module UDP.
Record t : Type := Build { SrcPort : option Z; DstPort : option Z }.
Definition empty : t := Build None None.
End UDP.

Module Payload.
Record t : Type := Build { Bytes : option bytes }.
End Payload.

Inductive Layer : Type :=
| LEther (l : Ether.t)
| LIPv4 (l : IPv4.t)
| LIPv6 (l : IPv6.t)
| LTCP (l : TCP.t)
| LUDP (l : UDP.t)
| LPayload (l : Payload.t).

(** [Layers] is [[]Layer]; an element may be the nil interface, as in the
    frame that [Connection.Expect] makes. *)
Definition Layers := list (option Layer).

(** The layers reached from a layer through [next()]: those that follow it
    in its frame, up to the first nil. *)
Fixpoint nested (rest : Layers) : list Layer :=
  match rest with
  | Some l :: rest' => l :: nested rest'
  | _ => []
  end.

(** *** Merge *)

(** A set field of the override wins, an unset one leaves the base. *)
Definition merge_field {A : Type} (base override : option A) : option A :=
  match override with
  | Some v => Some v
  | None => base
  end.

(** Modelled from the spec: [Layer.merge] is defined in layers.go.  Every
    field set in the override overwrites the base; the merge fails only when
    the two layers are of different types.  A nil override constrains
    nothing. *)
Definition mergeLayer (base : Layer) (override : option Layer) : Outcome Layer :=
  match override with
  | None => Ok base
  | Some o =>
      match base, o with
      | LEther b, LEther o =>
          Ok (LEther (Ether.Build (merge_field (Ether.SrcAddr b) (Ether.SrcAddr o))
                                  (merge_field (Ether.DstAddr b) (Ether.DstAddr o))))
      | LIPv4 b, LIPv4 o =>
          Ok (LIPv4 (IPv4.Build (merge_field (IPv4.SrcAddr b) (IPv4.SrcAddr o))
                                (merge_field (IPv4.DstAddr b) (IPv4.DstAddr o))))
      | LIPv6 b, LIPv6 o =>
          Ok (LIPv6 (IPv6.Build (merge_field (IPv6.SrcAddr b) (IPv6.SrcAddr o))
                                (merge_field (IPv6.DstAddr b) (IPv6.DstAddr o))))
      | LTCP b, LTCP o =>
          Ok (LTCP (TCP.Build (merge_field (TCP.SrcPort b) (TCP.SrcPort o))
                              (merge_field (TCP.DstPort b) (TCP.DstPort o))
                              (merge_field (TCP.SeqNum b) (TCP.SeqNum o))
                              (merge_field (TCP.AckNum b) (TCP.AckNum o))
                              (merge_field (TCP.Flags b) (TCP.Flags o))))
      | LUDP b, LUDP o =>
          Ok (LUDP (UDP.Build (merge_field (UDP.SrcPort b) (UDP.SrcPort o))
                              (merge_field (UDP.DstPort b) (UDP.DstPort o))))
      | LPayload b, LPayload o =>
          Ok (LPayload (Payload.Build (merge_field (Payload.Bytes b) (Payload.Bytes o))))
      | _, _ => Err CantMerge
      end
  end.

(** Modelled from the spec: [Layers.merge] is defined in layers.go.  The
    override is merged into the base position by position (a nil base
    position, which the connection code never builds, takes the override);
    override layers past the end of the base
    are appended (the payload expectation of [ExpectData]).  The frame is
    updated in place and the errors are collected, so the result is the
    updated frame together with the number of failed positions. *)
Fixpoint Layers_merge (base override : Layers) : Layers * nat :=
  match base, override with
  | _, [] => (base, O)
  | [], _ => (override, O)
  | b :: base', o :: override' =>
      let (rest, errs) := Layers_merge base' override' in
      match b with
      | None => (o :: rest, errs)
      | Some bl =>
          match mergeLayer bl o with
          | Ok m => (Some m :: rest, errs)
          | _ => (b :: rest, S errs)
          end
      end
  end.

(** *** Match *)

Definition Z_list_eqb (a b : list Z) : bool :=
  if list_eq_dec Z.eq_dec a b then true else false.

(** A field unset in the expectation is ignored; a set one must be equal in
    the actual layer. *)
Definition match_field {A : Type} (eqb : A -> A -> bool) (expected actual : option A) : bool :=
  match expected with
  | None => true
  | Some e =>
      match actual with
      | Some a => eqb e a
      | None => false
      end
  end.

(** Modelled from the spec: the match of two layers is defined in layers.go
    ([equalLayer]).  For every field set in the expectation the field of the
    actual layer must be equal; layers of different types do not match; a
    nil expectation constrains nothing. *)
Definition equalLayer (expected actual : option Layer) : bool :=
  match expected with
  | None => true
  | Some e =>
      match e, actual with
      | LEther e, Some (LEther a) =>
          match_field Z_list_eqb (Ether.SrcAddr e) (Ether.SrcAddr a)
          && match_field Z_list_eqb (Ether.DstAddr e) (Ether.DstAddr a)
      | LIPv4 e, Some (LIPv4 a) =>
          match_field Z_list_eqb (IPv4.SrcAddr e) (IPv4.SrcAddr a)
          && match_field Z_list_eqb (IPv4.DstAddr e) (IPv4.DstAddr a)
      | LIPv6 e, Some (LIPv6 a) =>
          match_field Z_list_eqb (IPv6.SrcAddr e) (IPv6.SrcAddr a)
          && match_field Z_list_eqb (IPv6.DstAddr e) (IPv6.DstAddr a)
      | LTCP e, Some (LTCP a) =>
          match_field Z.eqb (TCP.SrcPort e) (TCP.SrcPort a)
          && match_field Z.eqb (TCP.DstPort e) (TCP.DstPort a)
          && match_field Z.eqb (TCP.SeqNum e) (TCP.SeqNum a)
          && match_field Z.eqb (TCP.AckNum e) (TCP.AckNum a)
          && match_field Z.eqb (TCP.Flags e) (TCP.Flags a)
      | LUDP e, Some (LUDP a) =>
          match_field Z.eqb (UDP.SrcPort e) (UDP.SrcPort a)
          && match_field Z.eqb (UDP.DstPort e) (UDP.DstPort a)
      | LPayload e, Some (LPayload a) =>
          match_field Z_list_eqb (Payload.Bytes e) (Payload.Bytes a)
      | _, _ => false
      end
  end.

(** Modelled from the spec: [Layers.match] is defined in layers.go.  Every
    position of the expectation must match the captured layer of the same
    index; extra trailing captured layers are unconstrained; a captured
    frame with fewer layers than the expectation does not match. *)
Fixpoint Layers_match (expected actual : Layers) : bool :=
  match expected, actual with
  | [], _ => true
  | _ :: _, [] => false
  | e :: expected', a :: actual' => equalLayer e a && Layers_match expected' actual'
  end.

(** ** The wire: lengths, serialisation and parsing

    [Layer.length], [Layers.ToBytes] and [parse] are defined in layers.go.
    The connection code is verified for every implementation of them. *)

Class LayerCodec : Type := {
  (** [l.length()]: the number of bytes of the layer on the wire (a Go [int]). *)
  length : Layer -> Z;
  (** [frame.ToBytes()]; [None] when the frame cannot be serialised. *)
  ToBytes : Layers -> option bytes;
  (** [parse(parseEther, b)]: the layers found in the bytes, outermost first. *)
  parse : bytes -> Layers
}.

(** ** Layer states *)

Module etherState.
Record t : Type := Build { out : Ether.t; in_ : Ether.t }.
End etherState.

Module ipv4State.
Record t : Type := Build { out : IPv4.t; in_ : IPv4.t }.
End ipv4State.

Module ipv6State.
Record t : Type := Build { out : IPv6.t; in_ : IPv6.t }.
End ipv6State.

Module udpState.
Record t : Type := Build { out : UDP.t; in_ : UDP.t; portPickerFD : Z }.
End udpState.

Module tcpState.

Record t : Type := Build {
  out : TCP.t;
  in_ : TCP.t;
  localSeqNum : option seqnum.Value;
  remoteSeqNum : option seqnum.Value;
  synAck : option TCP.t;
  portPickerFD : Z;
  finSent : bool
}.

Definition set_localSeqNum (s : t) (v : option seqnum.Value) : t :=
  Build (out s) (in_ s) v (remoteSeqNum s) (synAck s) (portPickerFD s) (finSent s).

Definition set_remoteSeqNum (s : t) (v : option seqnum.Value) : t :=
  Build (out s) (in_ s) (localSeqNum s) v (synAck s) (portPickerFD s) (finSent s).

Definition set_synAck (s : t) (v : option TCP.t) : t :=
  Build (out s) (in_ s) (localSeqNum s) (remoteSeqNum s) v (portPickerFD s) (finSent s).

Definition set_finSent (s : t) (b : bool) : t :=
  Build (out s) (in_ s) (localSeqNum s) (remoteSeqNum s) (synAck s) (portPickerFD s) b.

(** [TCP.merge] on two TCP layers: the types agree, so it cannot fail. *)
Definition merge_TCP (base override : TCP.t) : TCP.t :=
  TCP.Build (merge_field (TCP.SrcPort base) (TCP.SrcPort override))
            (merge_field (TCP.DstPort base) (TCP.DstPort override))
            (merge_field (TCP.SeqNum base) (TCP.SeqNum override))
            (merge_field (TCP.AckNum base) (TCP.AckNum override))
            (merge_field (TCP.Flags base) (TCP.Flags override)).

(** [newTCPState], after [pickPort] gave the descriptor [fd] and the port
    [localPort] and [rand.Uint32()] gave [isn]. *)
Definition newTCPState (fd localPort isn : Z) (out in_ : TCP.t) : t :=
  Build (merge_TCP (TCP.Build (Some localPort) None None None None) out)
        (merge_TCP (TCP.Build None (Some localPort) None None None) in_)
        (Some isn)
        None
        None
        fd
        false.

Definition outgoing (s : t) : Layer :=
  let newOutgoing := out s in
  let newOutgoing :=
    match localSeqNum s with
    | Some v => TCP.Build (TCP.SrcPort newOutgoing) (TCP.DstPort newOutgoing) (Some v)
                          (TCP.AckNum newOutgoing) (TCP.Flags newOutgoing)
    | None => newOutgoing
    end in
  let newOutgoing :=
    match remoteSeqNum s with
    | Some v => TCP.Build (TCP.SrcPort newOutgoing) (TCP.DstPort newOutgoing)
                          (TCP.SeqNum newOutgoing) (Some v) (TCP.Flags newOutgoing)
    | None => newOutgoing
    end in
  LTCP newOutgoing.

(** In the guard [s.localSeqNum != nil && ... Flags & TCPFlagAck ... != 0]
    the received flags are dereferenced only when the left operand holds. *)
Definition incoming (s : t) (received : option Layer) : Outcome (option Layer) :=
  match received with
  | Some (LTCP tcpReceived) =>
      let newIn := in_ s in
      let newIn :=
        match remoteSeqNum s with
        | Some v => TCP.Build (TCP.SrcPort newIn) (TCP.DstPort newIn) (Some v)
                              (TCP.AckNum newIn) (TCP.Flags newIn)
        | None => newIn
        end in
      match localSeqNum s with
      | None => Ok (Some (LTCP newIn))
      | Some v =>
          match TCP.Flags tcpReceived with
          | None => Panic
          | Some f =>
              if has_flag f header.TCPFlagAck
              then Ok (Some (LTCP (TCP.Build (TCP.SrcPort newIn) (TCP.DstPort newIn)
                                             (TCP.SeqNum newIn) (Some v) (TCP.Flags newIn))))
              else Ok (Some (LTCP newIn))
          end
      end
  | _ => Ok None
  end.

(** [p.UpdateForward(n)] through the pointer [p]. *)
Definition UpdateForward (p : option seqnum.Value) (n : seqnum.Size)
  : Outcome (option seqnum.Value) :=
  match p with
  | Some v => Ok (Some (seqnum.UpdateForward v n))
  | None => Panic
  end.

(** [for current := tcp.next(); current != nil; current = current.next()
    { p.UpdateForward(seqnum.Size(current.length())) }] *)
Fixpoint advance {codec : LayerCodec} (p : option seqnum.Value) (chain : list Layer)
  : Outcome (option seqnum.Value) :=
  match chain with
  | [] => Ok p
  | current :: chain' =>
      p' <- UpdateForward p (seqnum.Size_of_int (length current)) ;;
      advance p' chain'
  end.

Definition sent {codec : LayerCodec} (s : t) (sent : option Layer) (rest : Layers) : Outcome t :=
  match sent with
  | Some (LTCP tcp) =>
      l1 <- (if finSent s then Ok (localSeqNum s)
             else advance (localSeqNum s) (nested rest)) ;;
      l2 <- (match TCP.Flags tcp with
             | Some f =>
                 if has_flag f (Z.lor header.TCPFlagSyn header.TCPFlagFin)
                 then UpdateForward l1 1
                 else Ok l1
             | None => Ok l1
             end) ;;
      match TCP.Flags tcp with
      | None => Panic
      | Some f =>
          let s' := set_localSeqNum s l2 in
          if has_flag f header.TCPFlagFin then Ok (set_finSent s' true) else Ok s'
      end
  | _ => Err CantUpdateState
  end.

Definition received {codec : LayerCodec} (s : t) (l : option Layer) (rest : Layers) : Outcome t :=
  match l with
  | Some (LTCP tcp) =>
      match TCP.SeqNum tcp with
      | None => Panic
      | Some seq =>
          match TCP.Flags tcp with
          | None => Panic
          | Some f =>
              r1 <- (if has_flag f (Z.lor header.TCPFlagSyn header.TCPFlagFin)
                     then UpdateForward (Some seq) 1
                     else Ok (Some seq)) ;;
              r2 <- advance r1 (nested rest) ;;
              Ok (set_remoteSeqNum s r2)
          end
      end
  | _ => Err CantUpdateState
  end.

End tcpState.

(** The [layerState] interface and its five implementations. *)
Inductive layerState : Type :=
| EtherSt (s : etherState.t)
| IPv4St (s : ipv4State.t)
| IPv6St (s : ipv6State.t)
| TCPSt (s : tcpState.t)
| UDPSt (s : udpState.t).

Module layerState_.

Definition outgoing (s : layerState) : Layer :=
  match s with
  | EtherSt s => LEther (etherState.out s)
  | IPv4St s => LIPv4 (ipv4State.out s)
  | IPv6St s => LIPv6 (ipv6State.out s)
  | TCPSt s => tcpState.outgoing s
  | UDPSt s => LUDP (udpState.out s)
  end.

Definition incoming (s : layerState) (received : option Layer) : Outcome (option Layer) :=
  match s with
  | EtherSt s => Ok (Some (LEther (etherState.in_ s)))
  | IPv4St s => Ok (Some (LIPv4 (ipv4State.in_ s)))
  | IPv6St s => Ok (Some (LIPv6 (ipv6State.in_ s)))
  | TCPSt s => tcpState.incoming s received
  | UDPSt s => Ok (Some (LUDP (udpState.in_ s)))
  end.

Definition sent {codec : LayerCodec} (s : layerState) (l : option Layer) (rest : Layers)
  : Outcome layerState :=
  match s with
  | TCPSt s => s' <- tcpState.sent s l rest ;; Ok (TCPSt s')
  | other => Ok other
  end.

Definition received {codec : LayerCodec} (s : layerState) (l : option Layer) (rest : Layers)
  : Outcome layerState :=
  match s with
  | TCPSt s => s' <- tcpState.received s l rest ;; Ok (TCPSt s')
  | other => Ok other
  end.

End layerState_.

(** ** The world outside: clock, sniffer and injector

    The monotonic clock is read through [time.Now] and [time.Until]; every
    reading is later than the one before by an amount [elapse k >= 0] that
    the environment chooses.  The sniffer answers the successive calls of
    [Recv] with the entries of [captured] ([None]: nothing arrived within
    the timeout), and with nothing once they are used up.  [recvLog] and
    [injected] record the calls made to the sniffer and to the injector. *)

Record World : Type := BuildWorld {
  now : Z;
  elapse : nat -> N;
  reads : nat;
  captured : list (option bytes);
  recvLog : list Z;
  injected : list bytes
}.

Definition time_Now (w : World) : Z * World :=
  let t := now w + Z.of_N (elapse w (reads w)) in
  (t, BuildWorld t (elapse w) (S (reads w)) (captured w) (recvLog w) (injected w)).

(** [time.Until(deadline)] *)
Definition time_Until (deadline : Z) (w : World) : Z * World :=
  let (t, w') := time_Now w in (deadline - t, w').

(** [time.Second], in nanoseconds. *)
Definition time_Second : Z := 1000000000.

(** [conn.sniffer.Recv(timeout)] *)
Definition sniffer_Recv (timeout : Z) (w : World) : option bytes * World :=
  let log := recvLog w ++ [timeout] in
  match captured w with
  | [] => (None, BuildWorld (now w) (elapse w) (reads w) [] log (injected w))
  | r :: later => (r, BuildWorld (now w) (elapse w) (reads w) later log (injected w))
  end.

(** [conn.injector.Send(outBytes)] *)
Definition injector_Send (b : bytes) (w : World) : World :=
  BuildWorld (now w) (elapse w) (reads w) (captured w) (recvLog w) (injected w ++ [b]).

(** ** Connection *)

Record Connection : Type := BuildConnection { layerStates : list layerState }.

(** [layersError]; [want] is what [conn.incoming] returned, possibly nil. *)
Record layersError : Type := BuildLayersError { got : Layers; want : option Layers }.

(** The error that [ExpectFrame] returns at the deadline:
    "got no frames matching [layers] during [timeout]: got [errs]". *)
Record expectError : Type := BuildExpectError {
  matching : Layers;
  during : Z;
  diffs : list layersError
}.

Notation "' pat <- m ;; k" := (bind m (fun x => match x with pat => k end))
  (at level 61, pat pattern, m at next level, right associativity).

Section Connections.

Context {codec : LayerCodec}.

(** The loop of [Connection.incoming]: [s.incoming(received[i])] for every
    layer state, stopping at the first nil. *)
Fixpoint incoming_loop (states : list layerState) (received : Layers)
  : Outcome (option Layers) :=
  match states with
  | [] => Ok (Some [])
  | s :: states' =>
      match received with
      | [] => Panic
      | r :: received' =>
          toMatch <- layerState_.incoming s r ;;
          match toMatch with
          | None => Ok None
          | Some l =>
              rest <- incoming_loop states' received' ;;
              Ok (option_map (cons (Some l)) rest)
          end
      end
  end.

Definition incoming (conn : Connection) (received : Layers) : Outcome (option Layers) :=
  if (List.length received <? List.length (layerStates conn))%nat
  then Ok None
  else incoming_loop (layerStates conn) received.

Definition match_ (conn : Connection) (override received : Layers) : Outcome bool :=
  toMatch <- incoming conn received ;;
  match toMatch with
  | None => Ok false
  | Some toMatch =>
      let (merged, errs) := Layers_merge toMatch override in
      match errs with
      | S _ => Ok false
      | O => Ok (Layers_match merged received)
      end
  end.

(** [layersToSend[len(layersToSend)-1].merge(layer)] *)
Fixpoint merge_innermost (layersToSend : list Layer) (layer : option Layer)
  : Outcome (list Layer) :=
  match layersToSend with
  | [] => Panic
  | [l] => m <- mergeLayer l layer ;; Ok [m]
  | l :: inner => r <- merge_innermost inner layer ;; Ok (l :: r)
  end.

Definition CreateFrame (conn : Connection) (layer : option Layer)
           (additionalLayers : Layers) : Outcome Layers :=
  let layersToSend := map layerState_.outgoing (layerStates conn) in
  merged <- fatal_on_error (merge_innermost layersToSend layer) ;;
  Ok (map Some merged ++ additionalLayers).

(** [for i, s := range conn.layerStates { s.sent(sentFrame[i]) }]; the
    layer [sentFrame[i]] is linked to the layers that follow it. *)
Fixpoint sentAll (states : list layerState) (sentFrame : Layers)
  : Outcome (list layerState) :=
  match states with
  | [] => Ok []
  | s :: states' =>
      match sentFrame with
      | [] => Panic
      | l :: rest =>
          s' <- fatal_on_error (layerState_.sent s l rest) ;;
          states'' <- sentAll states' rest ;;
          Ok (s' :: states'')
      end
  end.

Definition SendFrame (conn : Connection) (frame : Layers) (w : World)
  : Outcome (Connection * World) :=
  match ToBytes frame with
  | None => Fatal CantBuild
  | Some outBytes =>
      let w' := injector_Send outBytes w in
      let sentFrame := parse outBytes in
      states <- sentAll (layerStates conn) sentFrame ;;
      Ok (BuildConnection states, w')
  end.

Definition Send (conn : Connection) (layer : option Layer) (additionalLayers : Layers)
           (w : World) : Outcome (Connection * World) :=
  frame <- CreateFrame conn layer additionalLayers ;;
  SendFrame conn frame w.

(** [parse] always delivers a frame, so the result is nil only when the
    timeout is not positive or the sniffer has nothing. *)
Definition recvFrame (timeout : Z) (w : World) : option Layers * World :=
  if timeout <=? 0 then (None, w)
  else
    let (b, w') := sniffer_Recv timeout w in
    match b with
    | None => (None, w')
    | Some b => (Some (parse b), w')
    end.

(** [for i, s := range conn.layerStates { s.received(gotLayers[i]) }] *)
Fixpoint receivedAll (states : list layerState) (gotLayers : Layers)
  : Outcome (list layerState) :=
  match states with
  | [] => Ok []
  | s :: states' =>
      match gotLayers with
      | [] => Panic
      | l :: rest =>
          s' <- fatal_on_error (layerState_.received s l rest) ;;
          states'' <- receivedAll states' rest ;;
          Ok (s' :: states'')
      end
  end.

(** The loop of [ExpectFrame], one unit of fuel per iteration. *)
Fixpoint ExpectFrame_loop (fuel : nat) (conn : Connection) (layers : Layers)
         (deadline : Z) (errs : list layersError) (w : World)
  : Outcome ((Layers + expectError) * Connection * World) :=
  match fuel with
  | O => OutOfFuel
  | S fuel' =>
      let (timeout, w1) := time_Until deadline w in
      let (gotLayers, w2) :=
        if timeout >? 0 then recvFrame timeout w1 else (None, w1) in
      match gotLayers with
      | None => Ok (inr (BuildExpectError layers timeout errs), conn, w2)
      | Some gotLayers =>
          matched <- match_ conn layers gotLayers ;;
          if (matched : bool) then
            states <- receivedAll (layerStates conn) gotLayers ;;
            Ok (inl gotLayers, BuildConnection states, w2)
          else
            want <- incoming conn gotLayers ;;
            ExpectFrame_loop fuel' conn layers deadline
                             (errs ++ [BuildLayersError gotLayers want]) w2
      end
  end.

(** Every iteration but the last takes a frame from the sniffer, so one
    more iteration than there are captured frames is always enough. *)
Definition ExpectFrame (conn : Connection) (layers : Layers) (timeout : Z) (w : World)
  : Outcome ((Layers + expectError) * Connection * World) :=
  let (t, w0) := time_Now w in
  let deadline := t + timeout in
  ExpectFrame_loop (S (List.length (captured w0))) conn layers deadline [] w0.

(** [layers := make([]Layer, n); layers[n-1] = layer] *)
Definition innermost_only (n : nat) (layer : option Layer) : Outcome Layers :=
  match n with
  | O => Panic
  | S m => Ok (repeat None m ++ [layer])
  end.

Definition Expect (conn : Connection) (layer : option Layer) (timeout : Z) (w : World)
  : Outcome ((option Layer + expectError) * Connection * World) :=
  layers <- innermost_only (List.length (layerStates conn)) layer ;;
  '(r, conn', w') <- ExpectFrame conn layers timeout w ;;
  match r with
  | inr err => Ok (inr err, conn', w')
  | inl gotFrame =>
      match nth_error gotFrame (List.length (layerStates conn) - 1) with
      | Some l => Ok (inl l, conn', w')
      | None => Fatal ShortFrame
      end
  end.

(** ** TCPIPv4 *)

Definition NewTCPIPv4 (ether : etherState.t) (ipv4 : ipv4State.t) (tcp : tcpState.t)
  : Connection :=
  BuildConnection [EtherSt ether; IPv4St ipv4; TCPSt tcp].

Definition TCPIPv4_Send (conn : Connection) (tcp : TCP.t) (additionalLayers : Layers)
           (w : World) : Outcome (Connection * World) :=
  Send conn (Some (LTCP tcp)) additionalLayers w.

Definition TCPIPv4_Expect (conn : Connection) (tcp : TCP.t) (timeout : Z) (w : World)
  : Outcome (option TCP.t * option expectError * Connection * World) :=
  '(r, conn', w') <- Expect conn (Some (LTCP tcp)) timeout w ;;
  match r with
  | inr err => Ok (None, Some err, conn', w')
  | inl None => Ok (None, None, conn', w')
  | inl (Some (LTCP gotTCP)) => Ok (Some gotTCP, None, conn', w')
  | inl (Some _) => Fatal NotTCP
  end.

(** [conn.layerStates[len(conn.layerStates)-1].( *tcpState).synAck = synAck] *)
Fixpoint store_synAck (states : list layerState) (synAck : TCP.t)
  : Outcome (list layerState) :=
  match states with
  | [] => Panic
  | [TCPSt s] => Ok [TCPSt (tcpState.set_synAck s (Some synAck))]
  | [_] => Panic
  | s :: inner => r <- store_synAck inner synAck ;; Ok (s :: r)
  end.

Definition Handshake (conn : Connection) (w : World) : Outcome (Connection * World) :=
  '(conn1, w1) <- TCPIPv4_Send conn (TCP.with_flags header.TCPFlagSyn) [] w ;;
  '(synAck, _, conn2, w2) <-
      TCPIPv4_Expect conn1
        (TCP.with_flags (Z.lor header.TCPFlagSyn header.TCPFlagAck)) time_Second w1 ;;
  match synAck with
  | None => Fatal NoSynAck
  | Some synAck =>
      states <- store_synAck (layerStates conn2) synAck ;;
      TCPIPv4_Send (BuildConnection states) (TCP.with_flags header.TCPFlagAck) [] w2
  end.

End Connections.

(** ** A reference codec

    Modelled from the spec: serialisation and parsing live in layers.go.
    This codec writes the modelled fields of Ethernet II, IPv4 and TCP
    headers at their offsets in the standard wire formats (unset fields and
    the fields that are not modelled are zero) and reads them back; whatever
    follows the last header it knows is a [Payload].  It instantiates
    [LayerCodec] in the examples. *)

Module Wire.

Definition field (v : option Z) : Z := match v with Some v => v | None => 0 end.

Definition octet (a : option Address) (i : nat) : Z :=
  nth i (match a with Some a => a | None => [] end) 0 mod 256.

Definition mac (a : option Address) : bytes :=
  [octet a 0; octet a 1; octet a 2; octet a 3; octet a 4; octet a 5].

Definition ip4 (a : option Address) : bytes :=
  [octet a 0; octet a 1; octet a 2; octet a 3].

Definition be16 (v : option Z) : bytes :=
  [(field v / 256) mod 256; field v mod 256].

Definition be32 (v : option Z) : bytes :=
  [(field v / 16777216) mod 256; (field v / 65536) mod 256;
   (field v / 256) mod 256; field v mod 256].

Definition of_be16 (a b : Z) : Z := a * 256 + b.
Definition of_be32 (a b c d : Z) : Z := ((a * 256 + b) * 256 + c) * 256 + d.

Definition layer_bytes (l : Layer) : option bytes :=
  match l with
  | LEther e => Some (mac (Ether.DstAddr e) ++ mac (Ether.SrcAddr e) ++ [8; 0])
  | LIPv4 i =>
      Some ([69; 0; 0; 0; 0; 0; 0; 0; 64; 6; 0; 0]
              ++ ip4 (IPv4.SrcAddr i) ++ ip4 (IPv4.DstAddr i))
  | LTCP t =>
      Some (be16 (TCP.SrcPort t) ++ be16 (TCP.DstPort t)
              ++ be32 (TCP.SeqNum t) ++ be32 (TCP.AckNum t)
              ++ [80; field (TCP.Flags t) mod 256; 0; 0; 0; 0; 0; 0])
  | LPayload p => Some (match Payload.Bytes p with Some b => b | None => [] end)
  | LIPv6 _ | LUDP _ => None
  end.

Fixpoint frame_bytes (frame : Layers) : option bytes :=
  match frame with
  | [] => Some []
  | None :: _ => None
  | Some l :: rest =>
      match layer_bytes l, frame_bytes rest with
      | Some b, Some bs => Some (b ++ bs)
      | _, _ => None
      end
  end.

Definition layer_length (l : Layer) : Z :=
  match l with
  | LEther _ => 14
  | LIPv4 _ => 20
  | LIPv6 _ => 40
  | LTCP _ => 20
  | LUDP _ => 8
  | LPayload p => Z.of_nat (List.length (match Payload.Bytes p with Some b => b | None => [] end))
  end.

Definition parsePayload (b : bytes) : Layers :=
  [Some (LPayload (Payload.Build (Some b)))].

Definition parseTCP (b : bytes) : Layers :=
  if (List.length b <? 20)%nat then parsePayload b
  else
    let at_ i := nth i b 0 in
    Some (LTCP (TCP.Build (Some (of_be16 (at_ 0%nat) (at_ 1%nat)))
                          (Some (of_be16 (at_ 2%nat) (at_ 3%nat)))
                          (Some (of_be32 (at_ 4%nat) (at_ 5%nat) (at_ 6%nat) (at_ 7%nat)))
                          (Some (of_be32 (at_ 8%nat) (at_ 9%nat) (at_ 10%nat) (at_ 11%nat)))
                          (Some (at_ 13%nat))))
      :: parsePayload (skipn 20 b).

Definition parseIPv4 (b : bytes) : Layers :=
  if (List.length b <? 20)%nat then parsePayload b
  else
    let at_ i := nth i b 0 in
    Some (LIPv4 (IPv4.Build (Some [at_ 12%nat; at_ 13%nat; at_ 14%nat; at_ 15%nat])
                            (Some [at_ 16%nat; at_ 17%nat; at_ 18%nat; at_ 19%nat])))
      :: (if at_ 9%nat =? 6 then parseTCP (skipn 20 b) else parsePayload (skipn 20 b)).

Definition parseEther (b : bytes) : Layers :=
  if (List.length b <? 14)%nat then parsePayload b
  else
    let at_ i := nth i b 0 in
    Some (LEther (Ether.Build
                    (Some [at_ 6%nat; at_ 7%nat; at_ 8%nat; at_ 9%nat; at_ 10%nat; at_ 11%nat])
                    (Some [at_ 0%nat; at_ 1%nat; at_ 2%nat; at_ 3%nat; at_ 4%nat; at_ 5%nat])))
      :: (if (at_ 12%nat =? 8) && (at_ 13%nat =? 0)
          then parseIPv4 (skipn 14 b) else parsePayload (skipn 14 b)).

Definition codec : LayerCodec :=
  {| length := layer_length; ToBytes := frame_bytes; parse := parseEther |}.

End Wire.

(** ** Notions used in the statements *)

(** The bytes of a chain of layers, as [sent] and [received] add them up. *)
Definition total_length {codec : LayerCodec} (chain : list Layer) : Z :=
  fold_right (fun l acc => length l + acc) 0 chain.

(** [SYN|FIN] and [SYN|ACK] *)
Definition SynFin : Z := Z.lor header.TCPFlagSyn header.TCPFlagFin.
Definition SynAck : Z := Z.lor header.TCPFlagSyn header.TCPFlagAck.

(** A layer as the parser is expected to deliver it: present, and with the
    sequence number and the flags set when it is a TCP layer. *)
Definition parsed_layer (l : option Layer) : bool :=
  match l with
  | None => false
  | Some (LTCP tcp) =>
      match TCP.SeqNum tcp, TCP.Flags tcp with
      | Some _, Some _ => true
      | _, _ => false
      end
  | Some _ => true
  end.

(** Two layers are of the same concrete type. *)
Definition same_type (a b : Layer) : bool :=
  match a, b with
  | LEther _, LEther _ | LIPv4 _, LIPv4 _ | LIPv6 _, LIPv6 _
  | LTCP _, LTCP _ | LUDP _, LUDP _ | LPayload _, LPayload _ => true
  | _, _ => false
  end.

(** No TCP state of the connection has lost its local sequence number. *)
Definition local_known (s : layerState) : bool :=
  match s with
  | TCPSt s => match tcpState.localSeqNum s with Some _ => true | None => false end
  | _ => true
  end.

(** A run of sends on one TCP state: [s.sent] is called with each sent TCP
    layer in turn (the layer, and the layers that follow it in its frame). *)
Fixpoint sent_each {codec : LayerCodec} (s : tcpState.t)
         (sends : list (option Layer * Layers)) : Outcome tcpState.t :=
  match sends with
  | [] => Ok s
  | (l, rest) :: later => s' <- tcpState.sent s l rest ;; sent_each s' later
  end.

(** The world after [n] rounds of the loop of [ExpectFrame] in which the
    clock is read and the sniffer is polled. *)
Fixpoint after_polls (deadline : Z) (n : nat) (w : World) : World :=
  match n with
  | O => w
  | S n' =>
      let (timeout, w1) := time_Until deadline w in
      after_polls deadline n' (snd (sniffer_Recv timeout w1))
  end.

(** The deadline is still ahead at each of the next [n] readings of the
    clock, taken one per round. *)
Fixpoint in_time (deadline : Z) (n : nat) (w : World) : bool :=
  match n with
  | O => true
  | S n' =>
      let (timeout, w1) := time_Until deadline w in
      (timeout >? 0) && in_time deadline n' (snd (sniffer_Recv timeout w1))
  end.

(** The record that [ExpectFrame] keeps of a captured frame that did not
    match: the frame, and what [conn.incoming] expected for it. *)
Definition diff_of {codec : LayerCodec} (conn : Connection) (b : bytes) : layersError :=
  BuildLayersError (parse b)
    (match incoming conn (parse b) with Ok want => want | _ => None end).

(** Modelled from the spec: serialisation and parsing are defined in
    layers.go.  The spec's round trip: a frame that is serialised and parsed
    again keeps the fields that were set.  Here, for the frames of a TCP/IPv4
    connection that carry no payload: the parsed frame has the TCP layer in
    the third place, with the flags that were set, and no payload bytes
    after it. *)
Definition sends_as_built (codec : LayerCodec) : Prop :=
  forall (e : Ether.t) (i : IPv4.t) (tcp : TCP.t) (f : Z) (outBytes : bytes),
    TCP.Flags tcp = Some f ->
    0 <= f < 256 ->
    ToBytes [Some (LEther e); Some (LIPv4 i); Some (LTCP tcp)] = Some outBytes ->
    exists l0 l1 tcp' rest,
      parse outBytes = l0 :: l1 :: Some (LTCP tcp') :: rest
      /\ TCP.Flags tcp' = Some f
      /\ total_length (nested rest) = 0.

(** *** Example data *)

Module Example.

Definition local_mac : Address := [2; 0; 0; 0; 0; 1].
Definition remote_mac : Address := [2; 0; 0; 0; 0; 2].
Definition local_ip : Address := [10; 0; 0; 1].
Definition remote_ip : Address := [10; 0; 0; 2].

Definition ether : etherState.t :=
  etherState.Build (Ether.Build (Some local_mac) (Some remote_mac))
                   (Ether.Build (Some remote_mac) (Some local_mac)).

Definition ipv4 : ipv4State.t :=
  ipv4State.Build (IPv4.Build (Some local_ip) (Some remote_ip))
                  (IPv4.Build (Some remote_ip) (Some local_ip)).

(** A fresh TCP state: port 40000, initial sequence number 1000, talking
    to port 80. *)
Definition tcp : tcpState.t :=
  tcpState.newTCPState 3 40000 1000
    (TCP.Build None (Some 80) None None None)
    (TCP.Build (Some 80) None None None None).

(** The same, made with an incoming template that fixes the ack number. *)
Definition tcp_ack_template : tcpState.t :=
  tcpState.newTCPState 3 40000 1000
    (TCP.Build None (Some 80) None None None)
    (TCP.Build (Some 80) None None (Some 5) None).

(** The same, two below the 32-bit boundary. *)
Definition tcp_near_wrap : tcpState.t :=
tcpState.newTCPState 3 40000 4294967294
  (TCP.Build None (Some 80) None None None)
  (TCP.Build (Some 80) None None None None).

Definition conn : Connection := NewTCPIPv4 ether ipv4 tcp.

Definition payload (b : bytes) : Layer := LPayload (Payload.Build (Some b)).

(** A frame from the remote side with [l] after the IPv4 header. *)
Definition remote_frame (l : Layer) : Layers :=
  [Some (LEther (Ether.Build (Some remote_mac) (Some local_mac)));
   Some (LIPv4 (IPv4.Build (Some remote_ip) (Some local_ip)));
   Some l].

(** The bytes of a frame in the reference codec. *)
Definition wire (frame : Layers) : bytes :=
  match Wire.frame_bytes frame with Some b => b | None => [] end.

(** A world in which the clock moves by one nanosecond per reading and the
    sniffer has captured the given frames. *)
Definition world (frames : list (option bytes)) : World :=
  BuildWorld 0 (fun _ => 1%N) 0 frames [] [].

(** An expectation that constrains only the flags of the TCP layer. *)
Definition expect_flags (f : Z) : Layers :=
  [None; None; Some (LTCP (TCP.with_flags f))].

(** A segment from the remote side. *)
Definition segment (seq ack flags : Z) : Layer :=
  LTCP (TCP.Build (Some 80) (Some 40000) (Some seq) (Some ack) (Some flags)).

End Example.

(** ** More notions used in the statements *)

(** The time that passes over [k] readings of the clock, the first of them
    being the reading number [first]. *)
Fixpoint elapsed (elapse : nat -> N) (first k : nat) : Z :=
  match k with
  | O => 0
  | S k' => Z.of_N (elapse first) + elapsed elapse (S first) k'
  end.

(** The call ended in [t.Fatalf] or returned an error. *)
Definition aborted {A : Type} (m : Outcome A) : bool :=
  match m with
  | Err _ | Fatal _ => true
  | _ => false
  end.

(** A layer state that [sent] and [received] leave alone: every one but
    the TCP state. *)
Definition stateless (s : layerState) : bool :=
  match s with
  | TCPSt _ => false
  | _ => true
  end.

(** ** The other connections *)

(** [NewIPv6Conn] and [NewUDPIPv4], the layer states given. *)
Definition NewIPv6Conn (ether : etherState.t) (ipv6 : ipv6State.t) : Connection :=
  BuildConnection [EtherSt ether; IPv6St ipv6].

Definition NewUDPIPv4 (ether : etherState.t) (ipv4 : ipv4State.t) (udp : udpState.t)
  : Connection :=
  BuildConnection [EtherSt ether; IPv4St ipv4; UDPSt udp].

(** [UDPIPv4.ExpectData]: the payload is part of the expectation only when
    it is not empty. *)
Definition UDPIPv4_ExpectData {codec : LayerCodec} (conn : Connection) (udp : UDP.t)
           (payload : Payload.t) (timeout : Z) (w : World)
  : Outcome ((Layers + expectError) * Connection * World) :=
  expected <- innermost_only (List.length (layerStates conn)) (Some (LUDP udp)) ;;
  let expected :=
    if length (LPayload payload) =? 0 then expected
    else expected ++ [Some (LPayload payload)] in
  ExpectFrame conn expected timeout w.

(** [UDPIPv4.SendIP]: the slice [conn.layerStates[:len(conn.layerStates)-1]]
    panics on a connection without layer states. *)
Definition UDPIPv4_SendIP {codec : LayerCodec} (conn : Connection)
           (additionalLayers : Layers) (w : World) : Outcome (Connection * World) :=
  match layerStates conn with
  | [] => Panic
  | states =>
      let layersToSend := map (fun s => Some (layerState_.outgoing s)) (removelast states) in
      SendFrame conn (layersToSend ++ additionalLayers) w
  end.

(** *** A reference codec with UDP

    The reference codec, extended by the UDP header (ports at their
    offsets, length and checksum zero) for the examples on UDP/IPv4
    connections. *)

Module WireUDP.

Definition layer_bytes (l : Layer) : option bytes :=
  match l with
  | LIPv4 i =>
      Some ([69; 0; 0; 0; 0; 0; 0; 0; 64; 17; 0; 0]
              ++ Wire.ip4 (IPv4.SrcAddr i) ++ Wire.ip4 (IPv4.DstAddr i))
  | LUDP u =>
      Some (Wire.be16 (UDP.SrcPort u) ++ Wire.be16 (UDP.DstPort u) ++ [0; 0; 0; 0])
  | LTCP _ => None
  | other => Wire.layer_bytes other
  end.

Fixpoint frame_bytes (frame : Layers) : option bytes :=
  match frame with
  | [] => Some []
  | None :: _ => None
  | Some l :: rest =>
      match layer_bytes l, frame_bytes rest with
      | Some b, Some bs => Some (b ++ bs)
      | _, _ => None
      end
  end.

Definition parseUDP (b : bytes) : Layers :=
  if (List.length b <? 8)%nat then Wire.parsePayload b
  else
    let at_ i := nth i b 0 in
    Some (LUDP (UDP.Build (Some (Wire.of_be16 (at_ 0%nat) (at_ 1%nat)))
                          (Some (Wire.of_be16 (at_ 2%nat) (at_ 3%nat)))))
      :: Wire.parsePayload (skipn 8 b).

Definition parseIPv4 (b : bytes) : Layers :=
  if (List.length b <? 20)%nat then Wire.parsePayload b
  else
    let at_ i := nth i b 0 in
    Some (LIPv4 (IPv4.Build (Some [at_ 12%nat; at_ 13%nat; at_ 14%nat; at_ 15%nat])
                            (Some [at_ 16%nat; at_ 17%nat; at_ 18%nat; at_ 19%nat])))
      :: (if at_ 9%nat =? 17 then parseUDP (skipn 20 b)
          else Wire.parsePayload (skipn 20 b)).

Definition parseEther (b : bytes) : Layers :=
  if (List.length b <? 14)%nat then Wire.parsePayload b
  else
    let at_ i := nth i b 0 in
    Some (LEther (Ether.Build
                    (Some [at_ 6%nat; at_ 7%nat; at_ 8%nat; at_ 9%nat; at_ 10%nat; at_ 11%nat])
                    (Some [at_ 0%nat; at_ 1%nat; at_ 2%nat; at_ 3%nat; at_ 4%nat; at_ 5%nat])))
      :: (if (at_ 12%nat =? 8) && (at_ 13%nat =? 0)
          then parseIPv4 (skipn 14 b) else Wire.parsePayload (skipn 14 b)).

Definition codec : LayerCodec :=
  {| length := Wire.layer_length; ToBytes := frame_bytes; parse := parseEther |}.

(** A UDP/IPv4 connection on local port 40000, and a datagram for it. *)
Definition udp : udpState.t :=
  udpState.Build (UDP.Build (Some 40000) None) (UDP.Build None (Some 40000)) 4.

Definition conn : Connection := NewUDPIPv4 Example.ether Example.ipv4 udp.

Definition datagram (srcPort : Z) (data : bytes) : bytes :=
  match frame_bytes (Example.remote_frame (LUDP (UDP.Build (Some srcPort) (Some 40000)))
                       ++ [Some (Example.payload data)]) with
  | Some b => b
  | None => []
  end.

End WireUDP.

(** ** Closing a connection

    [unix.Close], [sniffer.close] and [injector.close] belong to the system:
    [closes fd] tells whether the system closes the descriptor [fd], and
    two booleans tell whether the sniffer and the injector closed. *)

Module Closing.

(** [tcpState.close] and [udpState.close]; the boolean tells that no error
    is returned. *)
Definition tcpState_close (closes : Z -> bool) (s : tcpState.t) : tcpState.t * bool :=
  if closes (tcpState.portPickerFD s)
  then (tcpState.Build (tcpState.out s) (tcpState.in_ s) (tcpState.localSeqNum s)
          (tcpState.remoteSeqNum s) (tcpState.synAck s) (-1) (tcpState.finSent s),
        true)
  else (s, false).

Definition udpState_close (closes : Z -> bool) (s : udpState.t) : udpState.t * bool :=
  if closes (udpState.portPickerFD s)
  then (udpState.Build (udpState.out s) (udpState.in_ s) (-1), true)
  else (s, false).

Definition close (closes : Z -> bool) (s : layerState) : layerState * bool :=
  match s with
  | TCPSt t => let (t', ok) := tcpState_close closes t in (TCPSt t', ok)
  | UDPSt u => let (u', ok) := udpState_close closes u in (UDPSt u', ok)
  | other => (other, true)
  end.

(** [for _, s := range conn.layerStates { if err := s.close(); err != nil
    { errs = multierr.Append(errs, ...) } }]: the states after the loop and
    the number of errors that were appended. *)
Fixpoint close_states (closes : Z -> bool) (states : list layerState)
  : list layerState * nat :=
  match states with
  | [] => ([], O)
  | s :: states' =>
      let (s', ok) := close closes s in
      let (rest, errs) := close_states closes states' in
      (s' :: rest, if ok then errs else S errs)
  end.

(** [Connection.Close]: the connection afterwards and the number of errors
    collected; [t.Fatalf] is called when that number is not zero. *)
Definition Close (snifferCloses injectorCloses : bool) (closes : Z -> bool)
           (conn : Connection) : Connection * nat :=
  let errs := ((if snifferCloses then 0 else 1) + (if injectorCloses then 0 else 1))%nat in
  let (states, more) := close_states closes (layerStates conn) in
  (BuildConnection states, (errs + more)%nat).

(** The descriptor that a layer state holds, if it holds one. *)
Definition descriptor (s : layerState) : option Z :=
  match s with
  | TCPSt t => Some (tcpState.portPickerFD t)
  | UDPSt u => Some (udpState.portPickerFD u)
  | _ => None
  end.

End Closing.

(** ** Network devices (package netdevs) *)

Module netdevs.

(** [net.HardwareAddr] and [net.IP] are byte slices. *)
Definition HardwareAddr := list Z.
Definition IP := list Z.

Record IPNet : Type := BuildIPNet { NetIP : IP; Mask : list Z }.

Record DeviceInfo : Type := BuildDeviceInfo {
  MAC : HardwareAddr;
  IPv4Addr : IP;
  IPv4Net : option IPNet;
  IPv6Addr : IP;
  IPv6Net : option IPNet
}.

(** [DeviceInfo{}] *)
Definition no_info : DeviceInfo := BuildDeviceInfo [] [] None [] None.

(** [MACToIP]: indexing a MAC of fewer than six bytes panics. *)
Definition MACToIP (mac : HardwareAddr) : Outcome IP :=
  match mac with
  | m0 :: m1 :: m2 :: m3 :: m4 :: m5 :: _ =>
      Ok [254; 128; 0; 0; 0; 0; 0; 0; m0; m1; m2; 255; 254; m3; m4; m5]
  | _ => Panic
  end.

Section Devices.

(** [net.IP.Equal] and the parsers of package net belong to the Go
    library; the four regular expressions are given by what
    [FindStringSubmatch] finds as their first group. *)
Variable Equal : IP -> IP -> bool.
Variable ParseMAC : String.string -> option HardwareAddr.
Variable ParseCIDR : String.string -> option (IP * IPNet).
Variables deviceLine linkLine inetLine inet6Line : String.string -> option String.string.

(** [FindDeviceByIP]; [devices] lists the map in the order in which the
    [range] loop happens to visit it; [None] is the error. *)
Fixpoint FindDeviceByIP (ip : IP) (devices : list (String.string * DeviceInfo))
  : option (String.string * DeviceInfo) :=
  match devices with
  | [] => None
  | (dev, info) :: rest =>
      if Equal (IPv4Addr info) ip then Some (dev, info)
      else FindDeviceByIP ip rest
  end.

(** [map[string]DeviceInfo] *)
Definition DeviceMap := String.string -> option DeviceInfo.

Definition no_devices : DeviceMap := fun _ => None.

Definition store (dev : String.string) (info : DeviceInfo) (m : DeviceMap) : DeviceMap :=
  fun d => if String.eqb dev d then Some info else m d.

(** [if currentDevice != "" { deviceInfos[currentDevice] = currentInfo }] *)
Definition flush (currentDevice : String.string) (currentInfo : DeviceInfo)
           (m : DeviceMap) : DeviceMap :=
  if String.eqb currentDevice String.EmptyString then m
  else store currentDevice currentInfo m.

(** The loop of [ParseDevices] over the lines of the command output;
    [None] is the error of a parser. *)
Fixpoint parse_lines (lines : list String.string) (currentDevice : String.string)
         (currentInfo : DeviceInfo) (deviceInfos : DeviceMap) : option DeviceMap :=
  match lines with
  | [] => Some (flush currentDevice currentInfo deviceInfos)
  | line :: rest =>
      match deviceLine line with
      | Some name =>
          parse_lines rest name no_info (flush currentDevice currentInfo deviceInfos)
      | None =>
          match linkLine line with
          | Some m =>
              match ParseMAC m with
              | None => None
              | Some mac =>
                  parse_lines rest currentDevice
                    (BuildDeviceInfo mac (IPv4Addr currentInfo) (IPv4Net currentInfo)
                       (IPv6Addr currentInfo) (IPv6Net currentInfo))
                    deviceInfos
              end
          | None =>
              match inetLine line with
              | Some m =>
                  match ParseCIDR m with
                  | None => None
                  | Some (ipv4Addr, ipv4Net) =>
                      parse_lines rest currentDevice
                        (BuildDeviceInfo (MAC currentInfo) ipv4Addr (Some ipv4Net)
                           (IPv6Addr currentInfo) (IPv6Net currentInfo))
                        deviceInfos
                  end
              | None =>
                  match inet6Line line with
                  | Some m =>
                      match ParseCIDR m with
                      | None => None
                      | Some (ipv6Addr, ipv6Net) =>
                          parse_lines rest currentDevice
                            (BuildDeviceInfo (MAC currentInfo) (IPv4Addr currentInfo)
                               (IPv4Net currentInfo) ipv6Addr (Some ipv6Net))
                            deviceInfos
                      end
                  | None => parse_lines rest currentDevice currentInfo deviceInfos
                  end
              end
          end
      end
  end.

(** [ParseDevices], on the lines that [strings.Split(cmdOutput, "\n")]
    gives. *)
Definition ParseDevices (lines : list String.string) : option DeviceMap :=
  parse_lines lines String.EmptyString no_info no_devices.

(** A line that hands an address to a parser which rejects it. *)
Definition bad_address (line : String.string) : bool :=
  match deviceLine line with
  | Some _ => false
  | None =>
      match linkLine line with
      | Some m => match ParseMAC m with None => true | Some _ => false end
      | None =>
          match inetLine line with
          | Some m => match ParseCIDR m with None => true | Some _ => false end
          | None =>
              match inet6Line line with
              | Some m => match ParseCIDR m with None => true | Some _ => false end
              | None => false
              end
          end
      end
  end.

End Devices.

End netdevs.

(** *** Example matchers and parsers for [ParseDevices]

    Simple stand-ins for the regular expressions and for the parsers of
    package net, for the examples: a line is recognised by its first word,
    and the address "bad" is rejected. *)

Module DevicesExample.

Definition after (word line : String.string) : option String.string :=
  if String.prefix word line
  then Some (String.substring (String.length word)
               (String.length line - String.length word) line)
  else None.

Definition deviceLine := after "dev "%string.
Definition linkLine := after "link "%string.
Definition inetLine := after "inet "%string.
Definition inet6Line := after "inet6 "%string.

Definition ParseMAC (s : String.string) : option netdevs.HardwareAddr :=
  if String.eqb s "bad"%string then None else Some [2; 0; 0; 0; 0; 1].

Definition ParseCIDR (s : String.string) : option (netdevs.IP * netdevs.IPNet) :=
  if String.eqb s "bad"%string then None
  else Some ([10; 0; 0; 1], netdevs.BuildIPNet [10; 0; 0; 0] [255; 255; 255; 0]).

Definition ParseDevices :=
  netdevs.ParseDevices ParseMAC ParseCIDR deviceLine linkLine inetLine inet6Line.

End DevicesExample.

(** ** Host file descriptors (package host, fsimpl)

    The inode of an imported host descriptor and the operations of its
    file description that work on the offset.  The system calls and the
    constants of package linux are parameters. *)

Module host.

Definition MaxInt64 : Z := 2 ^ 63 - 1.
Definition MinInt64 : Z := - 2 ^ 63.

(** The value of an [int64] expression: arithmetic wraps around. *)
Definition int64 (z : Z) : Z := (z + 2 ^ 63) mod 2 ^ 64 - 2 ^ 63.

(** The errors of package syserror that these operations return, and the
    errors that come from the host. *)
Inductive error : Type :=
| ESPIPE
| EINVAL
| EOVERFLOW
| EOPNOTSUPP
| EPERM
| ErrWouldBlock
| HostError (code : Z).

(** The fields of [inode] that the operations below read or write. *)
Record inode : Type := BuildInode {
  hostFD : Z;
  seekable : bool;
  offset : Z
}.

Definition set_offset (i : inode) (o : Z) : inode :=
  BuildInode (hostFD i) (seekable i) o.

Section Operations.

(** [linux.SEEK_SET], [linux.SEEK_CUR], [linux.SEEK_END], [linux.SEEK_DATA]
    and [linux.SEEK_HOLE]. *)
Variables SEEK_SET SEEK_CUR SEEK_END SEEK_DATA SEEK_HOLE : Z.

(** [syscall.Fstat(fd, &s)], as far as [s.Size] goes, and
    [unix.Seek(fd, offset, whence)]. *)
Variable Fstat_Size : Z -> Z + error.
Variable unix_Seek : Z -> Z -> Z -> Z + error.

(** What the host does with a read or a write at an offset of a descriptor
    (offset -1: at the position of the descriptor): the bytes moved and the
    error. *)
Variable host_read : Z -> Z -> Z * option error.
Variable host_write : Z -> Z -> Z * option error.

(** [isBlockError], defined elsewhere in the package. *)
Variable isBlockError : option error -> bool.

(** [fileDescription.Seek]: the inode afterwards, the offset returned and
    the error. *)
Definition Seek (i : inode) (offset_ whence : Z) : inode * Z * option error :=
  if negb (seekable i) then (i, 0, Some ESPIPE)
  else if whence =? SEEK_SET then
    if offset_ <? 0 then (i, offset i, Some EINVAL)
    else (set_offset i offset_, offset_, None)
  else if whence =? SEEK_CUR then
    if offset_ >? int64 (MaxInt64 - offset i) then (i, offset i, Some EOVERFLOW)
    else if int64 (offset i + offset_) <? 0 then (i, offset i, Some EINVAL)
    else (set_offset i (int64 (offset i + offset_)), int64 (offset i + offset_), None)
  else if whence =? SEEK_END then
    match Fstat_Size (hostFD i) with
    | inr err => (i, offset i, Some err)
    | inl size =>
        if offset_ >? int64 (MaxInt64 - size) then (i, offset i, Some EOVERFLOW)
        else if int64 (size + offset_) <? 0 then (i, offset i, Some EINVAL)
        else (set_offset i (int64 (size + offset_)), int64 (size + offset_), None)
    end
  else if (whence =? SEEK_DATA) || (whence =? SEEK_HOLE) then
    match unix_Seek (hostFD i) offset_ whence with
    | inr err => (i, offset i, Some err)
    | inl n => (set_offset i n, n, None)
    end
  else (i, offset i, Some EINVAL).

(** [readFromHostFD] and [writeToHostFD]: flags are not supported. *)
Definition readFromHostFD (fd offset_ flags : Z) : Z * option error :=
  if flags =? 0 then host_read fd offset_ else (0, Some EOPNOTSUPP).

Definition writeToHostFD (fd offset_ flags : Z) : Z * option error :=
  if flags =? 0 then host_write fd offset_ else (0, Some EOPNOTSUPP).

Definition PRead (i : inode) (offset_ flags : Z) : inode * Z * option error :=
  if negb (seekable i) then (i, 0, Some ESPIPE)
  else let (n, err) := readFromHostFD (hostFD i) offset_ flags in (i, n, err).

Definition PWrite (i : inode) (offset_ flags : Z) : inode * Z * option error :=
  if negb (seekable i) then (i, 0, Some ESPIPE)
  else let (n, err) := writeToHostFD (hostFD i) offset_ flags in (i, n, err).

Definition Read (i : inode) (flags : Z) : inode * Z * option error :=
  if negb (seekable i) then
    let (n, err) := readFromHostFD (hostFD i) (-1) flags in
    if isBlockError err
    then (i, n, if n =? 0 then Some ErrWouldBlock else None)
    else (i, n, err)
  else
    let (n, err) := readFromHostFD (hostFD i) (offset i) flags in
    (set_offset i (int64 (offset i + n)), n, err).

Definition Write (i : inode) (flags : Z) : inode * Z * option error :=
  if negb (seekable i) then
    let (n, err) := writeToHostFD (hostFD i) (-1) flags in
    if isBlockError err then (i, n, Some ErrWouldBlock) else (i, n, err)
  else
    let (n, err) := writeToHostFD (hostFD i) (offset i) flags in
    (set_offset i (int64 (offset i + n)), n, err).

(** The operations on a file description that may touch the offset. *)
Inductive operation : Type :=
| OpSeek (offset_ whence : Z)
| OpRead (flags : Z)
| OpWrite (flags : Z)
| OpPRead (offset_ flags : Z)
| OpPWrite (offset_ flags : Z).

Definition perform (i : inode) (op : operation) : inode * Z * option error :=
  match op with
  | OpSeek o w => Seek i o w
  | OpRead f => Read i f
  | OpWrite f => Write i f
  | OpPRead o f => PRead i o f
  | OpPWrite o f => PWrite i o f
  end.

(** The inode after a sequence of operations. *)
Definition perform_all (i : inode) (ops : list operation) : inode :=
  fold_left (fun i op => fst (fst (perform i op))) ops i.

End Operations.

(** The fields of [opts.Stat] that [inode.SetStat] reads. *)
Record SetStatRequest : Type := BuildRequest {
  Mask : Z;
  Mode : Z;
  Size : Z;
  Atime : Z;
  Mtime : Z
}.

Section SetStat.

(** [linux.STATX_MODE], [linux.STATX_SIZE], [linux.STATX_ATIME] and
    [linux.STATX_MTIME]. *)
Variables STATX_MODE STATX_SIZE STATX_ATIME STATX_MTIME : Z.

(** What [syscall.Fstat] fills in, and the time specifications that
    [toTimespec] makes (defined elsewhere in the package). *)
Variables HostStat Timespec : Type.
Variable toTimespec : Z -> bool -> Timespec.

(** The calls to the host that [SetStat] makes. *)
Inductive call : Type :=
| Fstat (fd : Z)
| Fchmod (fd mode : Z)
| Ftruncate (fd size : Z)
| SetTimestamps (fd : Z) (atime mtime : Timespec).

(** The host's answers, and the permission check of package vfs. *)
Variable Fstat_result : Z -> HostStat + error.
Variable CheckSetStat : SetStatRequest -> HostStat -> option error.
Variable failure_of : call -> option error.

(** [inode.SetStat]: the calls made to the host, in order, and the error
    returned. *)
Definition SetStat (i : inode) (s : SetStatRequest) : list call * option error :=
  let m := Mask s in
  if m =? 0 then ([], None)
  else if negb (Z.ldiff m (Z.lor (Z.lor (Z.lor STATX_MODE STATX_SIZE) STATX_ATIME)
                             STATX_MTIME) =? 0)
  then ([], Some EPERM)
  else
    match Fstat_result (hostFD i) with
    | inr err => ([Fstat (hostFD i)], Some err)
    | inl hostStat =>
        match CheckSetStat s hostStat with
        | Some err => ([Fstat (hostFD i)], Some err)
        | None =>
            let chmod := Fchmod (hostFD i) (Mode s) in
            let truncate := Ftruncate (hostFD i) (int64 (Size s)) in
            let times :=
              SetTimestamps (hostFD i)
                (toTimespec (Atime s) (Z.land m STATX_ATIME =? 0))
                (toTimespec (Mtime s) (Z.land m STATX_MTIME =? 0)) in
            let after_mode :=
              if negb (Z.land m STATX_MODE =? 0) then ([chmod], failure_of chmod)
              else ([], None) in
            match after_mode with
            | (calls1, Some err) => (Fstat (hostFD i) :: calls1, Some err)
            | (calls1, None) =>
                let after_size :=
                  if negb (Z.land m STATX_SIZE =? 0)
                  then ([truncate], failure_of truncate)
                  else ([], None) in
                match after_size with
                | (calls2, Some err) => (Fstat (hostFD i) :: calls1 ++ calls2, Some err)
                | (calls2, None) =>
                    if negb (Z.land m (Z.lor STATX_ATIME STATX_MTIME) =? 0)
                    then (Fstat (hostFD i) :: calls1 ++ calls2 ++ [times],
                          failure_of times)
                    else (Fstat (hostFD i) :: calls1 ++ calls2, None)
                end
            end
        end
    end.

End SetStat.

End host.

(** ** Facts about 32-bit sequence arithmetic *)

Lemma UpdateForward_range (v n : Z) :
  0 <= seqnum.UpdateForward v n < seqnum.modulus.
Proof.
  unfold seqnum.UpdateForward. apply Z.mod_pos_bound. reflexivity.
Qed.

Lemma UpdateForward_Size_of_int (v n : Z) :
  seqnum.UpdateForward v (seqnum.Size_of_int n) = (v + n) mod seqnum.modulus.
Proof.
  unfold seqnum.UpdateForward, seqnum.Size_of_int.
  apply Zplus_mod_idemp_r.
Qed.

(** Walking a chain from a set sequence number never fails and adds the
    chain's bytes modulo 2^32. *)
Lemma advance_congruent {codec : LayerCodec} (chain : list Layer) (v : Z) :
  exists v',
    tcpState.advance (Some v) chain = Ok (Some v')
    /\ v' mod seqnum.modulus = (v + total_length chain) mod seqnum.modulus
    /\ (chain = [] -> v' = v).
Proof.
  revert v. induction chain as [|l chain IH]; intros v.
  - exists v. simpl. rewrite Z.add_0_r. auto.
  - simpl. destruct (IH (seqnum.UpdateForward v (seqnum.Size_of_int (length l))))
      as (v' & E & M & _).
    exists v'. split; [exact E|]. split; [|discriminate].
    rewrite M, UpdateForward_Size_of_int, Zplus_mod_idemp_l.
    f_equal. lia.
Qed.

Lemma advance_in_range {codec : LayerCodec} (chain : list Layer) (v : Z) :
  0 <= v < seqnum.modulus ->
  tcpState.advance (Some v) chain = Ok (Some ((v + total_length chain) mod seqnum.modulus)).
Proof.
  revert v. induction chain as [|l chain IH]; intros v R.
  - simpl. rewrite Z.add_0_r, Z.mod_small; auto.
  - simpl. rewrite IH by apply UpdateForward_range.
    rewrite UpdateForward_Size_of_int, Zplus_mod_idemp_l.
    do 3 f_equal. lia.
Qed.

(** ** [tcpState.sent] and [tcpState.received] *)

Lemma sent_closed_form {codec : LayerCodec} (s : tcpState.t) (tcp : TCP.t) (rest : Layers)
      (v f : Z) :
  tcpState.localSeqNum s = Some v ->
  0 <= v < seqnum.modulus ->
  TCP.Flags tcp = Some f ->
  tcpState.sent s (Some (LTCP tcp)) rest =
  Ok (tcpState.Build
        (tcpState.out s) (tcpState.in_ s)
        (Some ((v + (if tcpState.finSent s then 0 else total_length (nested rest))
                  + (if has_flag f SynFin then 1 else 0)) mod seqnum.modulus))
        (tcpState.remoteSeqNum s) (tcpState.synAck s) (tcpState.portPickerFD s)
        (tcpState.finSent s || has_flag f header.TCPFlagFin)).
Proof.
  intros L R F. unfold tcpState.sent. rewrite F, L. fold SynFin.
  destruct (tcpState.finSent s) eqn:FS;
    [|rewrite advance_in_range by assumption]; cbn [bind];
    destruct (has_flag f SynFin); cbn [bind tcpState.UpdateForward];
    destruct (has_flag f header.TCPFlagFin);
    unfold tcpState.set_finSent, tcpState.set_localSeqNum, seqnum.UpdateForward;
    cbn [tcpState.out tcpState.in_ tcpState.localSeqNum tcpState.remoteSeqNum
         tcpState.synAck tcpState.portPickerFD tcpState.finSent orb];
    rewrite ?FS, ?Zplus_mod_idemp_l, ?Z.add_0_r, ?(Z.mod_small v) by assumption;
    reflexivity.
Qed.

Lemma received_closed_form {codec : LayerCodec} (s : tcpState.t) (tcp : TCP.t) (rest : Layers)
      (seq f : Z) :
  TCP.SeqNum tcp = Some seq ->
  0 <= seq < seqnum.modulus ->
  TCP.Flags tcp = Some f ->
  tcpState.received s (Some (LTCP tcp)) rest =
  Ok (tcpState.set_remoteSeqNum s
        (Some ((seq + (if has_flag f SynFin then 1 else 0)
                    + total_length (nested rest)) mod seqnum.modulus))).
Proof.
  intros S R F. unfold tcpState.received. rewrite S, F. fold SynFin.
  destruct (has_flag f SynFin); cbn [tcpState.UpdateForward bind].
  - rewrite advance_in_range by apply UpdateForward_range.
    unfold seqnum.UpdateForward. rewrite Zplus_mod_idemp_l. reflexivity.
  - rewrite advance_in_range by assumption. rewrite Z.add_0_r. reflexivity.
Qed.

(** C1.  For a TCP layer given to [tcpState.sent] (its flags set, as on
    every layer parsed from sent bytes; the local sequence number a 32-bit
    value): the local sequence number moves forward, modulo 2^32, by the
    bytes of all nested layers unless FIN had been sent before, and by one
    more if SYN or FIN is set on the layer, also after FIN had been sent;
    [finSent] afterwards holds exactly if it held before or FIN is set. *)
Theorem tcpState_sent_advances {codec : LayerCodec} (s : tcpState.t) (tcp : TCP.t)
        (rest : Layers) (v f : Z) :
  tcpState.localSeqNum s = Some v ->
  0 <= v < 2 ^ 32 ->
  TCP.Flags tcp = Some f ->
  exists s',
    tcpState.sent s (Some (LTCP tcp)) rest = Ok s'
    /\ tcpState.localSeqNum s' =
       Some ((v + (if tcpState.finSent s then 0 else total_length (nested rest))
                + (if has_flag f (Z.lor header.TCPFlagSyn header.TCPFlagFin) then 1 else 0))
               mod 2 ^ 32)
    /\ (tcpState.finSent s' = true <->
        tcpState.finSent s = true \/ has_flag f header.TCPFlagFin = true)
    /\ tcpState.out s' = tcpState.out s
    /\ tcpState.in_ s' = tcpState.in_ s
    /\ tcpState.remoteSeqNum s' = tcpState.remoteSeqNum s
    /\ tcpState.synAck s' = tcpState.synAck s.
Proof.
  intros L R F. eexists. split.
  - apply sent_closed_form; eassumption.
  - cbn. repeat split; try reflexivity.
    + apply orb_true_iff.
    + apply orb_true_iff.
Qed.

Lemma tcpState_sent_advances_witness :
  exists s',
    tcpState.sent (codec := Wire.codec) Example.tcp
      (Some (LTCP (TCP.with_flags header.TCPFlagFin)))
      [Some (Example.payload [1; 2; 3])] = Ok s'
    /\ tcpState.localSeqNum s' = Some 1004
    /\ tcpState.finSent s' = true.
Proof.
  destruct (tcpState_sent_advances (codec := Wire.codec) Example.tcp
              (TCP.with_flags header.TCPFlagFin)
              [Some (Example.payload [1; 2; 3])] 1000 1)
    as (s' & E & L & Fin & _).
  - reflexivity.
  - lia.
  - reflexivity.
  - exists s'. split; [exact E|]. split; [exact L|].
    apply Fin. right. reflexivity.
Defined.

(** C7.  The sequence numbers move in arithmetic modulo 2^32: a send
    leaves the local sequence number at [(v + n) mod 2^32] and a receive
    leaves the remote one at [(v + n) mod 2^32], [n] being the amount
    advanced; every single advance wraps in the same way, and 0xFFFFFFFE
    advanced by 3 is 1. *)
Theorem seqnum_advance_modular {codec : LayerCodec} (s : tcpState.t) (tcp : TCP.t)
        (rest : Layers) (v f : Z) :
  0 <= v < 2 ^ 32 ->
  TCP.Flags tcp = Some f ->
  (tcpState.localSeqNum s = Some v ->
   exists s',
     tcpState.sent s (Some (LTCP tcp)) rest = Ok s'
     /\ tcpState.localSeqNum s' =
        Some ((v + ((if tcpState.finSent s then 0 else total_length (nested rest))
                      + (if has_flag f SynFin then 1 else 0))) mod 2 ^ 32))
  /\ (TCP.SeqNum tcp = Some v ->
      exists s',
        tcpState.received s (Some (LTCP tcp)) rest = Ok s'
        /\ tcpState.remoteSeqNum s' =
           Some ((v + ((if has_flag f SynFin then 1 else 0)
                         + total_length (nested rest))) mod 2 ^ 32))
  /\ (forall n, tcpState.UpdateForward (Some v) n = Ok (Some ((v + n) mod 2 ^ 32)))
  /\ seqnum.UpdateForward 4294967294 3 = 1.
Proof.
  intros R F. repeat split.
  - intros L. eexists. split; [apply sent_closed_form; eassumption|].
    cbn. rewrite Z.add_assoc. reflexivity.
  - intros S. eexists. split; [apply received_closed_form; eassumption|].
    cbn. rewrite Z.add_assoc. reflexivity.
Qed.

Lemma seqnum_advance_modular_witness :
  exists s',
    tcpState.sent (codec := Wire.codec) Example.tcp_near_wrap
      (Some (LTCP (TCP.with_flags header.TCPFlagAck)))
      [Some (Example.payload [7; 8; 9])] = Ok s'
    /\ tcpState.localSeqNum s' = Some 1.
Proof.
  destruct (seqnum_advance_modular (codec := Wire.codec) Example.tcp_near_wrap
              (TCP.with_flags header.TCPFlagAck)
              [Some (Example.payload [7; 8; 9])] 4294967294 16)
    as (Sent & _).
  - lia.
  - reflexivity.
  - destruct Sent as (s' & E & L); [reflexivity|].
    exists s'. split; [exact E | exact L].
Defined.

(** ** [tcpState.incoming] *)

(** C6, as the code has it.  For a received TCP layer with its flags set,
    the expected layer takes the local sequence number as its ack number
    when that number is known and the received ACK flag is set; otherwise
    its ack number is the one of the state's incoming template.  So, when
    the template leaves the ack number unset, the ack number is set exactly
    if the local sequence number is known and ACK is set. *)
Theorem tcpState_incoming_ack (s : tcpState.t) (tcpReceived : TCP.t) (f : Z) :
  TCP.Flags tcpReceived = Some f ->
  exists newIn,
    tcpState.incoming s (Some (LTCP tcpReceived)) = Ok (Some (LTCP newIn))
    /\ TCP.AckNum newIn =
       match tcpState.localSeqNum s with
       | Some v =>
           if has_flag f header.TCPFlagAck then Some v
           else TCP.AckNum (tcpState.in_ s)
       | None => TCP.AckNum (tcpState.in_ s)
       end
    /\ (TCP.AckNum (tcpState.in_ s) = None ->
        (TCP.AckNum newIn <> None <->
         tcpState.localSeqNum s <> None /\ has_flag f header.TCPFlagAck = true)).
Proof.
  intros F. unfold tcpState.incoming. rewrite F.
  destruct (tcpState.localSeqNum s) as [v|];
    [destruct (has_flag f header.TCPFlagAck)|];
    eexists; (split; [reflexivity|]);
    destruct (tcpState.remoteSeqNum s); cbn;
    (split; [reflexivity|]); intros T; rewrite ?T;
    split; try (intros [A B]); try intro; try split; congruence.
Qed.

Lemma tcpState_incoming_ack_witness :
  exists newIn,
    tcpState.incoming Example.tcp (Some (Example.segment 500 1000 16))
    = Ok (Some (LTCP newIn))
    /\ TCP.AckNum newIn = Some 1000.
Proof.
  destruct (tcpState_incoming_ack Example.tcp
              (TCP.Build (Some 80) (Some 40000) (Some 500) (Some 1000) (Some 16))
              16 eq_refl)
    as (newIn & E & A & _).
  exists newIn. split; [exact E | exact A].
Defined.

(** C6 as stated fails: with an incoming template that fixes the ack
    number, the expectation has its ack number set although the received
    layer has no ACK flag. *)
Lemma tcpState_incoming_ack_counterexample :
  has_flag 2 header.TCPFlagAck = false
  /\ exists newIn,
       tcpState.incoming Example.tcp_ack_template (Some (Example.segment 500 0 2))
       = Ok (Some (LTCP newIn))
       /\ TCP.AckNum newIn = Some 5.
Proof.
  split; [reflexivity|]. eexists. split; reflexivity.
Qed.

(** ** [newTCPState] and [tcpState.outgoing] *)

Lemma sent_keeps_remote {codec : LayerCodec} (s s' : tcpState.t) (l : option Layer)
      (rest : Layers) :
  tcpState.sent s l rest = Ok s' ->
  tcpState.remoteSeqNum s' = tcpState.remoteSeqNum s
  /\ tcpState.out s' = tcpState.out s
  /\ (tcpState.localSeqNum s <> None -> tcpState.localSeqNum s' <> None).
Proof.
  unfold tcpState.sent. intros E.
  destruct l as [[e|i|i|tcp|u|p]|]; try discriminate E.
  assert (A : forall p,
             (if tcpState.finSent s then Ok (tcpState.localSeqNum s)
              else tcpState.advance (tcpState.localSeqNum s) (nested rest)) = Ok p ->
             tcpState.localSeqNum s <> None -> p <> None).
  { intros p. destruct (tcpState.finSent s).
    - intros [= <-]. auto.
    - destruct (tcpState.localSeqNum s) as [v|]; [|intros _ N; contradiction N; reflexivity].
      destruct (advance_congruent (nested rest) v) as (v' & Ev & _).
      rewrite Ev. intros [= <-] _. discriminate. }
  destruct (if tcpState.finSent s then Ok (tcpState.localSeqNum s)
            else tcpState.advance (tcpState.localSeqNum s) (nested rest))
    as [l1| | | |]; try discriminate E.
  specialize (A l1 eq_refl). cbn [bind] in E.
  destruct (TCP.Flags tcp) as [f|]; [|discriminate E].
  destruct (has_flag f (Z.lor header.TCPFlagSyn header.TCPFlagFin)).
  - destruct l1 as [v1|]; [|discriminate E]. cbn [tcpState.UpdateForward bind] in E.
    destruct (has_flag f header.TCPFlagFin); injection E as <-; cbn;
      repeat split; intros; discriminate.
  - cbn [bind] in E.
    destruct (has_flag f header.TCPFlagFin); injection E as <-; cbn;
      repeat split; exact A.
Qed.

Lemma sent_each_keeps_remote {codec : LayerCodec} (sends : list (option Layer * Layers)) :
  forall s s' : tcpState.t,
    sent_each s sends = Ok s' ->
    tcpState.remoteSeqNum s' = tcpState.remoteSeqNum s
    /\ tcpState.out s' = tcpState.out s
    /\ (tcpState.localSeqNum s <> None -> tcpState.localSeqNum s' <> None).
Proof.
  induction sends as [|[l rest] later IH]; intros s s' E; cbn [sent_each] in E.
  - injection E as <-. auto.
  - destruct (tcpState.sent s l rest) as [s1| | | |] eqn:E1; try discriminate E.
    cbn [bind] in E. apply sent_keeps_remote in E1. apply IH in E.
    destruct E1 as (R1 & O1 & L1), E as (R & O & L).
    repeat split; try congruence. auto.
Qed.

Lemma received_sets_remote {codec : LayerCodec} (s s' : tcpState.t) (l : option Layer)
      (rest : Layers) :
  tcpState.received s l rest = Ok s' ->
  exists v,
    tcpState.remoteSeqNum s' = Some v
    /\ tcpState.localSeqNum s' = tcpState.localSeqNum s
    /\ tcpState.out s' = tcpState.out s.
Proof.
  unfold tcpState.received. intros E.
  destruct l as [[e|i|i|tcp|u|p]|]; try discriminate E.
  destruct (TCP.SeqNum tcp) as [seq|]; [|discriminate E].
  destruct (TCP.Flags tcp) as [f|]; [|discriminate E].
  assert (A : exists v1,
             (if has_flag f (Z.lor header.TCPFlagSyn header.TCPFlagFin)
              then tcpState.UpdateForward (Some seq) 1 else Ok (Some seq)) = Ok (Some v1)).
  { destruct (has_flag f (Z.lor header.TCPFlagSyn header.TCPFlagFin)); cbn; eauto. }
  destruct A as (v1 & A). rewrite A in E. cbn [bind] in E.
  destruct (advance_congruent (nested rest) v1) as (v & Ev & _).
  rewrite Ev in E. cbn [bind] in E. injection E as <-.
  exists v. repeat split.
Qed.

(** C9, as the code has it.  A new TCP state has no remote sequence number,
    but its local sequence number is set from the start, to the random
    initial value; before any traffic the outgoing layer carries that value
    as its sequence number and, as ack number, only what the outgoing
    template has.  The remote sequence number stays unset through every run
    of sends, during which the local one stays set and the outgoing layer
    carries it, still with the ack number of the template; the first
    receive sets the remote sequence number, which the outgoing layer then
    carries as its ack number. *)
Theorem newTCPState_sequence_numbers {codec : LayerCodec} (fd localPort isn : Z)
        (out in_ : TCP.t) :
  tcpState.remoteSeqNum (tcpState.newTCPState fd localPort isn out in_) = None
  /\ tcpState.localSeqNum (tcpState.newTCPState fd localPort isn out in_) = Some isn
  /\ (exists tcp,
         tcpState.outgoing (tcpState.newTCPState fd localPort isn out in_) = LTCP tcp
         /\ TCP.SeqNum tcp = Some isn
         /\ TCP.AckNum tcp = TCP.AckNum out)
  /\ (forall sends s,
         sent_each (tcpState.newTCPState fd localPort isn out in_) sends = Ok s ->
         tcpState.remoteSeqNum s = None
         /\ exists v tcp,
              tcpState.localSeqNum s = Some v
              /\ tcpState.outgoing s = LTCP tcp
              /\ TCP.SeqNum tcp = Some v
              /\ TCP.AckNum tcp = TCP.AckNum out)
  /\ (forall sends s l rest s',
         sent_each (tcpState.newTCPState fd localPort isn out in_) sends = Ok s ->
         tcpState.received s l rest = Ok s' ->
         exists v tcp,
           tcpState.remoteSeqNum s' = Some v
           /\ tcpState.localSeqNum s' = tcpState.localSeqNum s
           /\ tcpState.outgoing s' = LTCP tcp
           /\ TCP.AckNum tcp = Some v).
Proof.
  assert (T : TCP.AckNum (tcpState.out (tcpState.newTCPState fd localPort isn out in_))
              = TCP.AckNum out).
  { cbn. destruct (TCP.AckNum out); reflexivity. }
  split; [reflexivity|]. split; [reflexivity|]. split; [|split].
  - eexists. split; [reflexivity|]. split; [reflexivity|]. exact T.
  - intros sends s E. apply sent_each_keeps_remote in E.
    destruct E as (R & O & L). cbn [tcpState.newTCPState tcpState.remoteSeqNum] in R.
    split; [exact R|].
    destruct (tcpState.localSeqNum s) as [v|] eqn:EL;
      [|exfalso; apply L; [discriminate | reflexivity]].
    exists v. unfold tcpState.outgoing. rewrite EL, R. eexists.
    split; [reflexivity|]. split; [reflexivity|]. split; [reflexivity|].
    cbn [TCP.AckNum]. rewrite O. exact T.
  - intros sends s l rest s' _ E. apply received_sets_remote in E.
    destruct E as (v & R & L & O). exists v. unfold tcpState.outgoing. rewrite R.
    eexists. split; [reflexivity|]. split; [exact L|]. split; reflexivity.
Qed.

(** A SYN is sent and a SYN-ACK with sequence number 500 is received: the
    remote sequence number is unset after the send and set by the receive. *)
Lemma newTCPState_sequence_numbers_witness :
  (exists s,
      sent_each (codec := Wire.codec) Example.tcp
        [(Some (LTCP (TCP.with_flags header.TCPFlagSyn)), [])] = Ok s
      /\ tcpState.remoteSeqNum s = None
      /\ tcpState.localSeqNum s = Some 1001)
  /\ exists s s' v tcp,
       sent_each (codec := Wire.codec) Example.tcp
         [(Some (LTCP (TCP.with_flags header.TCPFlagSyn)), [])] = Ok s
       /\ tcpState.received (codec := Wire.codec) s
            (Some (Example.segment 500 1001 18)) [] = Ok s'
       /\ tcpState.remoteSeqNum s' = Some v
       /\ tcpState.outgoing s' = LTCP tcp
       /\ TCP.AckNum tcp = Some v.
Proof.
  destruct (newTCPState_sequence_numbers (codec := Wire.codec) 3 40000 1000
              (TCP.Build None (Some 80) None None None)
              (TCP.Build (Some 80) None None None None))
    as (_ & _ & _ & Sends & Receive).
  split.
  - eexists. split; [reflexivity|].
    split; [|reflexivity].
    apply (Sends [(Some (LTCP (TCP.with_flags header.TCPFlagSyn)), [])]).
    reflexivity.
  - destruct (Receive [(Some (LTCP (TCP.with_flags header.TCPFlagSyn)), [])]
                _ (Some (Example.segment 500 1001 18)) [] _ eq_refl eq_refl)
      as (v & tcp & R & _ & O & A).
    do 2 eexists. exists v, tcp.
    split; [reflexivity|]. split; [reflexivity|]. auto.
Defined.

(** C9 as stated fails: the local sequence number of a new state is set, and
    the first outgoing layer carries it. *)
Lemma newTCPState_localSeqNum_counterexample :
  ~ (tcpState.localSeqNum Example.tcp = None
     /\ tcpState.remoteSeqNum Example.tcp = None)
  /\ exists tcp,
       tcpState.outgoing Example.tcp = LTCP tcp /\ TCP.SeqNum tcp = Some 1000.
Proof.
  split.
  - intros [L _]. discriminate L.
  - eexists. split; reflexivity.
Qed.

(** ** Totality of [tcpState.sent] *)

Lemma sent_some_flags {codec : LayerCodec} (s : tcpState.t) (tcp : TCP.t) (rest : Layers)
      (v f : Z) :
  tcpState.localSeqNum s = Some v ->
  TCP.Flags tcp = Some f ->
  exists s' v',
    tcpState.sent s (Some (LTCP tcp)) rest = Ok s'
    /\ tcpState.localSeqNum s' = Some v'
    /\ v' mod seqnum.modulus
       = (v + (if tcpState.finSent s then 0 else total_length (nested rest))
            + (if has_flag f SynFin then 1 else 0)) mod seqnum.modulus
    /\ (has_flag f SynFin = true -> 0 <= v' < seqnum.modulus)
    /\ tcpState.out s' = tcpState.out s
    /\ tcpState.in_ s' = tcpState.in_ s
    /\ tcpState.remoteSeqNum s' = tcpState.remoteSeqNum s
    /\ tcpState.synAck s' = tcpState.synAck s.
Proof.
  intros L F. unfold tcpState.sent. rewrite F, L. fold SynFin.
  assert (A : exists v1,
             (if tcpState.finSent s then Ok (Some v)
              else tcpState.advance (Some v) (nested rest)) = Ok (Some v1)
             /\ v1 mod seqnum.modulus
                = (v + (if tcpState.finSent s then 0
                        else total_length (nested rest))) mod seqnum.modulus).
  { destruct (tcpState.finSent s).
    - exists v. rewrite Z.add_0_r. auto.
    - destruct (advance_congruent (nested rest) v) as (v1 & E & M & _). eauto. }
  destruct A as (v1 & E & M). change seqnum.modulus with 4294967296 in M.
  destruct (tcpState.finSent s);
    rewrite E; rewrite ?Z.add_0_r in M; cbn [bind];
    destruct (has_flag f SynFin); cbn [bind tcpState.UpdateForward];
    destruct (has_flag f header.TCPFlagFin);
    do 2 eexists; (split; [reflexivity|]); cbn;
    (split; [reflexivity|]);
    unfold seqnum.UpdateForward;
    repeat split; try discriminate; try (apply Z.mod_pos_bound; reflexivity);
    rewrite ?Z.mod_mod, ?Z.add_0_r by discriminate;
    try (rewrite <- Zplus_mod_idemp_l, M, Zplus_mod_idemp_l; reflexivity);
    try exact M; try reflexivity.
Qed.

Lemma sent_unset_flags {codec : LayerCodec} (s : tcpState.t) (tcp : TCP.t) (rest : Layers) :
  TCP.Flags tcp = None ->
  tcpState.sent s (Some (LTCP tcp)) rest = Panic.
Proof.
  intros F. unfold tcpState.sent. rewrite F.
  destruct (tcpState.finSent s); cbn [bind]; [reflexivity|].
  destruct (tcpState.localSeqNum s) as [v|].
  - destruct (advance_congruent (nested rest) v) as (v' & E & _).
    rewrite E. reflexivity.
  - destruct (nested rest); reflexivity.
Qed.

Lemma sentAll_no_panic {codec : LayerCodec} (states : list layerState) (frame : Layers) :
  forallb local_known states = true ->
  forallb parsed_layer frame = true ->
  (List.length states <= List.length frame)%nat ->
  sentAll states frame <> Panic.
Proof.
  revert frame. induction states as [|s states IH]; intros frame K P Len.
  - discriminate.
  - destruct frame as [|l rest]; [simpl in Len; lia|].
    simpl in K, P, Len. apply andb_true_iff in K as [K1 K2].
    apply andb_true_iff in P as [P1 P2].
    specialize (IH rest K2 P2 ltac:(lia)).
    cbn [sentAll].
    assert (S1 : (exists s', layerState_.sent s l rest = Ok s')
                 \/ exists e, layerState_.sent s l rest = Err e).
    { destruct s as [e|i|i|t|u]; cbn [layerState_.sent]; eauto.
      destruct l as [[e|i|i|tcp|u|p]|]; try discriminate P1;
        try (right; eexists; reflexivity).
      cbn in K1, P1.
      destruct (tcpState.localSeqNum t) as [v|] eqn:L; [|discriminate].
      destruct (TCP.SeqNum tcp); [|discriminate].
      destruct (TCP.Flags tcp) as [f|] eqn:F; [|discriminate].
      destruct (sent_some_flags t tcp rest v f L F) as (s' & v' & E & _).
      left. rewrite E. eexists. reflexivity. }
    destruct S1 as [(s' & E)|(e & E)]; rewrite E; cbn [fatal_on_error bind];
      [|discriminate].
    destruct (sentAll states rest); cbn [bind]; try discriminate. contradiction.
Qed.

(** The parser of the reference codec reads every field of a header from
    the bytes, so that no layer it delivers has a field unset, whatever the
    bytes are. *)
Lemma Wire_parse_fields_set (b : bytes) :
  forallb parsed_layer (parse (LayerCodec := Wire.codec) b) = true.
Proof.
  cbn [parse Wire.codec]. unfold Wire.parseEther.
  destruct (List.length b <? 14)%nat; [reflexivity|].
  cbn [forallb parsed_layer andb].
  destruct ((nth 12 b 0 =? 8) && (nth 13 b 0 =? 0))%bool; [|reflexivity].
  unfold Wire.parseIPv4.
  destruct (List.length (skipn 14 b) <? 20)%nat; [reflexivity|].
  cbn [forallb parsed_layer andb].
  destruct (nth 9 (skipn 14 b) 0 =? 6); [|reflexivity].
  unfold Wire.parseTCP.
  destruct (List.length (skipn 20 (skipn 14 b)) <? 20)%nat; reflexivity.
Qed.



(** ** [Connection.incoming] and [Connection.match] *)

Lemma incoming_loop_prefix (states : list layerState) (received extra : Layers) :
  (List.length states <= List.length received)%nat ->
  incoming_loop states (received ++ extra) = incoming_loop states received.
Proof.
  revert received. induction states as [|s states IH]; intros received Len.
  - reflexivity.
  - destruct received as [|r received]; [simpl in Len; lia|].
    simpl in Len. cbn [incoming_loop app].
    rewrite IH by lia. reflexivity.
Qed.

Lemma Layers_match_app (expected actual extra : Layers) :
  Layers_match expected actual = true ->
  Layers_match expected (actual ++ extra) = true.
Proof.
  revert actual. induction expected as [|e expected IH]; intros actual M.
  - reflexivity.
  - destruct actual as [|a actual]; [discriminate M|].
    cbn [Layers_match app] in *.
    apply andb_true_iff in M as [M1 M2].
    rewrite M1, (IH _ M2). reflexivity.
Qed.

Lemma incoming_app (conn : Connection) (received extra : Layers) :
  (List.length (layerStates conn) <= List.length received)%nat ->
  incoming conn (received ++ extra) = incoming conn received.
Proof.
  intros Len. unfold incoming. rewrite length_app.
  replace (List.length received + List.length extra <? List.length (layerStates conn))%nat
    with false by (symmetry; apply Nat.ltb_ge; lia).
  replace (List.length received <? List.length (layerStates conn))%nat
    with false by (symmetry; apply Nat.ltb_ge; lia).
  apply incoming_loop_prefix. exact Len.
Qed.

Lemma match_true_length (conn : Connection) (override received : Layers) :
  match_ conn override received = Ok true ->
  (List.length (layerStates conn) <= List.length received)%nat.
Proof.
  unfold match_, incoming. intros M.
  destruct (List.length received <? List.length (layerStates conn))%nat eqn:L.
  - discriminate M.
  - apply Nat.ltb_ge. exact L.
Qed.

Lemma match_app (conn : Connection) (override received extra : Layers) :
  match_ conn override received = Ok true ->
  match_ conn override (received ++ extra) = Ok true.
Proof.
  intros M. pose proof (match_true_length _ _ _ M) as Len.
  unfold match_ in *. rewrite incoming_app by exact Len.
  destruct (incoming conn received) as [[toMatch|]| | | |]; try discriminate M.
  cbn [bind] in *.
  destruct (Layers_merge toMatch override) as [merged [|n]]; [|discriminate M].
  injection M as M. rewrite (Layers_match_app _ _ extra M). reflexivity.
Qed.

(** C2.  A received frame with fewer layers than the connection has layer
    states gives no expectation and no match, whatever its fields are.  A
    frame with at least as many layers is not turned away for its length:
    layers added after it change neither the expectation nor a match. *)
Theorem incoming_length_rule (conn : Connection) (override received : Layers) :
  ((List.length received < List.length (layerStates conn))%nat ->
   incoming conn received = Ok None
   /\ match_ conn override received = Ok false)
  /\ ((List.length (layerStates conn) <= List.length received)%nat ->
      forall extra,
        incoming conn (received ++ extra) = incoming conn received
        /\ (match_ conn override received = Ok true ->
            match_ conn override (received ++ extra) = Ok true)).
Proof.
  split.
  - intros Len. unfold match_, incoming.
    apply Nat.ltb_lt in Len. rewrite Len. split; reflexivity.
  - intros Len extra. split.
    + apply incoming_app. exact Len.
    + apply match_app.
Qed.

Lemma incoming_length_rule_witness :
  (incoming Example.conn [Some (Example.segment 500 1000 16)] = Ok None
   /\ match_ Example.conn (Example.expect_flags 16)
        [Some (Example.segment 500 1000 16)] = Ok false)
  /\ match_ Example.conn (Example.expect_flags 16)
       (Example.remote_frame (Example.segment 500 1000 16)
          ++ [Some (Example.payload [1; 2; 3])]) = Ok true.
Proof.
  split.
  - apply (incoming_length_rule Example.conn (Example.expect_flags 16)
             [Some (Example.segment 500 1000 16)]).
    vm_compute. lia.
  - apply (incoming_length_rule Example.conn (Example.expect_flags 16)
             (Example.remote_frame (Example.segment 500 1000 16))).
    + vm_compute. lia.
    + vm_compute. reflexivity.
Defined.

Lemma mergeLayer_type_mismatch (base override : Layer) :
  same_type base override = false ->
  mergeLayer base (Some override) = Err CantMerge.
Proof.
  destruct base, override; cbn; intros T; try discriminate T; reflexivity.
Qed.

Lemma Layers_merge_type_mismatch (base override : Layers) (i : nat) (e o : Layer) :
  nth_error base i = Some (Some e) ->
  nth_error override i = Some (Some o) ->
  same_type e o = false ->
  snd (Layers_merge base override) <> O.
Proof.
  revert base override. induction i as [|i IH]; intros base override B V T.
  - destruct base as [|b base]; [discriminate B|].
    destruct override as [|o' override]; [discriminate V|].
    cbn in B, V. injection B as ->. injection V as ->.
    cbn [Layers_merge]. destruct (Layers_merge base override) as [rest errs].
    rewrite (mergeLayer_type_mismatch _ _ T). cbn. discriminate.
  - destruct base as [|b base]; [discriminate B|].
    destruct override as [|o' override]; [discriminate V|].
    cbn in B, V. specialize (IH _ _ B V T).
    cbn [Layers_merge]. destruct (Layers_merge base override) as [rest errs].
    cbn in IH. destruct b as [bl|]; [|exact IH].
    destruct (mergeLayer bl o'); cbn; try discriminate. exact IH.
Qed.

Lemma merge_innermost_mismatch (front : list Layer) (l : Layer) (layer : Layer) :
  same_type l layer = false ->
  merge_innermost (front ++ [l]) (Some layer) = Err CantMerge.
Proof.
  intros T. induction front as [|x front IH].
  - cbn [app merge_innermost]. rewrite (mergeLayer_type_mismatch _ _ T). reflexivity.
  - cbn [app merge_innermost]. destruct (front ++ [l]) eqn:E.
    + destruct front; discriminate E.
    + rewrite IH. reflexivity.
Qed.

(** C3.  When the override cannot be merged into the expected frame, as
    when some position of the override holds a layer of another type than
    the expectation, [Connection.match] returns false: a return, neither an
    error nor an abort.  In [CreateFrame] a layer of another type than the
    innermost outgoing layer aborts the test. *)
Theorem match_merge_failure (conn : Connection) (override received toMatch : Layers) :
  incoming conn received = Ok (Some toMatch) ->
  (snd (Layers_merge toMatch override) <> O ->
   match_ conn override received = Ok false)
  /\ (forall i e o,
         nth_error toMatch i = Some (Some e) ->
         nth_error override i = Some (Some o) ->
         same_type e o = false ->
         match_ conn override received = Ok false)
  /\ (forall states s layer additionalLayers,
         same_type (layerState_.outgoing s) layer = false ->
         CreateFrame (BuildConnection (states ++ [s])) (Some layer) additionalLayers
         = Fatal CantMerge).
Proof.
  intros I.
  assert (A : snd (Layers_merge toMatch override) <> O ->
              match_ conn override received = Ok false).
  { intros N. unfold match_. rewrite I. cbn [bind].
    destruct (Layers_merge toMatch override) as [merged [|n]]; cbn in N;
      [contradiction|reflexivity]. }
  split; [exact A|]. split.
  - intros i e o B V T. apply A.
    eapply Layers_merge_type_mismatch; eassumption.
  - intros states s layer additionalLayers T. unfold CreateFrame.
    cbn [layerStates]. rewrite map_app. cbn [map].
    rewrite (merge_innermost_mismatch _ _ _ T). reflexivity.
Qed.

Lemma match_merge_failure_witness :
  match_ Example.conn
    [None; None; Some (LUDP UDP.empty)]
    (Example.remote_frame (Example.segment 500 1000 16)) = Ok false
  /\ CreateFrame Example.conn (Some (LUDP UDP.empty)) [] = Fatal CantMerge.
Proof.
  destruct (match_merge_failure Example.conn
              [None; None; Some (LUDP UDP.empty)]
              (Example.remote_frame (Example.segment 500 1000 16))
              [Some (LEther (etherState.in_ Example.ether));
               Some (LIPv4 (ipv4State.in_ Example.ipv4));
               Some (LTCP (TCP.Build (Some 80) (Some 40000) None (Some 1000) None))]
              eq_refl)
    as (A & _ & C).
  split.
  - apply A. vm_compute. discriminate.
  - apply (C [EtherSt Example.ether; IPv4St Example.ipv4] (TCPSt Example.tcp)).
    reflexivity.
Defined.

(** ** [Connection.ExpectFrame] *)

Lemma sniffer_Recv_cons (timeout : Z) (w : World) (r : option bytes)
      (later : list (option bytes)) :
  captured w = r :: later ->
  fst (sniffer_Recv timeout w) = r
  /\ captured (snd (sniffer_Recv timeout w)) = later.
Proof.
  intros C. unfold sniffer_Recv. rewrite C. split; reflexivity.
Qed.

Lemma sniffer_Recv_nil (timeout : Z) (w : World) :
  captured w = [] -> fst (sniffer_Recv timeout w) = None.
Proof.
  intros C. unfold sniffer_Recv. rewrite C. reflexivity.
Qed.

Lemma recvFrame_polls {codec : LayerCodec} (timeout : Z) (w : World) :
  (timeout >? 0) = true ->
  recvFrame timeout w
  = (option_map parse (fst (sniffer_Recv timeout w)), snd (sniffer_Recv timeout w)).
Proof.
  intros T. unfold recvFrame.
  replace (timeout <=? 0) with false by (symmetry; apply Z.leb_gt; lia).
  destruct (sniffer_Recv timeout w) as [[b|] w']; reflexivity.
Qed.

Lemma match_false_incoming (conn : Connection) (layers gotLayers : Layers) :
  match_ conn layers gotLayers = Ok false ->
  exists want, incoming conn gotLayers = Ok want.
Proof.
  unfold match_. destruct (incoming conn gotLayers); try discriminate. eauto.
Qed.

(** One round of the loop on a frame that does not match. *)
Lemma ExpectFrame_loop_skip {codec : LayerCodec} (fuel : nat) (conn : Connection)
      (layers : Layers) (deadline : Z) (errs : list layersError) (w : World)
      (b : bytes) (later : list (option bytes)) :
  captured w = Some b :: later ->
  (fst (time_Until deadline w) >? 0) = true ->
  match_ conn layers (parse b) = Ok false ->
  ExpectFrame_loop (S fuel) conn layers deadline errs w
  = ExpectFrame_loop fuel conn layers deadline (errs ++ [diff_of conn b])
      (after_polls deadline 1 w).
Proof.
  intros C T M. cbn [ExpectFrame_loop after_polls].
  destruct (time_Until deadline w) as [timeout w1] eqn:TU.
  cbn [fst] in T. rewrite T, (recvFrame_polls _ _ T).
  assert (C1 : captured w1 = Some b :: later).
  { replace w1 with (snd (time_Until deadline w)) by (rewrite TU; reflexivity).
    exact C. }
  destruct (sniffer_Recv_cons timeout w1 _ _ C1) as [R _]. rewrite R.
  cbn [option_map]. rewrite M. cbn [bind].
  unfold diff_of. destruct (match_false_incoming _ _ _ M) as [want I].
  rewrite I. reflexivity.
Qed.

Lemma ExpectFrame_loop_skips {codec : LayerCodec} (skipped : list bytes) :
  forall (fuel : nat) (conn : Connection) (layers : Layers) (deadline : Z)
         (errs : list layersError) (w : World) (rest : list (option bytes)),
    Forall (fun b => match_ conn layers (parse b) = Ok false) skipped ->
    captured w = map Some skipped ++ rest ->
    in_time deadline (List.length skipped) w = true ->
    ExpectFrame_loop (List.length skipped + fuel) conn layers deadline errs w
    = ExpectFrame_loop fuel conn layers deadline (errs ++ map (diff_of conn) skipped)
        (after_polls deadline (List.length skipped) w)
    /\ captured (after_polls deadline (List.length skipped) w) = rest.
Proof.
  induction skipped as [|b skipped IH]; intros fuel conn layers deadline errs w rest N C T.
  - cbn. rewrite app_nil_r. split; [reflexivity | exact C].
  - inversion N as [|? ? Nb Ns]; subst.
    cbn [List.length in_time map app] in *.
    destruct (time_Until deadline w) as [timeout w1] eqn:TU.
    apply andb_true_iff in T as [T1 T2].
    assert (C1 : captured w1 = Some b :: map Some skipped ++ rest).
    { replace w1 with (snd (time_Until deadline w)) by (rewrite TU; reflexivity).
      exact C. }
    destruct (sniffer_Recv_cons timeout w1 _ _ C1) as [_ C2].
    cbn [Nat.add].
    rewrite (ExpectFrame_loop_skip _ conn layers deadline errs w b _ C)
      by (rewrite ?TU; assumption).
    cbn [after_polls]. rewrite TU.
    destruct (IH fuel conn layers deadline (errs ++ [diff_of conn b])
                 (snd (sniffer_Recv timeout w1)) rest Ns C2 T2) as [E R].
    rewrite E, <- app_assoc. split; [reflexivity | exact R].
Qed.

(** The last round: the deadline has passed, or the sniffer has nothing. *)
Lemma ExpectFrame_loop_deadline {codec : LayerCodec} (fuel : nat) (conn : Connection)
      (layers : Layers) (deadline : Z) (errs : list layersError) (w : World) :
  fst (time_Until deadline w) <= 0
  \/ captured w = []
  \/ (exists later, captured w = None :: later) ->
  exists w',
    ExpectFrame_loop (S fuel) conn layers deadline errs w
    = Ok (inr (BuildExpectError layers (fst (time_Until deadline w)) errs), conn, w')
    /\ (fst (time_Until deadline w) <= 0 ->
        recvLog w' = recvLog w /\ captured w' = captured w).
Proof.
  intros D. cbn [ExpectFrame_loop].
  destruct (time_Until deadline w) as [timeout w1] eqn:TU. cbn [fst] in *.
  assert (K : captured w1 = captured w /\ recvLog w1 = recvLog w).
  { replace w1 with (snd (time_Until deadline w)) by (rewrite TU; reflexivity).
    split; reflexivity. }
  destruct K as [KC KL].
  destruct (timeout >? 0) eqn:T.
  - rewrite (recvFrame_polls _ _ T).
    assert (R : fst (sniffer_Recv timeout w1) = None).
    { destruct D as [D|[D|[later D]]].
      - apply Z.gtb_lt in T. lia.
      - apply sniffer_Recv_nil. congruence.
      - eapply sniffer_Recv_cons. rewrite KC. exact D. }
    rewrite R. cbn [option_map]. eexists. split; [reflexivity|].
    intros L. apply Z.gtb_lt in T. lia.
  - eexists. split; [reflexivity|]. intros _. split; assumption.
Qed.

(** The state updates after a match: one call of [received] per layer
    state, on the layer of the same index. *)
Lemma receivedAll_pointwise {codec : LayerCodec} (states states' : list layerState)
      (gotLayers : Layers) :
  receivedAll states gotLayers = Ok states' ->
  List.length states' = List.length states
  /\ forall i s,
       nth_error states i = Some s ->
       exists s',
         nth_error states' i = Some s'
         /\ layerState_.received s (nth i gotLayers None) (skipn (S i) gotLayers) = Ok s'.
Proof.
  revert states' gotLayers.
  induction states as [|s0 states IH]; intros states' gotLayers R.
  - cbn in R. injection R as <-. split; [reflexivity|].
    intros [|i] s E; discriminate E.
  - destruct gotLayers as [|l rest]; [discriminate R|].
    cbn [receivedAll] in R.
    destruct (layerState_.received s0 l rest) as [s0'| | | |] eqn:R0;
      try discriminate R.
    cbn [fatal_on_error bind] in R.
    destruct (receivedAll states rest) as [tl| | | |] eqn:R1; try discriminate R.
    cbn [bind] in R. injection R as <-.
    destruct (IH _ _ R1) as [Len P]. split; [cbn; congruence|].
    intros [|i] s E; cbn in E.
    + injection E as <-. exists s0'. split; [reflexivity | exact R0].
    + destruct (P i s E) as (s' & E' & R'). exists s'. split; assumption.
Qed.

(** C8.  Called with a timeout that is zero or negative, [ExpectFrame]
    returns the timeout error, with nothing accumulated, and leaves the
    connection as it was; the sniffer is not polled. *)
Theorem ExpectFrame_no_time {codec : LayerCodec} (conn : Connection) (layers : Layers)
        (timeout : Z) (w : World) :
  timeout <= 0 ->
  exists remaining w',
    ExpectFrame conn layers timeout w
    = Ok (inr (BuildExpectError layers remaining []), conn, w')
    /\ remaining <= 0
    /\ recvLog w' = recvLog w
    /\ captured w' = captured w.
Proof.
  intros T. unfold ExpectFrame.
  destruct (time_Now w) as [t w0] eqn:TN.
  assert (K : captured w0 = captured w /\ recvLog w0 = recvLog w
              /\ fst (time_Until (t + timeout) w0) <= 0).
  { unfold time_Now in TN. injection TN as <- <-. cbn. repeat split. lia. }
  destruct K as (KC & KL & D).
  destruct (ExpectFrame_loop_deadline (List.length (captured w0)) conn layers
              (t + timeout) [] w0 (or_introl D)) as (w' & E & Keep).
  destruct (Keep D) as [L C].
  exists (fst (time_Until (t + timeout) w0)), w'.
  split; [exact E|]. repeat split; congruence.
Qed.

Lemma ExpectFrame_no_time_witness :
  exists remaining w',
    ExpectFrame (codec := Wire.codec) Example.conn (Example.expect_flags 16) 0
      (BuildWorld 0 (fun _ => 5%N) 0 [Some [1; 2; 3]] [] [])
    = Ok (inr (BuildExpectError (Example.expect_flags 16) remaining []),
          Example.conn, w')
    /\ remaining <= 0
    /\ recvLog w' = []
    /\ captured w' = [Some [1; 2; 3]].
Proof.
  apply (ExpectFrame_no_time (codec := Wire.codec) Example.conn
           (Example.expect_flags 16) 0
           (BuildWorld 0 (fun _ => 5%N) 0 [Some [1; 2; 3]] [] [])).
  lia.
Defined.

(** One round of the loop on a frame that matches. *)
Lemma ExpectFrame_loop_match {codec : LayerCodec} (fuel : nat) (conn : Connection)
      (layers : Layers) (deadline : Z) (errs : list layersError) (w : World)
      (b : bytes) (later : list (option bytes)) :
  captured w = Some b :: later ->
  fst (time_Until deadline w) > 0 ->
  match_ conn layers (parse b) = Ok true ->
  ExpectFrame_loop (S fuel) conn layers deadline errs w
  = (states <- receivedAll (layerStates conn) (parse b) ;;
     Ok (inl (parse b), BuildConnection states, after_polls deadline 1 w)).
Proof.
  intros C T M. cbn [ExpectFrame_loop after_polls].
  destruct (time_Until deadline w) as [timeout w1] eqn:TU.
  cbn [fst] in T. apply Z.gt_lt, Z.gtb_lt in T.
  rewrite T, (recvFrame_polls _ _ T).
  assert (C1 : captured w1 = Some b :: later).
  { replace w1 with (snd (time_Until deadline w)) by (rewrite TU; reflexivity).
    exact C. }
  destruct (sniffer_Recv_cons timeout w1 _ _ C1) as [R _]. rewrite R.
  cbn [option_map]. rewrite M. reflexivity.
Qed.

Lemma after_polls_S (deadline : Z) (n : nat) (w : World) :
  after_polls deadline (S n) w
  = after_polls deadline 1 (after_polls deadline n w).
Proof.
  revert w. induction n as [|n IH]; intros w; [reflexivity|].
  change (after_polls deadline (S (S n)) w)
    with (let (timeout, w1) := time_Until deadline w in
          after_polls deadline (S n) (snd (sniffer_Recv timeout w1))).
  change (after_polls deadline (S n) w)
    with (let (timeout, w1) := time_Until deadline w in
          after_polls deadline n (snd (sniffer_Recv timeout w1))).
  destruct (time_Until deadline w) as [timeout w1]. apply IH.
Qed.

(** C4.  Let [ExpectFrame] meet captured frames that do not match while the
    deadline is ahead.  Each of them is recorded, with what was expected for
    it, and the loop goes on.  If the deadline then passes, or the sniffer
    has nothing more, the error that is returned holds the records of all
    of them, in order, and the connection is as it was.  If the next frame
    matches, [received] is called on every layer state with the layer of
    the same index and the frame is returned without an error. *)
Theorem ExpectFrame_accumulates {codec : LayerCodec} (conn : Connection)
        (layers : Layers) (timeout : Z) (w : World) (skipped : list bytes) :
  Forall (fun b => match_ conn layers (parse b) = Ok false) skipped ->
  in_time (fst (time_Now w) + timeout) (List.length skipped) (snd (time_Now w)) = true ->
  (forall rest,
      captured w = map Some skipped ++ rest ->
      fst (time_Until (fst (time_Now w) + timeout)
             (after_polls (fst (time_Now w) + timeout) (List.length skipped)
                (snd (time_Now w)))) <= 0
      \/ rest = []
      \/ (exists later, rest = None :: later) ->
      exists remaining w',
        ExpectFrame conn layers timeout w
        = Ok (inr (BuildExpectError layers remaining (map (diff_of conn) skipped)),
              conn, w'))
  /\ (forall b later,
         captured w = map Some skipped ++ Some b :: later ->
         fst (time_Until (fst (time_Now w) + timeout)
                (after_polls (fst (time_Now w) + timeout) (List.length skipped)
                   (snd (time_Now w)))) > 0 ->
         match_ conn layers (parse b) = Ok true ->
         ExpectFrame conn layers timeout w
         = (states <- receivedAll (layerStates conn) (parse b) ;;
            Ok (inl (parse b), BuildConnection states,
                after_polls (fst (time_Now w) + timeout) (S (List.length skipped))
                  (snd (time_Now w))))
         /\ forall states,
             receivedAll (layerStates conn) (parse b) = Ok states ->
             List.length states = List.length (layerStates conn)
             /\ forall i s,
                 nth_error (layerStates conn) i = Some s ->
                 exists s',
                   nth_error states i = Some s'
                   /\ layerState_.received s (nth i (parse b) None)
                        (skipn (S i) (parse b)) = Ok s').
Proof.
  intros N T. unfold ExpectFrame.
  destruct (time_Now w) as [t w0] eqn:TN. cbn [fst snd] in *.
  assert (KC : captured w0 = captured w).
  { unfold time_Now in TN. injection TN as <- <-. reflexivity. }
  split.
  - intros rest C D. rewrite <- KC in C.
    destruct (ExpectFrame_loop_skips skipped (S (List.length rest)) conn layers
                (t + timeout) [] w0 rest N C T) as [E R].
    rewrite C, length_app, length_map, <- Nat.add_succ_r, E.
    destruct (ExpectFrame_loop_deadline (List.length rest) conn layers (t + timeout)
                ([] ++ map (diff_of conn) skipped)
                (after_polls (t + timeout) (List.length skipped) w0)) as (w' & E' & _).
    { rewrite R. exact D. }
    rewrite E'. eauto.
  - intros b later C D M. rewrite <- KC in C.
    destruct (ExpectFrame_loop_skips skipped (S (List.length (Some b :: later)))
                conn layers (t + timeout) [] w0 _ N C T) as [E R].
    split.
    + rewrite C, length_app, length_map, <- Nat.add_succ_r, E.
      rewrite (ExpectFrame_loop_match _ conn layers (t + timeout) _ _ b later R D M).
      rewrite (after_polls_S _ (List.length skipped)). reflexivity.
    + intros states. apply receivedAll_pointwise.
Qed.

Lemma ExpectFrame_accumulates_witness :
  (exists remaining w',
      ExpectFrame (codec := Wire.codec) Example.conn (Example.expect_flags 18) 1000
        (Example.world
           [Some (Example.wire (Example.remote_frame (Example.segment 500 1000 16)))])
      = Ok (inr (BuildExpectError (Example.expect_flags 18) remaining
                   [diff_of (codec := Wire.codec) Example.conn
                      (Example.wire (Example.remote_frame (Example.segment 500 1000 16)))]),
            Example.conn, w'))
  /\ exists states w',
      ExpectFrame (codec := Wire.codec) Example.conn (Example.expect_flags 18) 1000
        (Example.world
           [Some (Example.wire (Example.remote_frame (Example.segment 500 1000 16)));
            Some (Example.wire (Example.remote_frame (Example.segment 500 1000 18)))])
      = Ok (inl (Wire.parseEther
                   (Example.wire (Example.remote_frame (Example.segment 500 1000 18)))),
            BuildConnection states, w')
      /\ nth_error states 2
         = Some (TCPSt (tcpState.set_remoteSeqNum Example.tcp (Some 501))).
Proof.
  split.
  - destruct (ExpectFrame_accumulates (codec := Wire.codec) Example.conn
                (Example.expect_flags 18) 1000
                (Example.world
                   [Some (Example.wire
                            (Example.remote_frame (Example.segment 500 1000 16)))])
                [Example.wire (Example.remote_frame (Example.segment 500 1000 16))])
      as [A _].
    + repeat constructor.
    + vm_compute. reflexivity.
    + apply (A []); [reflexivity|]. right. left. reflexivity.
  - destruct (ExpectFrame_accumulates (codec := Wire.codec) Example.conn
                (Example.expect_flags 18) 1000
                (Example.world
                   [Some (Example.wire
                            (Example.remote_frame (Example.segment 500 1000 16)));
                    Some (Example.wire
                            (Example.remote_frame (Example.segment 500 1000 18)))])
                [Example.wire (Example.remote_frame (Example.segment 500 1000 16))])
      as [_ B].
    + repeat constructor.
    + vm_compute. reflexivity.
    + destruct (B (Example.wire (Example.remote_frame (Example.segment 500 1000 18))) [])
        as [E _].
      * reflexivity.
      * vm_compute. reflexivity.
      * vm_compute. reflexivity.
      * rewrite E. eexists. eexists. split; vm_compute; reflexivity.
Defined.

(** ** The handshake *)

Lemma Wire_sends_as_built : sends_as_built Wire.codec.
Proof.
  intros e i tcp f outBytes F R B.
  cbn in B. injection B as <-.
  do 4 eexists. split; [|split].
  - cbn. reflexivity.
  - cbn. rewrite F. cbn. f_equal. apply Z.mod_small. exact R.
  - reflexivity.
Qed.

Lemma TCPIPv4_Send_flags {codec : LayerCodec} (e : etherState.t) (i : ipv4State.t)
      (ts : tcpState.t) (f x : Z) (w w' : World) (conn' : Connection) :
  sends_as_built codec ->
  tcpState.localSeqNum ts = Some x ->
  0 <= x < seqnum.modulus ->
  0 <= f < 256 ->
  TCPIPv4_Send (NewTCPIPv4 e i ts) (TCP.with_flags f) [] w = Ok (conn', w') ->
  conn' = NewTCPIPv4 e i
            (tcpState.Build
               (tcpState.out ts) (tcpState.in_ ts)
               (Some ((x + (if has_flag f SynFin then 1 else 0)) mod seqnum.modulus))
               (tcpState.remoteSeqNum ts) (tcpState.synAck ts)
               (tcpState.portPickerFD ts)
               (tcpState.finSent ts || has_flag f header.TCPFlagFin))
  /\ captured w' = captured w.
Proof.
  intros Law L R Rf S.
  unfold TCPIPv4_Send, Send, CreateFrame, NewTCPIPv4 in S.
  cbn [layerStates map layerState_.outgoing merge_innermost] in S.
  unfold tcpState.outgoing in S.
  cbn [mergeLayer bind fatal_on_error app map] in S.
  unfold SendFrame in S.
  match type of S with
  | context [ToBytes ?fr] => destruct (ToBytes fr) as [outBytes|] eqn:B
  end; [|discriminate S].
  apply (Law _ _ _ f) in B; [|reflexivity|exact Rf].
  destruct B as (l0 & l1 & tcp' & rest & P & F & T).
  rewrite P in S.
  cbn [layerStates sentAll layerState_.sent bind fatal_on_error] in S.
  rewrite (sent_closed_form ts tcp' rest x f L R F) in S.
  cbn [bind fatal_on_error] in S. injection S as <- <-.
  split; [|reflexivity].
  rewrite T. destruct (tcpState.finSent ts); rewrite Z.add_0_r; reflexivity.
Qed.

(** What [ExpectFrame] returns: a captured frame that matches, with the
    states updated by [received]; or an error, with the connection as it
    was. *)
Lemma ExpectFrame_loop_result {codec : LayerCodec} (conn : Connection) (layers : Layers)
      (deadline : Z) (fuel : nat) :
  forall (errs : list layersError) (w w' : World) (conn' : Connection)
         (r : Layers + expectError),
    ExpectFrame_loop fuel conn layers deadline errs w = Ok (r, conn', w') ->
    match r with
    | inl frame =>
        exists b,
          In (Some b) (captured w)
          /\ frame = parse b
          /\ match_ conn layers frame = Ok true
          /\ receivedAll (layerStates conn) frame = Ok (layerStates conn')
    | inr _ => conn' = conn
    end.
Proof.
  induction fuel as [|fuel IH]; intros errs w w' conn' r E; [discriminate E|].
  cbn [ExpectFrame_loop] in E.
  destruct (time_Until deadline w) as [timeout w1] eqn:TU.
  assert (C1 : captured w1 = captured w).
  { replace w1 with (snd (time_Until deadline w)) by (rewrite TU; reflexivity).
    reflexivity. }
  destruct (timeout >? 0) eqn:T.
  - rewrite (recvFrame_polls _ _ T) in E.
    unfold sniffer_Recv in E. rewrite C1 in E.
    destruct (captured w) as [|[b|] later] eqn:C; cbn [fst snd option_map] in E.
    + injection E as <- <- <-. reflexivity.
    + destruct (match_ conn layers (parse b)) as [[|]| | | |] eqn:M;
        try discriminate E; cbn [bind] in E.
      * destruct (receivedAll (layerStates conn) (parse b)) as [states| | | |] eqn:RA;
          try discriminate E.
        cbn [bind] in E. injection E as <- <- <-.
        exists b. repeat split; auto. left. reflexivity.
      * destruct (incoming conn (parse b)) as [want| | | |]; try discriminate E.
        cbn [bind] in E. apply IH in E. destruct r as [frame|err]; [|exact E].
        destruct E as (b' & I & E). exists b'. split; [|exact E].
        right. exact I.
    + injection E as <- <- <-. reflexivity.
  - injection E as <- <- <-. reflexivity.
Qed.

Lemma ExpectFrame_result {codec : LayerCodec} (conn conn' : Connection) (layers : Layers)
      (timeout : Z) (w w' : World) (r : Layers + expectError) :
  ExpectFrame conn layers timeout w = Ok (r, conn', w') ->
  match r with
  | inl frame =>
      exists b,
        In (Some b) (captured w)
        /\ frame = parse b
        /\ match_ conn layers frame = Ok true
        /\ receivedAll (layerStates conn) frame = Ok (layerStates conn')
  | inr _ => conn' = conn
  end.
Proof.
  unfold ExpectFrame. destruct (time_Now w) as [t w0] eqn:TN.
  assert (C : captured w0 = captured w).
  { unfold time_Now in TN. injection TN as <- <-. reflexivity. }
  intros E. apply ExpectFrame_loop_result in E. rewrite C in E. exact E.
Qed.

(** A frame that matches the SYN-ACK expectation of a TCP/IPv4 connection
    has a TCP layer in the third place, with exactly SYN and ACK set. *)
Lemma match_SynAck (e : etherState.t) (i : ipv4State.t) (ts : tcpState.t)
      (frame : Layers) :
  match_ (NewTCPIPv4 e i ts) [None; None; Some (LTCP (TCP.with_flags SynAck))] frame
  = Ok true ->
  exists l0 l1 synack rest,
    frame = l0 :: l1 :: Some (LTCP synack) :: rest
    /\ TCP.Flags synack = Some SynAck.
Proof.
  intros M. pose proof (match_true_length _ _ _ M) as Len.
  destruct frame as [|l0 [|l1 [|l2 rest]]]; try (cbn in Len; lia).
  unfold match_, incoming in M. cbn [layerStates NewTCPIPv4 List.length Nat.ltb Nat.leb] in M.
  cbn [incoming_loop layerState_.incoming bind] in M.
  destruct l2 as [[?|?|?|synack|?|?]|]; try discriminate M.
  exists l0, l1, synack, rest. split; [reflexivity|].
  destruct (tcpState.incoming ts (Some (LTCP synack))) as [[[?|?|?|tm|?|?]|]| | | |];
    try discriminate M.
  cbn [bind option_map Layers_merge mergeLayer] in M.
  cbn [merge_field TCP.with_flags TCP.Flags Layers_match] in M.
  injection M as M.
  apply andb_true_iff in M as [_ M]. apply andb_true_iff in M as [_ M].
  apply andb_true_iff in M as [M _]. cbn [equalLayer] in M.
  apply andb_true_iff in M as [_ M]. cbn [TCP.Flags match_field] in M.
  destruct (TCP.Flags synack) as [[|q|q]|]; try discriminate M.
  apply Pos.eqb_eq in M. subst q. reflexivity.
Qed.

Lemma received_SynAck {codec : LayerCodec} (s : tcpState.t) (tcp : TCP.t) (rest : Layers)
      (seq : Z) :
  TCP.Flags tcp = Some SynAck ->
  TCP.SeqNum tcp = Some seq ->
  tcpState.received s (Some (LTCP tcp)) rest
  = Ok (tcpState.set_remoteSeqNum s
          (Some ((seq + 1 + total_length (nested rest)) mod seqnum.modulus))).
Proof.
  intros F S. unfold tcpState.received. rewrite S, F.
  change (has_flag SynAck (Z.lor header.TCPFlagSyn header.TCPFlagFin)) with true.
  cbn [tcpState.UpdateForward bind].
  rewrite advance_in_range by apply UpdateForward_range.
  unfold seqnum.UpdateForward. rewrite Zplus_mod_idemp_l. reflexivity.
Qed.

(** C5, as the code has it.  After a successful handshake of a TCP/IPv4
    connection whose frames go out as they were built, the local sequence
    number, [x] before, is [x + 1] modulo 2^32; the stored SYN-ACK is the TCP
    layer of a captured frame with exactly SYN and ACK set; and the remote
    sequence number is the sequence number of that SYN-ACK plus one plus the
    bytes of the layers that follow it in its frame, modulo 2^32. *)
Theorem Handshake_sequence_numbers {codec : LayerCodec} (e : etherState.t)
        (i : ipv4State.t) (ts : tcpState.t) (x : Z) (w w' : World)
        (conn' : Connection) :
  sends_as_built codec ->
  tcpState.localSeqNum ts = Some x ->
  0 <= x < 2 ^ 32 ->
  Handshake (NewTCPIPv4 e i ts) w = Ok (conn', w') ->
  exists ts' b l0 l1 synack rest seq,
    conn' = NewTCPIPv4 e i ts'
    /\ In (Some b) (captured w)
    /\ parse b = l0 :: l1 :: Some (LTCP synack) :: rest
    /\ TCP.Flags synack = Some SynAck
    /\ TCP.SeqNum synack = Some seq
    /\ tcpState.synAck ts' = Some synack
    /\ tcpState.localSeqNum ts' = Some ((x + 1) mod 2 ^ 32)
    /\ tcpState.remoteSeqNum ts'
       = Some ((seq + 1 + total_length (nested rest)) mod 2 ^ 32).
Proof.
  intros Law L R H. unfold Handshake in H.
  destruct (TCPIPv4_Send (NewTCPIPv4 e i ts) (TCP.with_flags header.TCPFlagSyn) [] w)
    as [[conn1 w1]| | | |] eqn:S1; try discriminate H.
  cbn [bind] in H.
  apply (TCPIPv4_Send_flags e i ts _ x) in S1; try assumption;
    [|unfold header.TCPFlagSyn; lia].
  destruct S1 as [-> C1].
  change (has_flag header.TCPFlagSyn SynFin) with true in H.
  change (has_flag header.TCPFlagSyn header.TCPFlagFin) with false in H.
  rewrite orb_false_r in H.
  set (ts1 := tcpState.Build _ _ _ _ _ _ _) in H.
  unfold TCPIPv4_Expect, Expect in H.
  cbn [NewTCPIPv4 layerStates List.length innermost_only repeat app bind] in H.
  fold (NewTCPIPv4 e i ts1) in H. fold SynAck in H.
  destruct (ExpectFrame (NewTCPIPv4 e i ts1)
              [None; None; Some (LTCP (TCP.with_flags SynAck))] time_Second w1)
    as [[[r conn2] w2]| | | |] eqn:EF; try discriminate H.
  cbn [bind] in H. apply ExpectFrame_result in EF.
  destruct r as [frame|err]; [|discriminate H].
  destruct EF as (b & I & -> & M & RA).
  destruct (match_SynAck _ _ _ _ M) as (l0 & l1 & synack & rest & P & F).
  rewrite P in H, RA.
  cbn [Nat.sub nth_error bind] in H.
  cbn [NewTCPIPv4 layerStates receivedAll layerState_.received bind fatal_on_error] in RA.
  destruct (TCP.SeqNum synack) as [seq|] eqn:SQ;
    [|unfold tcpState.received in RA; rewrite SQ in RA; discriminate RA].
  rewrite (received_SynAck ts1 synack rest seq F SQ) in RA.
  cbn [bind fatal_on_error] in RA. injection RA as RA.
  destruct conn2 as [states2]. cbn [layerStates] in *. subst states2.
  cbn [store_synAck bind] in H.
  apply (TCPIPv4_Send_flags e i _ _ ((x + 1) mod seqnum.modulus)) in H;
    try assumption; try reflexivity;
    [|apply Z.mod_pos_bound; reflexivity|unfold header.TCPFlagAck; lia].
  destruct H as [-> _].
  do 7 eexists. split; [reflexivity|].
  rewrite <- C1. split; [exact I|]. split; [exact P|].
  split; [exact F|]. split; [exact SQ|].
  cbn. split; [reflexivity|]. split; [|reflexivity].
  change (has_flag 16 SynFin) with false. cbn [Z.add].
  rewrite Z.add_0_r. f_equal. apply Z.mod_mod. discriminate.
Qed.

Lemma Handshake_sequence_numbers_witness :
  exists ts' b l0 l1 synack rest seq,
    NewTCPIPv4 Example.ether Example.ipv4
      (tcpState.Build (tcpState.out Example.tcp) (tcpState.in_ Example.tcp)
         (Some 1001) (Some 501)
         (Some (TCP.Build (Some 80) (Some 40000) (Some 500) (Some 1001) (Some 18)))
         3 false)
    = NewTCPIPv4 Example.ether Example.ipv4 ts'
    /\ In (Some b)
         [Some (Example.wire (Example.remote_frame (Example.segment 500 1001 18)))]
    /\ Wire.parseEther b = l0 :: l1 :: Some (LTCP synack) :: rest
    /\ TCP.Flags synack = Some SynAck
    /\ TCP.SeqNum synack = Some seq
    /\ tcpState.synAck ts' = Some synack
    /\ tcpState.localSeqNum ts' = Some ((1000 + 1) mod 2 ^ 32)
    /\ tcpState.remoteSeqNum ts'
       = Some ((seq + 1 + total_length (codec := Wire.codec) (nested rest)) mod 2 ^ 32).
Proof.
  eapply (Handshake_sequence_numbers (codec := Wire.codec) Example.ether Example.ipv4
            Example.tcp 1000
            (Example.world
               [Some (Example.wire (Example.remote_frame (Example.segment 500 1001 18)))])).
  - exact Wire_sends_as_built.
  - reflexivity.
  - lia.
  - vm_compute. reflexivity.
Defined.

(** C5 as stated fails for the remote sequence number: a SYN-ACK that
    carries one byte of payload, with sequence number 500, leaves the remote
    sequence number at 502, not at 501. *)
Lemma Handshake_remote_counterexample :
  exists ts' w',
    Handshake (codec := Wire.codec) Example.conn
      (Example.world
         [Some (Example.wire (Example.remote_frame (Example.segment 500 1001 18)
                                ++ [Some (Example.payload [9])]))])
    = Ok (NewTCPIPv4 Example.ether Example.ipv4 ts', w')
    /\ tcpState.synAck ts'
       = Some (TCP.Build (Some 80) (Some 40000) (Some 500) (Some 1001) (Some 18))
    /\ tcpState.localSeqNum ts' = Some 1001
    /\ tcpState.remoteSeqNum ts' = Some 502
    /\ tcpState.remoteSeqNum ts' <> Some ((500 + 1) mod 2 ^ 32).
Proof.
  eexists. eexists. split; [vm_compute; reflexivity|].
  cbn. repeat split. discriminate.
Qed.

(** ** The loop of [ExpectFrame] always comes to an end

    [OutOfFuel] is an outcome of the model only: no part of the connection
    code produces it, and [ExpectFrame] gives its loop fuel enough. *)

Lemma bind_fuel {A B : Type} (m : Outcome A) (k : A -> Outcome B) :
  m <> OutOfFuel ->
  (forall a, m = Ok a -> k a <> OutOfFuel) ->
  bind m k <> OutOfFuel.
Proof.
  intros M K. destruct m; cbn; try discriminate.
  - apply K. reflexivity.
  - contradiction.
Qed.

Lemma advance_fuel {codec : LayerCodec} (chain : list Layer) (p : option Z) :
  tcpState.advance p chain <> OutOfFuel.
Proof.
  revert p. induction chain as [|l chain IH]; intros p; cbn; [discriminate|].
  destruct p; cbn; [apply IH | discriminate].
Qed.

Lemma incoming_fuel (conn : Connection) (received : Layers) :
  incoming conn received <> OutOfFuel.
Proof.
  unfold incoming.
  destruct (List.length received <? List.length (layerStates conn))%nat;
    [discriminate|].
  generalize (layerStates conn) as states. intros states. revert received.
  induction states as [|s states IH]; intros received; cbn; [discriminate|].
  destruct received as [|r received]; [discriminate|].
  apply bind_fuel.
  - destruct s as [?|?|?|t|?]; cbn; try discriminate.
    unfold tcpState.incoming.
    destruct r as [[?|?|?|tcp|?|?]|]; try discriminate.
    destruct (tcpState.localSeqNum t); [|discriminate].
    destruct (TCP.Flags tcp) as [f|]; [|discriminate].
    destruct (has_flag f header.TCPFlagAck); discriminate.
  - intros [l|] _; [|discriminate].
    apply bind_fuel; [apply IH|]. intros; discriminate.
Qed.

Lemma match_fuel (conn : Connection) (override received : Layers) :
  match_ conn override received <> OutOfFuel.
Proof.
  unfold match_. apply bind_fuel; [apply incoming_fuel|].
  intros [toMatch|] _; [|discriminate].
  destruct (Layers_merge toMatch override) as [merged [|n]]; discriminate.
Qed.

Lemma fatal_on_error_fuel {A : Type} (m : Outcome A) :
  m <> OutOfFuel -> fatal_on_error m <> OutOfFuel.
Proof.
  destruct m; cbn; auto; discriminate.
Qed.

Lemma received_fuel {codec : LayerCodec} (s : layerState) (l : option Layer)
      (rest : Layers) :
  layerState_.received s l rest <> OutOfFuel.
Proof.
  destruct s as [?|?|?|t|?]; cbn [layerState_.received]; try discriminate.
  apply bind_fuel; [|intros; discriminate].
  unfold tcpState.received.
  destruct l as [[?|?|?|tcp|?|?]|]; try discriminate.
  destruct (TCP.SeqNum tcp) as [seq|]; [|discriminate].
  destruct (TCP.Flags tcp) as [f|]; [|discriminate].
  apply bind_fuel.
  - destruct (has_flag f (Z.lor header.TCPFlagSyn header.TCPFlagFin)); discriminate.
  - intros r1 _. apply bind_fuel; [apply advance_fuel|]. intros; discriminate.
Qed.

Lemma receivedAll_fuel {codec : LayerCodec} (states : list layerState)
      (gotLayers : Layers) :
  receivedAll states gotLayers <> OutOfFuel.
Proof.
  revert gotLayers. induction states as [|s states IH]; intros gotLayers;
    cbn [receivedAll]; [discriminate|].
  destruct gotLayers as [|l rest]; [discriminate|].
  apply bind_fuel; [apply fatal_on_error_fuel, received_fuel|].
  intros s' _. apply bind_fuel; [apply IH|]. intros; discriminate.
Qed.

Lemma ExpectFrame_loop_fuel {codec : LayerCodec} (conn : Connection) (layers : Layers)
      (deadline : Z) (fuel : nat) :
  forall (errs : list layersError) (w : World),
    (List.length (captured w) < fuel)%nat ->
    ExpectFrame_loop fuel conn layers deadline errs w <> OutOfFuel.
Proof.
  induction fuel as [|fuel IH]; intros errs w Len; [lia|].
  cbn [ExpectFrame_loop].
  destruct (time_Until deadline w) as [timeout w1] eqn:TU.
  assert (C1 : captured w1 = captured w).
  { replace w1 with (snd (time_Until deadline w)) by (rewrite TU; reflexivity).
    reflexivity. }
  destruct (timeout >? 0) eqn:T; [|discriminate].
  rewrite (recvFrame_polls _ _ T). unfold sniffer_Recv. rewrite C1.
  destruct (captured w) as [|[b|] later] eqn:C; cbn [fst snd option_map];
    try discriminate.
  apply bind_fuel; [apply match_fuel|].
  intros [|] _.
  - apply bind_fuel; [apply receivedAll_fuel|]. intros; discriminate.
  - apply bind_fuel; [apply incoming_fuel|]. intros want _.
    apply IH. cbn in Len |- *. lia.
Qed.

Lemma ExpectFrame_finishes {codec : LayerCodec} (conn : Connection) (layers : Layers)
      (timeout : Z) (w : World) :
  ExpectFrame conn layers timeout w <> OutOfFuel.
Proof.
  unfold ExpectFrame. destruct (time_Now w) as [t w0].
  apply ExpectFrame_loop_fuel. lia.
Qed.

(** ** [Connection.CreateFrame] *)

Lemma merge_innermost_snoc (front : list Layer) (l : Layer) (layer : option Layer) :
  merge_innermost (front ++ [l]) layer
  = (m <- mergeLayer l layer ;; Ok (front ++ [m])).
Proof.
  induction front as [|x front IH]; [reflexivity|].
  cbn [app merge_innermost]. destruct (front ++ [l]) eqn:E.
  - destruct front; discriminate E.
  - rewrite IH. destruct (mergeLayer l layer); reflexivity.
Qed.

Lemma mergeLayer_outcome (base : Layer) (override : option Layer) :
  (exists m, mergeLayer base override = Ok m)
  \/ mergeLayer base override = Err CantMerge.
Proof.
  destruct override as [o|]; [|left; eexists; reflexivity].
  destruct base, o; cbn; eauto.
Qed.

(** X1.  The frame of [CreateFrame] is made of the outgoing layers of the
    layer states, in order, with the given layer merged into the innermost
    one only, followed by the additional layers as they were given; it
    aborts the test exactly when that one merge fails, and a connection
    without layer states makes it panic. *)
Theorem CreateFrame_shape (front : list layerState) (s : layerState)
        (layer : option Layer) (additionalLayers : Layers) :
  CreateFrame (BuildConnection (front ++ [s])) layer additionalLayers
  = match mergeLayer (layerState_.outgoing s) layer with
    | Ok m =>
        Ok (map (fun s' => Some (layerState_.outgoing s')) front
              ++ Some m :: additionalLayers)
    | _ => Fatal CantMerge
    end
  /\ CreateFrame (BuildConnection []) layer additionalLayers = Panic.
Proof.
  split; [|reflexivity].
  unfold CreateFrame. cbn [layerStates]. rewrite map_app. cbn [map].
  rewrite merge_innermost_snoc.
  destruct (mergeLayer_outcome (layerState_.outgoing s) layer) as [[m E]|E];
    rewrite E; [|reflexivity].
  cbn [bind fatal_on_error]. rewrite map_app, map_map, <- app_assoc. reflexivity.
Qed.

(** ** What a match guarantees *)

Lemma match_field_merge {A : Type} (eqb : A -> A -> bool) (base override actual : option A) :
  match_field eqb (merge_field base override) actual = true ->
  match_field eqb override actual = true.
Proof.
  destruct override; cbn; auto.
Qed.

Lemma equalLayer_merge (base m : Layer) (override actual : option Layer) :
  mergeLayer base override = Ok m ->
  equalLayer (Some m) actual = true ->
  equalLayer override actual = true.
Proof.
  destruct override as [o|]; [|reflexivity].
  destruct base, o; cbn; intros E; try discriminate E; injection E as <-;
    destruct actual as [[]|]; cbn; intros M; try discriminate M;
    repeat (apply andb_true_iff in M; destruct M as [M ?]);
    repeat (apply andb_true_iff; split);
    eauto using match_field_merge.
Qed.

Lemma Layers_merge_sound (base : Layers) :
  forall (override merged actual : Layers),
    Layers_merge base override = (merged, O) ->
    Layers_match merged actual = true ->
    Layers_match override actual = true.
Proof.
  induction base as [|b base IH]; intros override merged actual E M.
  - destruct override; cbn in E; injection E as <-; [reflexivity | exact M].
  - destruct override as [|o override]; [reflexivity|].
    cbn [Layers_merge] in E.
    destruct (Layers_merge base override) as [rest errs] eqn:R.
    assert (K : exists x, merged = x :: rest /\ errs = O
                          /\ (equalLayer x (hd None actual) = true ->
                              equalLayer o (hd None actual) = true)).
    { destruct b as [bl|].
      - destruct (mergeLayer bl o) as [m| | | |] eqn:ML;
          injection E as <- E'; try discriminate E'.
        exists (Some m). repeat split; auto. apply (equalLayer_merge bl m). exact ML.
      - injection E as <- <-. exists o. auto. }
    destruct K as (x & -> & -> & Q).
    destruct actual as [|a actual]; [discriminate M|].
    cbn [Layers_match hd] in *. apply andb_true_iff in M as [M1 M2].
    rewrite (Q M1), (IH _ _ _ R M2). reflexivity.
Qed.

Lemma match_sound (conn : Connection) (override received : Layers) :
  match_ conn override received = Ok true ->
  Layers_match override received = true.
Proof.
  unfold match_. destruct (incoming conn received) as [[toMatch|]| | | |];
    try discriminate. cbn [bind].
  destruct (Layers_merge toMatch override) as [merged [|n]] eqn:E; [|discriminate].
  intros M. injection M as M. exact (Layers_merge_sound _ _ _ _ E M).
Qed.

Lemma ExpectFrame_returns_match {codec : LayerCodec} (conn conn' : Connection)
      (layers frame : Layers) (timeout : Z) (w w' : World) :
  ExpectFrame conn layers timeout w = Ok (inl frame, conn', w') ->
  Layers_match layers frame = true
  /\ (List.length (layerStates conn) <= List.length frame)%nat
  /\ exists b, In (Some b) (captured w) /\ frame = parse b.
Proof.
  intros E. apply ExpectFrame_result in E. destruct E as (b & I & P & M & _).
  split; [exact (match_sound _ _ _ M)|].
  split; [exact (match_true_length _ _ _ M)|].
  exists b. split; assumption.
Qed.

(** X2.  A frame that [ExpectFrame] returns was captured by the sniffer,
    has at least one layer per layer state, and satisfies the caller's
    expectation: every layer that the caller gave agrees with the captured
    layer of the same index on each field that the caller set. *)
Theorem ExpectFrame_sound {codec : LayerCodec} (conn conn' : Connection)
        (layers frame : Layers) (timeout : Z) (w w' : World) :
  ExpectFrame conn layers timeout w = Ok (inl frame, conn', w') ->
  Layers_match layers frame = true
  /\ (List.length (layerStates conn) <= List.length frame)%nat
  /\ exists b, In (Some b) (captured w) /\ frame = parse b.
Proof.
  apply ExpectFrame_returns_match.
Qed.

Lemma ExpectFrame_sound_witness :
  Layers_match (Example.expect_flags 18)
    (Wire.parseEther (Example.wire (Example.remote_frame (Example.segment 500 1000 18))))
  = true.
Proof.
  eapply (ExpectFrame_sound (codec := Wire.codec) Example.conn _
            (Example.expect_flags 18) _ 1000
            (Example.world
               [Some (Example.wire (Example.remote_frame (Example.segment 500 1000 16)));
                Some (Example.wire (Example.remote_frame (Example.segment 500 1000 18)))])).
  vm_compute. reflexivity.
Defined.

(** ** The receive path never aborts the test *)

Lemma bind_aborted {A B : Type} (m : Outcome A) (k : A -> Outcome B) :
  aborted m = false ->
  (forall a, m = Ok a -> aborted (k a) = false) ->
  aborted (bind m k) = false.
Proof.
  intros M K. destruct m; cbn in *; try discriminate; auto.
Qed.

Lemma tcpState_incoming_outcome (s : tcpState.t) (received : option Layer) :
  aborted (tcpState.incoming s received) = false
  /\ forall l, tcpState.incoming s received = Ok (Some l) ->
               exists tcp, received = Some (LTCP tcp).
Proof.
  unfold tcpState.incoming.
  destruct received as [[?|?|?|tcp|?|?]|]; cbn; try (split; [reflexivity|discriminate]).
  split.
  - destruct (tcpState.localSeqNum s); [|reflexivity].
    destruct (TCP.Flags tcp) as [f|]; [|reflexivity].
    destruct (has_flag f header.TCPFlagAck); reflexivity.
  - intros; eauto.
Qed.

Lemma incoming_loop_aborted (states : list layerState) (received : Layers) :
  aborted (incoming_loop states received) = false.
Proof.
  revert received. induction states as [|s states IH]; intros received;
    cbn [incoming_loop]; [reflexivity|].
  destruct received as [|r received]; [reflexivity|].
  apply bind_aborted.
  - destruct s; cbn; try reflexivity. apply tcpState_incoming_outcome.
  - intros [l|] _; [|reflexivity].
    apply bind_aborted; [apply IH|]. intros; reflexivity.
Qed.

Lemma incoming_aborted (conn : Connection) (received : Layers) :
  aborted (incoming conn received) = false.
Proof.
  unfold incoming.
  destruct (List.length received <? List.length (layerStates conn))%nat;
    [reflexivity | apply incoming_loop_aborted].
Qed.

Lemma match_aborted (conn : Connection) (override received : Layers) :
  aborted (match_ conn override received) = false.
Proof.
  unfold match_. apply bind_aborted; [apply incoming_aborted|].
  intros [toMatch|] _; [|reflexivity].
  destruct (Layers_merge toMatch override) as [merged [|n]]; reflexivity.
Qed.

Lemma advance_aborted {codec : LayerCodec} (chain : list Layer) (p : option Z) :
  aborted (tcpState.advance p chain) = false.
Proof.
  revert p. induction chain as [|l chain IH]; intros p; cbn; [reflexivity|].
  destruct p; cbn; [apply IH | reflexivity].
Qed.

Lemma tcpState_received_TCP {codec : LayerCodec} (s : tcpState.t) (tcp : TCP.t)
      (rest : Layers) :
  aborted (tcpState.received s (Some (LTCP tcp)) rest) = false.
Proof.
  unfold tcpState.received.
  destruct (TCP.SeqNum tcp) as [seq|]; [|reflexivity].
  destruct (TCP.Flags tcp) as [f|]; [|reflexivity].
  apply bind_aborted.
  - destruct (has_flag f (Z.lor header.TCPFlagSyn header.TCPFlagFin)); reflexivity.
  - intros r1 _. apply bind_aborted; [apply advance_aborted|]. intros; reflexivity.
Qed.

(** Where [incoming] found an expectation for every layer state, [received]
    finds a TCP layer for every TCP state. *)
Lemma receivedAll_after_incoming {codec : LayerCodec} (states : list layerState) :
  forall (gotLayers toMatch : Layers),
    incoming_loop states gotLayers = Ok (Some toMatch) ->
    aborted (receivedAll states gotLayers) = false.
Proof.
  induction states as [|s states IH]; intros gotLayers toMatch I; [reflexivity|].
  destruct gotLayers as [|l rest]; [discriminate I|].
  cbn [incoming_loop receivedAll] in *.
  destruct (layerState_.incoming s l) as [[x|]| | | |] eqn:I0; try discriminate I.
  cbn [bind] in I.
  destruct (incoming_loop states rest) as [[tm|]| | | |] eqn:I1; try discriminate I.
  apply bind_aborted.
  - destruct s as [?|?|?|t|?]; cbn [layerState_.received fatal_on_error]; try reflexivity.
    cbn [layerState_.incoming] in I0.
    destruct (tcpState_incoming_outcome t l) as [_ T].
    destruct (T _ I0) as [tcp ->].
    pose proof (tcpState_received_TCP t tcp rest) as N.
    destruct (tcpState.received t (Some (LTCP tcp)) rest); cbn in *;
      try discriminate N; reflexivity.
  - intros s' _. apply bind_aborted; [apply (IH _ _ I1)|]. intros; reflexivity.
Qed.

Lemma receivedAll_after_match {codec : LayerCodec} (conn : Connection)
      (override gotLayers : Layers) :
  match_ conn override gotLayers = Ok true ->
  aborted (receivedAll (layerStates conn) gotLayers) = false.
Proof.
  unfold match_, incoming. intros M.
  destruct (List.length gotLayers <? List.length (layerStates conn))%nat;
    [discriminate M|].
  destruct (incoming_loop (layerStates conn) gotLayers) as [[toMatch|]| | | |] eqn:I;
    try discriminate M.
  exact (receivedAll_after_incoming _ _ _ I).
Qed.

Lemma ExpectFrame_loop_aborted {codec : LayerCodec} (conn : Connection) (layers : Layers)
      (deadline : Z) (fuel : nat) :
  forall (errs : list layersError) (w : World),
    aborted (ExpectFrame_loop fuel conn layers deadline errs w) = false.
Proof.
  induction fuel as [|fuel IH]; intros errs w; [reflexivity|].
  cbn [ExpectFrame_loop].
  destruct (time_Until deadline w) as [timeout w1].
  destruct (if timeout >? 0 then recvFrame timeout w1 else (None, w1))
    as [[gotLayers|] w2]; [|reflexivity].
  apply bind_aborted; [apply match_aborted|].
  intros [|] M.
  - apply bind_aborted; [exact (receivedAll_after_match _ _ _ M)|].
    intros; reflexivity.
  - apply bind_aborted; [apply incoming_aborted|]. intros; apply IH.
Qed.

(** X3.  On the receive path the calls of [t.Fatal] cannot be reached:
    [ExpectFrame] never aborts the test for a failed [received] (a frame
    that matched has a TCP layer wherever there is a TCP state), and
    [Expect] never finds the matched frame shorter than the layer states. *)
Theorem receive_path_never_fatal {codec : LayerCodec} (conn : Connection)
        (layers : Layers) (layer : option Layer) (timeout : Z) (w : World) :
  aborted (ExpectFrame conn layers timeout w) = false
  /\ aborted (Expect conn layer timeout w) = false.
Proof.
  assert (A : forall layers, aborted (ExpectFrame conn layers timeout w) = false).
  { intros ls. unfold ExpectFrame. destruct (time_Now w) as [t w0].
    apply ExpectFrame_loop_aborted. }
  split; [apply A|].
  unfold Expect.
  destruct (layerStates conn) as [|s states] eqn:LS; [reflexivity|].
  cbn [List.length innermost_only bind].
  apply bind_aborted; [apply A|].
  intros [[r conn'] w'] E. destruct r as [frame|err]; [|reflexivity].
  apply ExpectFrame_returns_match in E. destruct E as (_ & Len & _).
  rewrite LS in Len. cbn [List.length] in Len.
  destruct (nth_error frame (S (List.length states) - 1)) eqn:N; [reflexivity|].
  apply nth_error_None in N. lia.
Qed.

(** ** What [ExpectFrame] does with the captured frames *)

Lemma ExpectFrame_loop_trace {codec : LayerCodec} (conn : Connection) (layers : Layers)
      (deadline : Z) (fuel : nat) :
  forall (errs : list layersError) (w w' : World) (conn' : Connection)
         (r : Layers + expectError),
    ExpectFrame_loop fuel conn layers deadline errs w = Ok (r, conn', w') ->
    exists skipped rest,
      captured w = map Some skipped ++ rest
      /\ Forall (fun b => match_ conn layers (parse b) = Ok false) skipped
      /\ match r with
         | inl frame =>
             exists b,
               rest = Some b :: captured w'
               /\ frame = parse b
               /\ match_ conn layers (parse b) = Ok true
         | inr err =>
             matching err = layers
             /\ diffs err = errs ++ map (diff_of conn) skipped
             /\ (rest = captured w' \/ rest = None :: captured w')
         end.
Proof.
  induction fuel as [|fuel IH]; intros errs w w' conn' r E; [discriminate E|].
  cbn [ExpectFrame_loop] in E.
  destruct (time_Until deadline w) as [timeout w1] eqn:TU.
  assert (C1 : captured w1 = captured w).
  { replace w1 with (snd (time_Until deadline w)) by (rewrite TU; reflexivity).
    reflexivity. }
  destruct (timeout >? 0) eqn:T.
  - rewrite (recvFrame_polls _ _ T) in E.
    unfold sniffer_Recv in E. rewrite C1 in E.
    destruct (captured w) as [|[b|] later] eqn:C; cbn [fst snd option_map] in E.
    + injection E as <- <- <-. exists [], []. cbn. repeat split; rewrite ?app_nil_r; auto; constructor.
    + destruct (match_ conn layers (parse b)) as [[|]| | | |] eqn:M;
        try discriminate E; cbn [bind] in E.
      * destruct (receivedAll (layerStates conn) (parse b)) as [states| | | |];
          try discriminate E.
        cbn [bind] in E. injection E as <- <- <-.
        exists [], (Some b :: later). cbn. split; [reflexivity|].
        split; [constructor|]. exists b. auto.
      * destruct (incoming conn (parse b)) as [want| | | |] eqn:I; try discriminate E.
        cbn [bind] in E. apply IH in E.
        destruct E as (skipped & rest & C' & N & R). cbn [captured] in C'.
        exists (b :: skipped), rest. cbn [map app]. rewrite C'.
        split; [reflexivity|]. split; [constructor; assumption|].
        destruct r as [frame|err]; [exact R|].
        destruct R as (R1 & R2 & R3). split; [exact R1|]. split; [|exact R3].
        rewrite R2, <- app_assoc. cbn [map app]. unfold diff_of at 2.
        rewrite I. reflexivity.
    + injection E as <- <- <-. exists [], (None :: later). cbn. repeat split; rewrite ?app_nil_r; auto; constructor.
  - injection E as <- <- <-. exists [], (captured w). cbn. rewrite C1.
    repeat split; rewrite ?app_nil_r; auto; constructor.
Qed.

(** X4.  [ExpectFrame] takes the captured frames in the order of their
    arrival.  The frame it returns is the first one that matches, and the
    frames captured after it stay with the sniffer for the next call.  An
    error that it returns holds a record for each frame that was taken, all
    of them frames that did not match, in their order. *)
Theorem ExpectFrame_first_match {codec : LayerCodec} (conn conn' : Connection)
        (layers : Layers) (timeout : Z) (w w' : World) (r : Layers + expectError) :
  ExpectFrame conn layers timeout w = Ok (r, conn', w') ->
  exists skipped rest,
    captured w = map Some skipped ++ rest
    /\ Forall (fun b => match_ conn layers (parse b) = Ok false) skipped
    /\ match r with
       | inl frame =>
           exists b,
             rest = Some b :: captured w'
             /\ frame = parse b
             /\ match_ conn layers (parse b) = Ok true
       | inr err =>
           matching err = layers
           /\ diffs err = map (diff_of conn) skipped
           /\ (rest = captured w' \/ rest = None :: captured w')
       end.
Proof.
  unfold ExpectFrame. destruct (time_Now w) as [t w0] eqn:TN.
  assert (C : captured w0 = captured w).
  { unfold time_Now in TN. injection TN as <- <-. reflexivity. }
  intros E. apply ExpectFrame_loop_trace in E. rewrite C in E. exact E.
Qed.

Lemma ExpectFrame_first_match_witness :
  exists skipped rest,
    [Some (Example.wire (Example.remote_frame (Example.segment 500 1000 16)));
     Some (Example.wire (Example.remote_frame (Example.segment 500 1000 18)));
     Some (Example.wire (Example.remote_frame (Example.segment 501 1000 18)))]
    = map Some skipped ++ rest
    /\ Forall (fun b => match_ Example.conn (Example.expect_flags 18)
                          (Wire.parseEther b) = Ok false) skipped
    /\ exists b,
         rest = Some b
                  :: [Some (Example.wire
                              (Example.remote_frame (Example.segment 501 1000 18)))]
         /\ Wire.parseEther
              (Example.wire (Example.remote_frame (Example.segment 500 1000 18)))
            = Wire.parseEther b
         /\ match_ Example.conn (Example.expect_flags 18) (Wire.parseEther b) = Ok true.
Proof.
  apply (ExpectFrame_first_match (codec := Wire.codec) Example.conn
           (BuildConnection
              [EtherSt Example.ether; IPv4St Example.ipv4;
               TCPSt (tcpState.set_remoteSeqNum Example.tcp (Some 501))])
           (Example.expect_flags 18) 1000
           (Example.world
              [Some (Example.wire (Example.remote_frame (Example.segment 500 1000 16)));
               Some (Example.wire (Example.remote_frame (Example.segment 500 1000 18)));
               Some (Example.wire (Example.remote_frame (Example.segment 501 1000 18)))])
           (BuildWorld 3 (fun _ => 1%N) 3
              [Some (Example.wire (Example.remote_frame (Example.segment 501 1000 18)))]
              [999; 998] [])
           (inl (Wire.parseEther
                   (Example.wire (Example.remote_frame (Example.segment 500 1000 18)))))).
  vm_compute. reflexivity.
Defined.

(** The polls of one call: each timeout is positive and no larger than the
    time that was left when the loop was entered, and none is larger than
    the one before. *)
Lemma ExpectFrame_loop_polls {codec : LayerCodec} (conn : Connection) (layers : Layers)
      (deadline : Z) (fuel : nat) :
  forall (errs : list layersError) (w w' : World) (conn' : Connection)
         (r : Layers + expectError),
    ExpectFrame_loop fuel conn layers deadline errs w = Ok (r, conn', w') ->
    exists polls,
      recvLog w' = recvLog w ++ polls
      /\ Forall (fun t => 0 < t <= deadline - now w) polls
      /\ StronglySorted (fun a b => b <= a) polls
      /\ injected w' = injected w.
Proof.
  induction fuel as [|fuel IH]; intros errs w w' conn' r E; [discriminate E|].
  cbn [ExpectFrame_loop] in E.
  destruct (time_Until deadline w) as [timeout w1] eqn:TU.
  assert (K : recvLog w1 = recvLog w /\ injected w1 = injected w
              /\ timeout = deadline - now w1 /\ now w <= now w1).
  { unfold time_Until, time_Now in TU. injection TU as <- <-. cbn.
    repeat split. lia. }
  destruct K as (KL & KI & KT & KN).
  assert (Stop : forall w2, recvLog w2 = recvLog w1 -> injected w2 = injected w1 ->
                            exists polls,
                              recvLog w2 = recvLog w ++ polls
                              /\ Forall (fun t => 0 < t <= deadline - now w) polls
                              /\ StronglySorted (fun a b => b <= a) polls
                              /\ injected w2 = injected w).
  { intros w2 L I. exists []. rewrite app_nil_r. repeat split; try congruence;
      constructor. }
  destruct (timeout >? 0) eqn:T.
  - rewrite (recvFrame_polls _ _ T) in E. apply Z.gtb_lt in T.
    set (w2 := snd (sniffer_Recv timeout w1)) in *.
    assert (K2 : recvLog w2 = recvLog w ++ [timeout] /\ injected w2 = injected w
                 /\ now w2 = now w1).
    { unfold w2, sniffer_Recv. destruct (captured w1); cbn; rewrite KL; auto. }
    destruct K2 as (K2L & K2I & K2N).
    assert (One : exists polls,
               recvLog w2 = recvLog w ++ polls
               /\ Forall (fun t => 0 < t <= deadline - now w) polls
               /\ StronglySorted (fun a b => b <= a) polls
               /\ injected w2 = injected w).
    { exists [timeout]. repeat split; auto.
      - constructor; [lia | constructor].
      - constructor; constructor. }
    destruct (fst (sniffer_Recv timeout w1)) as [b|]; cbn [option_map] in E.
    + destruct (match_ conn layers (parse b)) as [[|]| | | |]; try discriminate E;
        cbn [bind] in E.
      * destruct (receivedAll (layerStates conn) (parse b)); try discriminate E.
        cbn [bind] in E. injection E as <- <- <-. exact One.
      * destruct (incoming conn (parse b)); try discriminate E.
        cbn [bind] in E. apply IH in E.
        destruct E as (polls & L & F & S & I).
        exists (timeout :: polls). rewrite L, K2L, <- app_assoc.
        split; [reflexivity|]. split; [|split].
        -- constructor; [lia|].
           eapply Forall_impl; [|exact F]. cbn. intros t Ht. lia.
        -- constructor; [exact S|].
           eapply Forall_impl; [|exact F]. cbn. intros t Ht. lia.
        -- congruence.
    + injection E as <- <- <-. exact One.
  - injection E as <- <- <-. apply Stop; reflexivity.
Qed.

(** The polls of one call, exactly: the timeout of each is the deadline
    less the reading of the clock that the round has just made. *)
Lemma ExpectFrame_loop_time_left {codec : LayerCodec} (conn : Connection)
      (layers : Layers) (deadline : Z) (fuel : nat) :
  forall (errs : list layersError) (w w' : World) (conn' : Connection)
         (r : Layers + expectError),
    ExpectFrame_loop fuel conn layers deadline errs w = Ok (r, conn', w') ->
    exists n,
      recvLog w'
      = recvLog w
          ++ map (fun k => deadline - now w - elapsed (elapse w) (reads w) (S k))
                 (seq 0 n).
Proof.
  induction fuel as [|fuel IH]; intros errs w w' conn' r E; [discriminate E|].
  cbn [ExpectFrame_loop] in E.
  destruct (time_Until deadline w) as [timeout w1] eqn:TU.
  assert (K : recvLog w1 = recvLog w /\ elapse w1 = elapse w
              /\ reads w1 = S (reads w)
              /\ now w1 = now w + Z.of_N (elapse w (reads w))
              /\ timeout = deadline - now w1).
  { unfold time_Until, time_Now in TU. injection TU as <- <-. cbn. repeat split. }
  destruct K as (KL & KE & KR & KN & KT).
  assert (Stop : forall w2, recvLog w2 = recvLog w1 ->
                   exists n,
                     recvLog w2
                     = recvLog w
                         ++ map (fun k => deadline - now w
                                          - elapsed (elapse w) (reads w) (S k))
                                (seq 0 n)).
  { intros w2 L. exists O. cbn. rewrite app_nil_r. congruence. }
  destruct (timeout >? 0) eqn:T.
  - rewrite (recvFrame_polls _ _ T) in E.
    set (w2 := snd (sniffer_Recv timeout w1)) in *.
    assert (K2 : recvLog w2 = recvLog w ++ [timeout] /\ elapse w2 = elapse w
                 /\ reads w2 = S (reads w) /\ now w2 = now w1).
    { unfold w2, sniffer_Recv. destruct (captured w1); cbn; rewrite KL; auto. }
    destruct K2 as (K2L & K2E & K2R & K2N).
    assert (P0 : timeout = deadline - now w - elapsed (elapse w) (reads w) 1).
    { cbn [elapsed]. lia. }
    assert (One : exists n,
               recvLog w2
               = recvLog w
                   ++ map (fun k => deadline - now w
                                    - elapsed (elapse w) (reads w) (S k))
                          (seq 0 n)).
    { exists 1%nat. cbn [seq map]. rewrite <- P0. exact K2L. }
    destruct (fst (sniffer_Recv timeout w1)) as [b|]; cbn [option_map] in E.
    + destruct (match_ conn layers (parse b)) as [[|]| | | |]; try discriminate E;
        cbn [bind] in E.
      * destruct (receivedAll (layerStates conn) (parse b)); try discriminate E.
        cbn [bind] in E. injection E as <- <- <-. exact One.
      * destruct (incoming conn (parse b)); try discriminate E.
        cbn [bind] in E. apply IH in E. destruct E as (n & L).
        exists (S n). rewrite L, K2L, <- app_assoc. f_equal.
        cbn [seq map app]. rewrite <- P0. f_equal.
        rewrite <- seq_shift, map_map.
        apply map_ext. intros k. rewrite K2E, K2R, K2N, KN.
        change (elapsed (elapse w) (reads w) (S (S k)))
          with (Z.of_N (elapse w (reads w))
                + elapsed (elapse w) (S (reads w)) (S k)).
        lia.
    + injection E as <- <- <-. exact One.
  - injection E as <- <- <-. apply Stop; reflexivity.
Qed.

(** X5.  The deadline of [ExpectFrame] is fixed once, at the entry, and the
    time that is left is computed afresh for each poll of the sniffer: the
    timeout of the poll number [k] is the timeout of the call less the time
    that the clock has moved, over its [k + 1] readings, since the entry.
    So every poll has a timeout that is positive and at most the timeout of
    the call, and no poll waits longer than the poll before it.  Nothing is
    injected. *)
Theorem ExpectFrame_polls_within_deadline {codec : LayerCodec} (conn conn' : Connection)
        (layers : Layers) (timeout : Z) (w w' : World) (r : Layers + expectError) :
  ExpectFrame conn layers timeout w = Ok (r, conn', w') ->
  exists polls,
    recvLog w' = recvLog w ++ polls
    /\ polls = map (fun k => timeout - elapsed (elapse w) (S (reads w)) (S k))
                   (seq 0 (List.length polls))
    /\ Forall (fun t => 0 < t <= timeout) polls
    /\ StronglySorted (fun a b => b <= a) polls
    /\ injected w' = injected w.
Proof.
  unfold ExpectFrame. destruct (time_Now w) as [t w0] eqn:TN.
  assert (K : recvLog w0 = recvLog w /\ injected w0 = injected w /\ now w0 = t
              /\ elapse w0 = elapse w /\ reads w0 = S (reads w)).
  { unfold time_Now in TN. injection TN as <- <-. repeat split. }
  destruct K as (KL & KI & KN & KE & KR).
  intros E. pose proof (ExpectFrame_loop_time_left _ _ _ _ _ _ _ _ _ E) as (n & X).
  apply ExpectFrame_loop_polls in E.
  destruct E as (polls & L & F & S & I). exists polls.
  rewrite <- KL, <- KI. repeat split; try assumption.
  - rewrite L in X. apply app_inv_head in X. rewrite X at 1.
    rewrite X, length_map, length_seq.
    apply map_ext. intros k. rewrite KE, KR, KN. lia.
  - eapply Forall_impl; [|exact F]. cbn. intros x Hx. lia.
Qed.

Lemma ExpectFrame_polls_within_deadline_witness :
  exists polls,
    [999; 998] = [] ++ polls
    /\ polls = map (fun k => 1000 - elapsed (fun _ => 1%N) 1 (S k))
                   (seq 0 (List.length polls))
    /\ Forall (fun t => 0 < t <= 1000) polls
    /\ StronglySorted (fun a b => b <= a) polls.
Proof.
  destruct (ExpectFrame_polls_within_deadline (codec := Wire.codec) Example.conn
              (BuildConnection
                 [EtherSt Example.ether; IPv4St Example.ipv4;
                  TCPSt (tcpState.set_remoteSeqNum Example.tcp (Some 501))])
              (Example.expect_flags 18) 1000
              (Example.world
                 [Some (Example.wire (Example.remote_frame (Example.segment 500 1000 16)));
                  Some (Example.wire (Example.remote_frame (Example.segment 500 1000 18)))])
              (BuildWorld 3 (fun _ => 1%N) 3 [] [999; 998] [])
              (inl (Wire.parseEther
                      (Example.wire (Example.remote_frame (Example.segment 500 1000 18))))))
    as (polls & L & X & F & S & _).
  - vm_compute. reflexivity.
  - exists polls. repeat split; assumption.
Defined.

(** ** [Connection.Expect] *)

Lemma Layers_match_innermost (m : nat) (layer : option Layer) :
  forall frame : Layers,
    Layers_match (repeat None m ++ [layer]) frame = true ->
    exists l, nth_error frame m = Some l /\ equalLayer layer l = true.
Proof.
  induction m as [|m IH]; intros frame M; destruct frame as [|a frame];
    try discriminate M; cbn [repeat app Layers_match] in M.
  - apply andb_true_iff in M as [M _]. exists a. split; [reflexivity | exact M].
  - apply andb_true_iff in M as [_ M]. exact (IH _ M).
Qed.

(** X6.  The layer that [Expect] returns is the layer, at the place of the
    innermost layer state, of a frame that the sniffer captured, and it
    agrees with the expected layer on every field that the caller set. *)
Theorem Expect_sound {codec : LayerCodec} (conn conn' : Connection)
        (layer l : option Layer) (timeout : Z) (w w' : World) :
  Expect conn layer timeout w = Ok (inl l, conn', w') ->
  equalLayer layer l = true
  /\ exists b,
       In (Some b) (captured w)
       /\ nth_error (parse b) (List.length (layerStates conn) - 1) = Some l.
Proof.
  unfold Expect. destruct (layerStates conn) as [|s states] eqn:LS; [discriminate|].
  cbn [List.length innermost_only bind].
  destruct (ExpectFrame conn (repeat None (List.length states) ++ [layer]) timeout w)
    as [[[r c] w2]| | | |] eqn:E; try discriminate.
  cbn [bind]. destruct r as [frame|err]; [|discriminate].
  apply ExpectFrame_returns_match in E. destruct E as (M & _ & b & I & ->).
  replace (S (List.length states) - 1)%nat with (List.length states) by lia.
  destruct (Layers_match_innermost _ _ _ M) as (x & N & Q).
  rewrite N. intros H. injection H as <- <- <-.
  split; [exact Q|]. exists b. split; assumption.
Qed.

Lemma Expect_sound_witness :
  equalLayer (Some (LTCP (TCP.with_flags 18))) (Some (Example.segment 500 1000 18)) = true.
Proof.
  eapply (Expect_sound (codec := Wire.codec) Example.conn _
            (Some (LTCP (TCP.with_flags 18))) (Some (Example.segment 500 1000 18)) 1000
            (Example.world
               [Some (Example.wire (Example.remote_frame (Example.segment 500 1000 18)))])).
  vm_compute. reflexivity.
Defined.

(** ** Connections without a TCP layer *)

Lemma sentAll_stateless {codec : LayerCodec} (states : list layerState) :
  forall (frame : Layers) (states' : list layerState),
    forallb stateless states = true ->
    sentAll states frame = Ok states' ->
    states' = states.
Proof.
  induction states as [|s states IH]; intros frame states' SL E.
  - injection E as <-. reflexivity.
  - destruct frame as [|l rest]; [discriminate E|].
    cbn [forallb] in SL. apply andb_true_iff in SL as [S1 S2].
    cbn [sentAll] in E.
    destruct s; try discriminate S1; cbn [layerState_.sent fatal_on_error bind] in E;
      (destruct (sentAll states rest) as [tl| | | |] eqn:R; try discriminate E;
       cbn [bind] in E; injection E as <-; rewrite (IH _ _ S2 R); reflexivity).
Qed.

Lemma receivedAll_stateless {codec : LayerCodec} (states : list layerState) :
  forall (frame : Layers) (states' : list layerState),
    forallb stateless states = true ->
    receivedAll states frame = Ok states' ->
    states' = states.
Proof.
  induction states as [|s states IH]; intros frame states' SL E.
  - injection E as <-. reflexivity.
  - destruct frame as [|l rest]; [discriminate E|].
    cbn [forallb] in SL. apply andb_true_iff in SL as [S1 S2].
    cbn [receivedAll] in E.
    destruct s; try discriminate S1; cbn [layerState_.received fatal_on_error bind] in E;
      (destruct (receivedAll states rest) as [tl| | | |] eqn:R; try discriminate E;
       cbn [bind] in E; injection E as <-; rewrite (IH _ _ S2 R); reflexivity).
Qed.

Lemma SendFrame_stateless {codec : LayerCodec} (conn conn' : Connection)
      (frame : Layers) (w w' : World) :
  forallb stateless (layerStates conn) = true ->
  SendFrame conn frame w = Ok (conn', w') ->
  conn' = conn.
Proof.
  intros SL E. unfold SendFrame in E.
  destruct (ToBytes frame) as [outBytes|]; [|discriminate E].
  destruct (sentAll (layerStates conn) (parse outBytes)) as [states| | | |] eqn:R;
    try discriminate E.
  cbn [bind] in E. injection E as <- _.
  rewrite (sentAll_stateless _ _ _ SL R). destruct conn; reflexivity.
Qed.

(** X7.  A connection without a TCP layer state (the UDP/IPv4 and the IPv6
    connections) keeps no memory of its traffic: neither a frame that was
    sent nor a frame that was matched changes any of its layer states. *)
Theorem stateless_connection_unchanged {codec : LayerCodec} (conn : Connection) :
  forallb stateless (layerStates conn) = true ->
  (forall frame w conn' w',
      SendFrame conn frame w = Ok (conn', w') -> conn' = conn)
  /\ (forall layers timeout w r conn' w',
         ExpectFrame conn layers timeout w = Ok (r, conn', w') -> conn' = conn).
Proof.
  intros SL. split.
  - intros frame w conn' w' E. exact (SendFrame_stateless _ _ _ _ _ SL E).
  - intros layers timeout w r conn' w' E. apply ExpectFrame_result in E.
    destruct r as [frame|err]; [|exact E].
    destruct E as (b & _ & _ & _ & R).
    apply (receivedAll_stateless _ _ _ SL) in R.
    destruct conn, conn'. cbn in R. congruence.
Qed.

Lemma stateless_connection_unchanged_witness :
  exists conn' w',
    SendFrame (codec := Wire.codec)
      (BuildConnection [EtherSt Example.ether; IPv4St Example.ipv4])
      [Some (LEther (etherState.out Example.ether));
       Some (LIPv4 (ipv4State.out Example.ipv4))]
      (Example.world []) = Ok (conn', w')
    /\ conn' = BuildConnection [EtherSt Example.ether; IPv4St Example.ipv4].
Proof.
  destruct (stateless_connection_unchanged (codec := Wire.codec)
              (BuildConnection [EtherSt Example.ether; IPv4St Example.ipv4]) eq_refl)
    as [S _].
  eexists. eexists. split; [vm_compute; reflexivity|].
  eapply (S [Some (LEther (etherState.out Example.ether));
             Some (LIPv4 (ipv4State.out Example.ipv4))] (Example.world [])).
  vm_compute. reflexivity.
Defined.

(** ** How sending and receiving shape the next layers *)

(** X8.  After a TCP layer was received, the next outgoing layer
    acknowledges it: its ack number is the received sequence number moved
    forward, modulo 2^32, by one for SYN or FIN and by the bytes of the
    nested layers, and the next expected layer carries that number as its
    sequence number.  The sequence number of the outgoing layer is not
    touched by the receive. *)
Theorem outgoing_after_received {codec : LayerCodec} (s : tcpState.t) (tcp next : TCP.t)
        (rest : Layers) (seq f : Z) :
  TCP.SeqNum tcp = Some seq ->
  0 <= seq < 2 ^ 32 ->
  TCP.Flags tcp = Some f ->
  tcpState.localSeqNum s = None \/ TCP.Flags next <> None ->
  exists s' out newIn,
    tcpState.received s (Some (LTCP tcp)) rest = Ok s'
    /\ tcpState.outgoing s' = LTCP out
    /\ TCP.AckNum out
       = Some ((seq + (if has_flag f SynFin then 1 else 0)
                  + total_length (nested rest)) mod 2 ^ 32)
    /\ (exists before, tcpState.outgoing s = LTCP before
                       /\ TCP.SeqNum out = TCP.SeqNum before)
    /\ tcpState.incoming s' (Some (LTCP next)) = Ok (Some (LTCP newIn))
    /\ TCP.SeqNum newIn = TCP.AckNum out.
Proof.
  intros S R F N.
  rewrite (received_closed_form s tcp rest seq f S R F).
  unfold tcpState.outgoing, tcpState.incoming, tcpState.set_remoteSeqNum.
  cbn [tcpState.localSeqNum tcpState.remoteSeqNum tcpState.out tcpState.in_].
  destruct (tcpState.localSeqNum s) as [v|].
  - destruct N as [N|N]; [discriminate N|].
    destruct (TCP.Flags next) as [g|]; [|contradiction].
    destruct (has_flag g header.TCPFlagAck), (tcpState.remoteSeqNum s);
      do 3 eexists; (split; [reflexivity|]); (split; [reflexivity|]);
      (split; [reflexivity|]); (split; [eexists; split; reflexivity|]);
      split; reflexivity.
  - destruct (tcpState.remoteSeqNum s);
      do 3 eexists; (split; [reflexivity|]); (split; [reflexivity|]);
      (split; [reflexivity|]); (split; [eexists; split; reflexivity|]);
      split; reflexivity.
Qed.

Lemma outgoing_after_received_witness :
  exists s' out,
    tcpState.received (codec := Wire.codec) Example.tcp
      (Some (Example.segment 500 1000 24)) [Some (Example.payload [1; 2; 3])] = Ok s'
    /\ tcpState.outgoing s' = LTCP out
    /\ TCP.AckNum out = Some 503.
Proof.
  destruct (outgoing_after_received (codec := Wire.codec) Example.tcp
              (TCP.Build (Some 80) (Some 40000) (Some 500) (Some 1000) (Some 24))
              (TCP.with_flags 16) [Some (Example.payload [1; 2; 3])] 500 24)
    as (s' & out & _ & R & O & A & _).
  - reflexivity.
  - lia.
  - reflexivity.
  - right. discriminate.
  - exists s', out. split; [exact R|]. split; [exact O | exact A].
Defined.

(** X9.  After a TCP layer was sent, a received layer with the ACK flag
    set is expected to acknowledge it: the ack number of the expected layer
    is the new local sequence number, which is also the sequence number of
    the next outgoing layer. *)
Theorem incoming_after_sent {codec : LayerCodec} (s : tcpState.t) (tcp next : TCP.t)
        (rest : Layers) (v f g : Z) :
  tcpState.localSeqNum s = Some v ->
  0 <= v < 2 ^ 32 ->
  TCP.Flags tcp = Some f ->
  TCP.Flags next = Some g ->
  has_flag g header.TCPFlagAck = true ->
  exists s' newIn out,
    tcpState.sent s (Some (LTCP tcp)) rest = Ok s'
    /\ tcpState.incoming s' (Some (LTCP next)) = Ok (Some (LTCP newIn))
    /\ TCP.AckNum newIn
       = Some ((v + (if tcpState.finSent s then 0 else total_length (nested rest))
                  + (if has_flag f SynFin then 1 else 0)) mod 2 ^ 32)
    /\ tcpState.outgoing s' = LTCP out
    /\ TCP.SeqNum out = TCP.AckNum newIn.
Proof.
  intros L R F G A.
  rewrite (sent_closed_form s tcp rest v f L R F).
  eexists. eexists. eexists. split; [reflexivity|].
  unfold tcpState.incoming, tcpState.outgoing.
  cbn [tcpState.localSeqNum tcpState.remoteSeqNum tcpState.out tcpState.in_].
  rewrite G, A.
  split; [reflexivity|]. split; [reflexivity|]. split; [reflexivity|].
  destruct (tcpState.remoteSeqNum s); reflexivity.
Qed.

Lemma incoming_after_sent_witness :
  exists s' newIn,
    tcpState.sent (codec := Wire.codec) Example.tcp
      (Some (LTCP (TCP.with_flags 24))) [Some (Example.payload [1; 2; 3])] = Ok s'
    /\ tcpState.incoming s' (Some (Example.segment 500 1003 16))
       = Ok (Some (LTCP newIn))
    /\ TCP.AckNum newIn = Some 1003.
Proof.
  destruct (incoming_after_sent (codec := Wire.codec) Example.tcp
              (TCP.with_flags 24)
              (TCP.Build (Some 80) (Some 40000) (Some 500) (Some 1003) (Some 16))
              [Some (Example.payload [1; 2; 3])] 1000 24 16)
    as (s' & newIn & _ & S & I & A & _).
  - reflexivity.
  - lia.
  - reflexivity.
  - reflexivity.
  - reflexivity.
  - exists s', newIn. split; [exact S|]. split; [exact I | exact A].
Defined.

(** ** A frame with something else where the TCP layer belongs *)

(** X10.  On a TCP/IPv4 connection, a frame whose third layer is not a TCP
    layer never matches, whatever is expected; and sending a frame that
    parses to something else than a TCP layer in the third place aborts
    the test, because the TCP state cannot be updated. *)
Theorem frame_without_TCP_layer {codec : LayerCodec} (e : etherState.t) (i : ipv4State.t)
        (ts : tcpState.t) (l0 l1 l2 : option Layer) (rest : Layers) :
  (forall tcp, l2 <> Some (LTCP tcp)) ->
  (forall override,
      match_ (NewTCPIPv4 e i ts) override (l0 :: l1 :: l2 :: rest) = Ok false)
  /\ (forall frame outBytes w,
         ToBytes frame = Some outBytes ->
         parse outBytes = l0 :: l1 :: l2 :: rest ->
         SendFrame (NewTCPIPv4 e i ts) frame w = Fatal CantUpdateState).
Proof.
  intros N.
  assert (I : tcpState.incoming ts l2 = Ok None).
  { destruct l2 as [[?|?|?|tcp|?|?]|]; try reflexivity. destruct (N tcp). reflexivity. }
  assert (S : tcpState.sent ts l2 rest = Err CantUpdateState).
  { destruct l2 as [[?|?|?|tcp|?|?]|]; try reflexivity. destruct (N tcp). reflexivity. }
  split.
  - intros override. unfold match_, incoming.
    cbn [NewTCPIPv4 layerStates List.length Nat.ltb Nat.leb incoming_loop
         layerState_.incoming bind].
    rewrite I. reflexivity.
  - intros frame outBytes w B P. unfold SendFrame. rewrite B, P.
    cbn [NewTCPIPv4 layerStates sentAll layerState_.sent bind fatal_on_error].
    rewrite S. reflexivity.
Qed.

Lemma frame_without_TCP_layer_witness :
  match_ Example.conn (Example.expect_flags 16)
    (Example.remote_frame (Example.payload [1; 2; 3])) = Ok false.
Proof.
  apply (frame_without_TCP_layer (codec := Wire.codec) Example.ether Example.ipv4
           Example.tcp
           (Some (LEther (Ether.Build (Some Example.remote_mac) (Some Example.local_mac))))
           (Some (LIPv4 (IPv4.Build (Some Example.remote_ip) (Some Example.local_ip))))
           (Some (Example.payload [1; 2; 3])) []).
  intros tcp. discriminate.
Defined.

(** ** The handshake without an answer *)

Lemma ExpectFrame_nothing {codec : LayerCodec} (conn : Connection) (layers : Layers)
      (timeout : Z) (w : World) :
  captured w = [] \/ (exists later, captured w = None :: later) ->
  exists err w', ExpectFrame conn layers timeout w = Ok (inr err, conn, w').
Proof.
  intros C. unfold ExpectFrame. destruct (time_Now w) as [t w0] eqn:TN.
  assert (C0 : captured w0 = captured w).
  { unfold time_Now in TN. injection TN as <- <-. reflexivity. }
  destruct (ExpectFrame_loop_deadline (List.length (captured w0)) conn layers
              (t + timeout) [] w0) as (w' & E & _).
  { right. rewrite C0. exact C. }
  rewrite E. eauto.
Qed.

Lemma TCPIPv4_Send_outcome {codec : LayerCodec} (e : etherState.t) (i : ipv4State.t)
      (ts : tcpState.t) (f x : Z) (w : World) :
  sends_as_built codec ->
  tcpState.localSeqNum ts = Some x ->
  0 <= x < seqnum.modulus ->
  0 <= f < 256 ->
  (exists conn' w',
      TCPIPv4_Send (NewTCPIPv4 e i ts) (TCP.with_flags f) [] w = Ok (conn', w'))
  \/ TCPIPv4_Send (NewTCPIPv4 e i ts) (TCP.with_flags f) [] w = Fatal CantBuild.
Proof.
  intros Law L R Rf.
  unfold TCPIPv4_Send, Send, CreateFrame, NewTCPIPv4.
  cbn [layerStates map layerState_.outgoing merge_innermost].
  unfold tcpState.outgoing.
  cbn [mergeLayer bind fatal_on_error app map].
  unfold SendFrame.
  match goal with
  | |- context [ToBytes ?fr] => destruct (ToBytes fr) as [outBytes|] eqn:B
  end; [|right; reflexivity].
  apply (Law _ _ _ f) in B; [|reflexivity|exact Rf].
  destruct B as (l0 & l1 & tcp' & rest & P & F & T).
  rewrite P.
  cbn [layerStates sentAll layerState_.sent bind fatal_on_error].
  rewrite (sent_closed_form ts tcp' rest x f L R F).
  cbn [bind fatal_on_error]. left. eauto.
Qed.

Lemma Send_injects {codec : LayerCodec} (conn conn' : Connection)
      (layer : option Layer) (additionalLayers : Layers) (w w' : World) :
  Send conn layer additionalLayers w = Ok (conn', w') ->
  exists frame outBytes,
    CreateFrame conn layer additionalLayers = Ok frame
    /\ ToBytes frame = Some outBytes
    /\ w' = injector_Send outBytes w.
Proof.
  unfold Send. intros E.
  destruct (CreateFrame conn layer additionalLayers) as [frame| | | |];
    try discriminate E.
  cbn [bind] in E. unfold SendFrame in E.
  destruct (ToBytes frame) as [outBytes|] eqn:B; [|discriminate E].
  destruct (sentAll (layerStates conn) (parse outBytes)); try discriminate E.
  cbn [bind] in E. injection E as <- <-. exists frame, outBytes. auto.
Qed.

Lemma ExpectFrame_injects_nothing {codec : LayerCodec} (conn conn' : Connection)
      (layers : Layers) (timeout : Z) (w w' : World) (r : Layers + expectError) :
  ExpectFrame conn layers timeout w = Ok (r, conn', w') ->
  injected w' = injected w.
Proof.
  unfold ExpectFrame. destruct (time_Now w) as [t w0] eqn:TN.
  assert (K : injected w0 = injected w).
  { unfold time_Now in TN. injection TN as <- <-. reflexivity. }
  intros E. apply ExpectFrame_loop_polls in E.
  destruct E as (polls & _ & _ & _ & I). congruence.
Qed.



(** ** [UDPIPv4.ExpectData] and [UDPIPv4.SendIP] *)

Lemma Layers_match_skip (m : nat) (expected : Layers) :
  forall frame : Layers,
    Layers_match (repeat None m ++ expected) frame = true ->
    Layers_match expected (skipn m frame) = true.
Proof.
  induction m as [|m IH]; intros frame M; [exact M|].
  destruct frame as [|a frame].
  - cbn [repeat app Layers_match] in M. discriminate M.
  - cbn [repeat app Layers_match] in M. apply andb_true_iff in M as [_ M].
    exact (IH _ M).
Qed.

(** X12.  A frame that [UDPIPv4.ExpectData] returns has, at the place of
    the innermost layer state, a layer that agrees with the expected UDP
    layer on every field that was set; and, if the expected payload is not
    empty, the layer after it is a payload that agrees with the expected
    payload.  An empty payload is no expectation at all: what follows the
    UDP layer is then not looked at. *)
Theorem UDPIPv4_ExpectData_sound {codec : LayerCodec} (conn conn' : Connection)
        (udp : UDP.t) (payload : Payload.t) (timeout : Z) (w w' : World)
        (frame : Layers) :
  UDPIPv4_ExpectData conn udp payload timeout w = Ok (inl frame, conn', w') ->
  (exists l, nth_error frame (List.length (layerStates conn) - 1) = Some l
             /\ equalLayer (Some (LUDP udp)) l = true)
  /\ (length (LPayload payload) <> 0 ->
      exists p, nth_error frame (List.length (layerStates conn)) = Some p
                /\ equalLayer (Some (LPayload payload)) p = true)
  /\ (length (LPayload payload) = 0 ->
      ExpectFrame conn
        (repeat None (List.length (layerStates conn) - 1) ++ [Some (LUDP udp)])
        timeout w = Ok (inl frame, conn', w')).
Proof.
  unfold UDPIPv4_ExpectData.
  destruct (layerStates conn) as [|s states] eqn:LS; [discriminate|].
  cbn [List.length innermost_only bind].
  replace (S (List.length states) - 1)%nat with (List.length states) by lia.
  destruct (length (LPayload payload) =? 0) eqn:Z0.
  - intros E. split; [|split].
    + apply ExpectFrame_returns_match in E. destruct E as (M & _).
      exact (Layers_match_innermost _ _ _ M).
    + apply Z.eqb_eq in Z0. intros N. contradiction.
    + intros _. exact E.
  - rewrite <- app_assoc. cbn [app]. intros E.
    apply ExpectFrame_returns_match in E. destruct E as (M & _).
    apply Layers_match_skip in M.
    destruct (skipn (List.length states) frame) as [|l [|p tl]] eqn:SK;
      cbn [Layers_match] in M; try discriminate M;
      [apply andb_true_iff in M as [_ M]; discriminate M|].
    apply andb_true_iff in M as [M1 M2]. apply andb_true_iff in M2 as [M2 _].
    assert (N0 : nth_error frame (List.length states) = Some l).
    { rewrite <- (Nat.add_0_r (List.length states)), <- nth_error_skipn, SK.
      reflexivity. }
    assert (N1 : nth_error frame (S (List.length states)) = Some p).
    { rewrite <- (Nat.add_1_r (List.length states)), <- nth_error_skipn, SK.
      reflexivity. }
    split; [|split].
    + exists l. split; assumption.
    + intros _. exists p. split; assumption.
    + apply Z.eqb_neq in Z0. intros N. contradiction.
Qed.

Lemma UDPIPv4_ExpectData_sound_witness :
  exists p,
    nth_error (WireUDP.parseEther (WireUDP.datagram 53 [104; 105])) 3 = Some p
    /\ equalLayer (Some (Example.payload [104; 105])) p = true.
Proof.
  destruct (UDPIPv4_ExpectData_sound (codec := WireUDP.codec) WireUDP.conn WireUDP.conn
              (UDP.Build (Some 53) None) (Payload.Build (Some [104; 105])) 1000
              (Example.world [Some (WireUDP.datagram 7 [104; 105]);
                              Some (WireUDP.datagram 53 [1]);
                              Some (WireUDP.datagram 53 [104; 105])])
              (BuildWorld 4 (fun _ => 1%N) 4 [] [999; 998; 997] [])
              (WireUDP.parseEther (WireUDP.datagram 53 [104; 105])))
    as (_ & P & _).
  - vm_compute. reflexivity.
  - apply P. vm_compute. discriminate.
Defined.

(** X13.  [UDPIPv4.SendIP] sends the outgoing layers of all layer states
    but the innermost, followed by the given layers; the layer states are
    left as they were when there is no TCP state among them; on a
    connection without layer states it panics. *)
Theorem UDPIPv4_SendIP_frame {codec : LayerCodec} (front : list layerState)
        (s : layerState) (additionalLayers : Layers) (w : World) :
  UDPIPv4_SendIP (BuildConnection (front ++ [s])) additionalLayers w
  = SendFrame (BuildConnection (front ++ [s]))
      (map (fun s' => Some (layerState_.outgoing s')) front ++ additionalLayers) w
  /\ UDPIPv4_SendIP (BuildConnection []) additionalLayers w = Panic
  /\ (forallb stateless (front ++ [s]) = true ->
      forall conn' w',
        UDPIPv4_SendIP (BuildConnection (front ++ [s])) additionalLayers w
        = Ok (conn', w') ->
        conn' = BuildConnection (front ++ [s])
        /\ exists outBytes,
            ToBytes (map (fun s' => Some (layerState_.outgoing s')) front
                       ++ additionalLayers) = Some outBytes
            /\ injected w' = injected w ++ [outBytes]).
Proof.
  assert (E : UDPIPv4_SendIP (BuildConnection (front ++ [s])) additionalLayers w
              = SendFrame (BuildConnection (front ++ [s]))
                  (map (fun s' => Some (layerState_.outgoing s')) front
                     ++ additionalLayers) w).
  { unfold UDPIPv4_SendIP. cbn [layerStates].
    destruct (front ++ [s]) eqn:F; [destruct front; discriminate F|].
    rewrite <- F, removelast_last. reflexivity. }
  split; [exact E|]. split; [reflexivity|].
  intros SL conn' w' S. rewrite E in S. split.
  - exact (SendFrame_stateless (BuildConnection (front ++ [s])) _ _ _ _ SL S).
  - unfold SendFrame in S. destruct (ToBytes _) as [outBytes|]; [|discriminate S].
    exists outBytes. split; [reflexivity|].
    destruct (sentAll _ _); try discriminate S. cbn [bind] in S.
    injection S as _ <-. reflexivity.
Qed.

Lemma UDPIPv4_SendIP_frame_witness :
  exists conn' w',
    UDPIPv4_SendIP (codec := WireUDP.codec) WireUDP.conn
      [Some (Example.payload [1; 2; 3])] (Example.world []) = Ok (conn', w')
    /\ conn' = WireUDP.conn.
Proof.
  destruct (UDPIPv4_SendIP_frame (codec := WireUDP.codec)
              [EtherSt Example.ether; IPv4St Example.ipv4] (UDPSt WireUDP.udp)
              [Some (Example.payload [1; 2; 3])] (Example.world []))
    as (_ & _ & U).
  specialize (U eq_refl).
  eexists. eexists. split; [vm_compute; reflexivity|].
  refine (proj1 (U _ _ _)). vm_compute. reflexivity.
Defined.

(** ** [Connection.Close] *)

Lemma close_states_all (closes : Z -> bool) (states : list layerState) :
  fst (Closing.close_states closes states)
  = map (fun s => fst (Closing.close closes s)) states
  /\ snd (Closing.close_states closes states)
     = List.length (filter (fun s => negb (snd (Closing.close closes s))) states).
Proof.
  induction states as [|s states [IH1 IH2]]; [split; reflexivity|].
  cbn [Closing.close_states map filter].
  destruct (Closing.close closes s) as [s' ok].
  destruct (Closing.close_states closes states) as [rest errs].
  cbn [fst snd] in *. subst rest errs.
  destruct ok; split; reflexivity.
Qed.

Lemma close_descriptor (closes : Z -> bool) (s : layerState) :
  match Closing.descriptor s with
  | None => Closing.close closes s = (s, true)
  | Some fd =>
      snd (Closing.close closes s) = closes fd
      /\ Closing.descriptor (fst (Closing.close closes s))
         = Some (if closes fd then -1 else fd)
  end.
Proof.
  destruct s as [?|?|?|t|u]; cbn; try reflexivity.
  - unfold Closing.tcpState_close. destruct (closes (tcpState.portPickerFD t));
      split; reflexivity.
  - unfold Closing.udpState_close. destruct (closes (udpState.portPickerFD u));
      split; reflexivity.
Qed.

(** X14.  [Connection.Close] goes through all the layer states whatever
    fails on the way: every state whose descriptor the system closes ends
    with the descriptor -1, also when the sniffer, the injector or other
    states failed to close, and the states that hold no descriptor are left
    as they were.  No error is collected exactly when the sniffer and the
    injector closed and the system closed every descriptor. *)
Theorem Close_collects (snifferCloses injectorCloses : bool) (closes : Z -> bool)
        (conn : Connection) :
  layerStates (fst (Closing.Close snifferCloses injectorCloses closes conn))
  = map (fun s => fst (Closing.close closes s)) (layerStates conn)
  /\ (forall s fd,
         In s (layerStates conn) -> Closing.descriptor s = Some fd -> closes fd = true ->
         Closing.descriptor (fst (Closing.close closes s)) = Some (-1))
  /\ (forall s,
         Closing.descriptor s = None -> fst (Closing.close closes s) = s)
  /\ (snd (Closing.Close snifferCloses injectorCloses closes conn) = O
      <-> snifferCloses = true /\ injectorCloses = true
          /\ forall s fd,
               In s (layerStates conn) -> Closing.descriptor s = Some fd ->
               closes fd = true).
Proof.
  unfold Closing.Close.
  destruct (close_states_all closes (layerStates conn)) as [A B].
  destruct (Closing.close_states closes (layerStates conn)) as [states more].
  cbn [fst snd layerStates] in *. subst states more.
  split; [reflexivity|]. split; [|split].
  - intros s fd _ D C. pose proof (close_descriptor closes s) as K.
    rewrite D in K. destruct K as [_ K]. rewrite K, C. reflexivity.
  - intros s D. pose proof (close_descriptor closes s) as K.
    rewrite D in K. rewrite K. reflexivity.
  - assert (F : List.length (filter (fun s => negb (snd (Closing.close closes s)))
                               (layerStates conn)) = O
                <-> forall s fd, In s (layerStates conn) ->
                                 Closing.descriptor s = Some fd -> closes fd = true).
    { induction (layerStates conn) as [|s states IH]; cbn [filter].
      - split; [intros _ s fd []|reflexivity].
      - pose proof (close_descriptor closes s) as K.
        destruct (Closing.descriptor s) as [fd|] eqn:D.
        + destruct K as [K _]. rewrite K. destruct (closes fd) eqn:C; cbn [negb].
          * rewrite IH. split.
            -- intros H s' fd' [<-|I] D'; [congruence | eauto].
            -- intros H s' fd' I. apply H. right. exact I.
          * split; [discriminate|]. intros H.
            specialize (H s fd (or_introl eq_refl) D). congruence.
        + rewrite K. cbn [snd negb]. rewrite IH. split.
          * intros H s' fd' [<-|I] D'; [congruence | eauto].
          * intros H s' fd' I. apply H. right. exact I. }
    rewrite <- F. destruct snifferCloses, injectorCloses; cbn; split;
      try discriminate; try (intros (? & ? & ?); discriminate);
      try (intros H; repeat split; exact H); intros (_ & _ & H); exact H.
Qed.

(** X15.  A connection can be closed once only: after a [Close] without
    error every descriptor is -1, which the system does not close, so that
    a second [Close] collects one error for each TCP or UDP state. *)
Theorem Close_twice (closes : Z -> bool) (conn : Connection) :
  closes (-1) = false ->
  snd (Closing.Close true true closes conn) = O ->
  snd (Closing.Close true true closes (fst (Closing.Close true true closes conn)))
  = List.length (filter (fun s => match Closing.descriptor s with
                                  | Some _ => true
                                  | None => false
                                  end) (layerStates conn)).
Proof.
  intros Bad. unfold Closing.Close.
  destruct (close_states_all closes (layerStates conn)) as [A B].
  destruct (Closing.close_states closes (layerStates conn)) as [states more].
  cbn [fst snd layerStates] in *. subst states more. cbn [Nat.add].
  destruct (close_states_all closes
              (map (fun s => fst (Closing.close closes s)) (layerStates conn)))
    as [_ B2].
  destruct (Closing.close_states closes
              (map (fun s => fst (Closing.close closes s)) (layerStates conn)))
    as [states2 more2].
  cbn [fst snd] in *. subst more2.
  induction (layerStates conn) as [|s states IH]; intros E; [reflexivity|].
  cbn [map filter] in *.
  pose proof (close_descriptor closes s) as K.
  destruct (Closing.descriptor s) as [fd|] eqn:D.
  - destruct K as [K1 K2]. rewrite K1 in E.
    destruct (closes fd) eqn:C; cbn [negb] in E; [|discriminate E].
    pose proof (close_descriptor closes (fst (Closing.close closes s))) as K'.
    rewrite K2 in K'. destruct K' as [K' _]. rewrite K', Bad. cbn [negb List.length].
    rewrite (IH E). reflexivity.
  - rewrite K in *. cbn [fst snd negb] in *. rewrite K. cbn [snd negb].
    exact (IH E).
Qed.

Lemma Close_twice_witness :
  snd (Closing.Close true true (fun fd => 0 <=? fd)
         (fst (Closing.Close true true (fun fd => 0 <=? fd) Example.conn)))
  = 1%nat.
Proof.
  apply (Close_twice (fun fd => 0 <=? fd) Example.conn); reflexivity.
Defined.

(** ** Package netdevs *)

(** X16.  [MACToIP] needs six bytes of MAC and panics on fewer.  Its
    result is a 16-byte address in fe80::/64 whose last eight bytes are the
    first three bytes of the MAC, ff fe, and the next three bytes, each
    byte copied as it is; two MACs give the same address only if their
    first six bytes are the same. *)
Theorem MACToIP_link_local (mac : netdevs.HardwareAddr) :
  ((List.length mac < 6)%nat -> netdevs.MACToIP mac = Panic)
  /\ ((6 <= List.length mac)%nat ->
      exists ip,
        netdevs.MACToIP mac = Ok ip
        /\ List.length ip = 16%nat
        /\ firstn 8 ip = [254; 128; 0; 0; 0; 0; 0; 0]
        /\ skipn 8 ip
           = firstn 3 mac ++ [255; 254] ++ firstn 3 (skipn 3 mac)
        /\ forall mac',
             netdevs.MACToIP mac' = Ok ip -> firstn 6 mac' = firstn 6 mac).
Proof.
  split.
  - intros L. destruct mac as [|? [|? [|? [|? [|? [|? ?]]]]]]; try reflexivity.
    cbn in L. lia.
  - intros L. destruct mac as [|m0 [|m1 [|m2 [|m3 [|m4 [|m5 tl]]]]]];
      try (cbn in L; lia).
    eexists. split; [reflexivity|]. repeat split.
    intros mac' E.
    destruct mac' as [|n0 [|n1 [|n2 [|n3 [|n4 [|n5 tl']]]]]]; try discriminate E.
    cbn in E. injection E as -> -> -> -> -> ->. reflexivity.
Qed.

Lemma MACToIP_link_local_witness :
  exists ip,
    netdevs.MACToIP [2; 0; 0; 0; 0; 1] = Ok ip
    /\ skipn 8 ip = [2; 0; 0; 255; 254; 0; 0; 1].
Proof.
  destruct (MACToIP_link_local [2; 0; 0; 0; 0; 1]) as [_ H].
  destruct H as (ip & E & _ & _ & S & _); [cbn; lia|].
  exists ip. split; [exact E | exact S].
Defined.

Lemma FindDeviceByIP_found (Equal : netdevs.IP -> netdevs.IP -> bool) (ip : netdevs.IP)
      (devices : list (String.string * netdevs.DeviceInfo)) :
  match netdevs.FindDeviceByIP Equal ip devices with
  | Some (dev, info) =>
      In (dev, info) devices /\ Equal (netdevs.IPv4Addr info) ip = true
  | None =>
      forall dev info, In (dev, info) devices ->
                       Equal (netdevs.IPv4Addr info) ip = false
  end.
Proof.
  induction devices as [|[dev info] rest IH]; cbn [netdevs.FindDeviceByIP].
  - intros dev info [].
  - destruct (Equal (netdevs.IPv4Addr info) ip) eqn:E.
    + split; [left; reflexivity | exact E].
    + destruct (netdevs.FindDeviceByIP Equal ip rest) as [[d i]|].
      * destruct IH as [I Q]. split; [right; exact I | exact Q].
      * intros d i [X|I]; [injection X as <- <-; exact E | eauto].
Qed.

(** X17.  [FindDeviceByIP] returns a device of the map whose IPv4 address
    equals the given one, and the error exactly when no device of the map
    has that address; whether it finds one does not depend on the order in
    which the map is visited, and when one device only has the address, that
    device is returned in every order. *)
Theorem FindDeviceByIP_any_order (Equal : netdevs.IP -> netdevs.IP -> bool)
        (ip : netdevs.IP) (devices visited : list (String.string * netdevs.DeviceInfo)) :
  Permutation devices visited ->
  (forall dev info,
      netdevs.FindDeviceByIP Equal ip visited = Some (dev, info) ->
      In (dev, info) devices /\ Equal (netdevs.IPv4Addr info) ip = true)
  /\ (netdevs.FindDeviceByIP Equal ip visited = None <->
      forall dev info, In (dev, info) devices ->
                       Equal (netdevs.IPv4Addr info) ip = false)
  /\ (forall dev info,
         In (dev, info) devices ->
         Equal (netdevs.IPv4Addr info) ip = true ->
         (forall dev' info',
             In (dev', info') devices ->
             Equal (netdevs.IPv4Addr info') ip = true ->
             (dev', info') = (dev, info)) ->
         netdevs.FindDeviceByIP Equal ip visited = Some (dev, info)).
Proof.
  intros P. pose proof (FindDeviceByIP_found Equal ip visited) as F.
  assert (In_iff : forall x, In x devices <-> In x visited).
  { intros x. split; apply Permutation_in; [exact P | symmetry; exact P]. }
  split; [|split].
  - intros dev info E. rewrite E in F. destruct F as [I Q].
    split; [apply In_iff; exact I | exact Q].
  - destruct (netdevs.FindDeviceByIP Equal ip visited) as [[d i]|].
    + destruct F as [I Q]. split; [discriminate|].
      intros H. apply In_iff in I. rewrite (H _ _ I) in Q. discriminate Q.
    + split; [|reflexivity]. intros _ dev info I. apply (F dev info).
      apply In_iff. exact I.
  - intros dev info I Q U.
    destruct (netdevs.FindDeviceByIP Equal ip visited) as [[d i]|].
    + destruct F as [I' Q']. apply In_iff in I'. rewrite (U _ _ I' Q'). reflexivity.
    + apply In_iff in I. rewrite (F dev info I) in Q. discriminate Q.
Qed.

Lemma FindDeviceByIP_any_order_witness :
  netdevs.FindDeviceByIP (fun a b => Z_list_eqb a b) [10; 0; 0; 1]
    [("eth1"%string,
      netdevs.BuildDeviceInfo [2; 0; 0; 0; 0; 2] [10; 0; 0; 2] None [] None);
     ("eth0"%string,
      netdevs.BuildDeviceInfo [2; 0; 0; 0; 0; 1] [10; 0; 0; 1] None [] None)]
  = Some ("eth0"%string,
          netdevs.BuildDeviceInfo [2; 0; 0; 0; 0; 1] [10; 0; 0; 1] None [] None).
Proof.
  destruct (FindDeviceByIP_any_order (fun a b => Z_list_eqb a b) [10; 0; 0; 1]
              [("eth0"%string,
                netdevs.BuildDeviceInfo [2; 0; 0; 0; 0; 1] [10; 0; 0; 1] None [] None);
               ("eth1"%string,
                netdevs.BuildDeviceInfo [2; 0; 0; 0; 0; 2] [10; 0; 0; 2] None [] None)]
              [("eth1"%string,
                netdevs.BuildDeviceInfo [2; 0; 0; 0; 0; 2] [10; 0; 0; 2] None [] None);
               ("eth0"%string,
                netdevs.BuildDeviceInfo [2; 0; 0; 0; 0; 1] [10; 0; 0; 1] None [] None)])
    as (_ & _ & U).
  - apply perm_swap.
  - apply U.
    + left. reflexivity.
    + reflexivity.
    + intros dev' info' [X|[X|[]]] Q; [exact (eq_sym X)|].
      injection X as <- <-. vm_compute in Q. discriminate Q.
Defined.

Section ParseDevicesFacts.

Variable ParseMAC : String.string -> option netdevs.HardwareAddr.
Variable ParseCIDR : String.string -> option (netdevs.IP * netdevs.IPNet).
Variables deviceLine linkLine inetLine inet6Line : String.string -> option String.string.

Local Abbreviation parse_lines :=
  (netdevs.parse_lines ParseMAC ParseCIDR deviceLine linkLine inetLine inet6Line).
Local Abbreviation ParseDevices :=
  (netdevs.ParseDevices ParseMAC ParseCIDR deviceLine linkLine inetLine inet6Line).
Local Abbreviation bad_address :=
  (netdevs.bad_address ParseMAC ParseCIDR deviceLine linkLine inetLine inet6Line).

Lemma flush_keys (cur : String.string) (info : netdevs.DeviceInfo)
      (m : netdevs.DeviceMap) (k : String.string) :
  netdevs.flush cur info m k <> None
  <-> m k <> None \/ (k = cur /\ cur <> String.EmptyString).
Proof.
  unfold netdevs.flush, netdevs.store.
  destruct (String.eqb cur String.EmptyString) eqn:E0.
  - apply String.eqb_eq in E0. split; [auto|]. intros [H|[_ H]]; [exact H|contradiction].
  - apply String.eqb_neq in E0. destruct (String.eqb cur k) eqn:E.
    + apply String.eqb_eq in E. split; [|discriminate]. intros _. right. auto.
    + apply String.eqb_neq in E. split; [auto|].
      intros [H|[H _]]; [exact H | congruence].
Qed.

Lemma parse_lines_keys (lines : list String.string) :
  forall (cur : String.string) (info : netdevs.DeviceInfo) (m m' : netdevs.DeviceMap),
    parse_lines lines cur info m = Some m' ->
    forall k,
      m' k <> None
      <-> m k <> None
          \/ (k = cur /\ cur <> String.EmptyString)
          \/ (k <> String.EmptyString
              /\ exists line, In line lines /\ deviceLine line = Some k).
Proof.
  induction lines as [|line rest IH]; intros cur info m m' E k.
  - cbn in E. injection E as <-. rewrite flush_keys. split.
    + intros [H|H]; auto.
    + intros [H|[H|(_ & l & [] & _)]]; auto.
  - assert (Later : forall c i m0,
               netdevs.parse_lines ParseMAC ParseCIDR deviceLine linkLine inetLine
                 inet6Line rest c i m0 = Some m' ->
               deviceLine line = None ->
               c = cur -> m0 = m ->
               m' k <> None
               <-> m k <> None
                   \/ (k = cur /\ cur <> String.EmptyString)
                   \/ (k <> String.EmptyString
                       /\ exists l, In l (line :: rest) /\ deviceLine l = Some k)).
    { intros c i m0 E' D -> ->. rewrite (IH _ _ _ _ E' k). split.
      - intros [H|[H|(N & l & I & Q)]]; auto.
        right. right. split; [exact N|]. exists l. split; [right; exact I | exact Q].
      - intros [H|[H|(N & l & [<-|I] & Q)]]; auto; [congruence|].
        right. right. split; [exact N|]. exists l. split; assumption. }
    cbn [netdevs.parse_lines] in E.
    destruct (deviceLine line) as [name|] eqn:D.
    + rewrite (IH _ _ _ _ E k), flush_keys. split.
      * intros [[H|H]|[[-> H]|(N & l & I & Q)]]; auto.
        -- right. right. split; [exact H|]. exists line. split; [left; reflexivity|exact D].
        -- right. right. split; [exact N|]. exists l. split; [right; exact I | exact Q].
      * intros [H|[H|(N & l & [<-|I] & Q)]]; auto.
        -- right. left. split; congruence.
        -- right. right. split; [exact N|]. exists l. split; assumption.
    + destruct (linkLine line) as [a|].
      { destruct (ParseMAC a); [|discriminate E]. eapply Later; eauto. }
      destruct (inetLine line) as [a|].
      { destruct (ParseCIDR a) as [[? ?]|]; [|discriminate E]. eapply Later; eauto. }
      destruct (inet6Line line) as [a|].
      { destruct (ParseCIDR a) as [[? ?]|]; [|discriminate E]. eapply Later; eauto. }
      eapply Later; eauto.
Qed.

(** X18.  The devices in the map that [ParseDevices] returns are the names
    found by the device lines of the input, but for the empty name: each
    device line makes an entry, also when no line with an address follows
    it, and the lines before the first device line make none. *)
Theorem ParseDevices_keys (lines : list String.string) (devices : netdevs.DeviceMap)
        (k : String.string) :
  ParseDevices lines = Some devices ->
  (devices k <> None
   <-> k <> String.EmptyString
       /\ exists line, In line lines /\ deviceLine line = Some k).
Proof.
  intros E. unfold netdevs.ParseDevices in E.
  rewrite (parse_lines_keys lines _ _ _ _ E k). unfold netdevs.no_devices. split.
  - intros [H|[[_ H]|H]]; [congruence | congruence | exact H].
  - auto.
Qed.

Lemma parse_lines_bad_address (lines : list String.string) (line : String.string) :
  In line lines ->
  bad_address line = true ->
  forall cur info m, parse_lines lines cur info m = None.
Proof.
  unfold netdevs.bad_address.
  induction lines as [|l rest IH]; intros I B cur info m; [destruct I|].
  cbn [netdevs.parse_lines].
  destruct I as [->|I].
  - destruct (deviceLine line); [discriminate B|].
    destruct (linkLine line) as [a|]; [destruct (ParseMAC a); [discriminate B|reflexivity]|].
    destruct (inetLine line) as [a|];
      [destruct (ParseCIDR a) as [[? ?]|]; [discriminate B|reflexivity]|].
    destruct (inet6Line line) as [a|];
      [destruct (ParseCIDR a) as [[? ?]|]; [discriminate B|reflexivity]|].
    discriminate B.
  - specialize (IH I B).
    destruct (deviceLine l); [apply IH|].
    destruct (linkLine l) as [a|]; [destruct (ParseMAC a); [apply IH|reflexivity]|].
    destruct (inetLine l) as [a|];
      [destruct (ParseCIDR a) as [[? ?]|]; [apply IH|reflexivity]|].
    destruct (inet6Line l) as [a|];
      [destruct (ParseCIDR a) as [[? ?]|]; [apply IH|reflexivity]|].
    apply IH.
Qed.

(** X19.  One line with an address that its parser rejects makes
    [ParseDevices] fail as a whole, wherever the line stands: also before
    the first device line, where its content would not be kept. *)
Theorem ParseDevices_bad_address (lines : list String.string) (line : String.string) :
  In line lines ->
  bad_address line = true ->
  ParseDevices lines = None.
Proof.
  intros I B. apply (parse_lines_bad_address lines line I B).
Qed.

Lemma parse_lines_before_device (pre rest : list String.string) (line name : String.string) :
  deviceLine line = Some name ->
  Forall (fun l => deviceLine l = None /\ bad_address l = false) pre ->
  forall info m,
    parse_lines (pre ++ line :: rest) String.EmptyString info m
    = parse_lines rest name netdevs.no_info m.
Proof.
  unfold netdevs.bad_address. intros D.
  induction pre as [|l pre IH]; intros F info m.
  - cbn [app netdevs.parse_lines]. rewrite D. reflexivity.
  - inversion F as [|? ? [N B] F']; subst.
    cbn [app netdevs.parse_lines]. rewrite N in *.
    destruct (linkLine l) as [a|];
      [destruct (ParseMAC a); [apply (IH F')|discriminate B]|].
    destruct (inetLine l) as [a|];
      [destruct (ParseCIDR a) as [[? ?]|]; [apply (IH F')|discriminate B]|].
    destruct (inet6Line l) as [a|];
      [destruct (ParseCIDR a) as [[? ?]|]; [apply (IH F')|discriminate B]|].
    apply (IH F').
Qed.

(** X20.  What stands before the first device line is lost: the addresses
    of such lines, though they are parsed, do not reach any device. *)
Theorem ParseDevices_before_first_device (pre rest : list String.string)
        (line name : String.string) :
  deviceLine line = Some name ->
  Forall (fun l => deviceLine l = None /\ bad_address l = false) pre ->
  ParseDevices (pre ++ line :: rest) = ParseDevices (line :: rest).
Proof.
  intros D F. unfold netdevs.ParseDevices.
  rewrite (parse_lines_before_device pre rest line name D F).
  symmetry. apply (parse_lines_before_device [] rest line name D). constructor.
Qed.

End ParseDevicesFacts.

Lemma ParseDevices_keys_witness :
  exists devices,
    DevicesExample.ParseDevices
      ["link aa"; "dev lo"; "dev eth0"; "link aa"; "inet 10.0.0.1/24"]%string
    = Some devices
    /\ devices "lo"%string <> None
    /\ devices "eth0"%string <> None.
Proof.
  eexists. split; [reflexivity|].
  split.
  - apply (ParseDevices_keys DevicesExample.ParseMAC DevicesExample.ParseCIDR
             DevicesExample.deviceLine DevicesExample.linkLine DevicesExample.inetLine
             DevicesExample.inet6Line
             ["link aa"; "dev lo"; "dev eth0"; "link aa"; "inet 10.0.0.1/24"]%string
             _ "lo"%string eq_refl).
    split; [discriminate|]. exists "dev lo"%string. split; [cbn; auto | reflexivity].
  - apply (ParseDevices_keys DevicesExample.ParseMAC DevicesExample.ParseCIDR
             DevicesExample.deviceLine DevicesExample.linkLine DevicesExample.inetLine
             DevicesExample.inet6Line
             ["link aa"; "dev lo"; "dev eth0"; "link aa"; "inet 10.0.0.1/24"]%string
             _ "eth0"%string eq_refl).
    split; [discriminate|]. exists "dev eth0"%string. split; [cbn; auto | reflexivity].
Defined.

Lemma ParseDevices_bad_address_witness :
  DevicesExample.ParseDevices ["inet bad"; "dev eth0"; "link aa"]%string = None.
Proof.
  apply (ParseDevices_bad_address DevicesExample.ParseMAC DevicesExample.ParseCIDR
           DevicesExample.deviceLine DevicesExample.linkLine DevicesExample.inetLine
           DevicesExample.inet6Line
           ["inet bad"; "dev eth0"; "link aa"]%string "inet bad"%string).
  - left. reflexivity.
  - reflexivity.
Defined.

Lemma ParseDevices_before_first_device_witness :
  DevicesExample.ParseDevices ["link aa"; "inet 10.0.0.1/24"; "dev eth0"]%string
  = DevicesExample.ParseDevices ["dev eth0"]%string.
Proof.
  apply (ParseDevices_before_first_device DevicesExample.ParseMAC
           DevicesExample.ParseCIDR
           DevicesExample.deviceLine DevicesExample.linkLine DevicesExample.inetLine
           DevicesExample.inet6Line
           ["link aa"; "inet 10.0.0.1/24"]%string [] "dev eth0"%string "eth0"%string).
  - reflexivity.
  - repeat constructor.
Defined.

(** ** The offset of a host file description *)

Lemma int64_small (z : Z) :
  host.MinInt64 <= z <= host.MaxInt64 -> host.int64 z = z.
Proof.
  unfold host.int64, host.MinInt64, host.MaxInt64. intros R.
  rewrite Z.mod_small by lia. lia.
Qed.

Lemma int64_range (z : Z) :
  host.MinInt64 <= host.int64 z <= host.MaxInt64.
Proof.
  unfold host.int64, host.MinInt64, host.MaxInt64.
  pose proof (Z.mod_pos_bound (z + 2 ^ 63) (2 ^ 64) ltac:(lia)). lia.
Qed.

Section HostFacts.

Variables SEEK_SET SEEK_CUR SEEK_END SEEK_DATA SEEK_HOLE : Z.
Variable Fstat_Size : Z -> Z + host.error.
Variable unix_Seek : Z -> Z -> Z -> Z + host.error.
Variable host_read : Z -> Z -> Z * option host.error.
Variable host_write : Z -> Z -> Z * option host.error.
Variable isBlockError : option host.error -> bool.

Local Abbreviation Seek :=
  (host.Seek SEEK_SET SEEK_CUR SEEK_END SEEK_DATA SEEK_HOLE Fstat_Size unix_Seek).
Local Abbreviation perform :=
  (host.perform SEEK_SET SEEK_CUR SEEK_END SEEK_DATA SEEK_HOLE Fstat_Size unix_Seek
     host_read host_write isBlockError).
Local Abbreviation perform_all :=
  (host.perform_all SEEK_SET SEEK_CUR SEEK_END SEEK_DATA SEEK_HOLE Fstat_Size unix_Seek
     host_read host_write isBlockError).

(** What a relative seek does with the base [base] (the current offset
    or the size) in the integers. *)
Lemma relative_seek (i : host.inode) (base o : Z) :
  0 <= base <= host.MaxInt64 ->
  host.MinInt64 <= o <= host.MaxInt64 ->
  (if o >? host.int64 (host.MaxInt64 - base)
   then (i, host.offset i, Some host.EOVERFLOW)
   else if host.int64 (base + o) <? 0 then (i, host.offset i, Some host.EINVAL)
        else (host.set_offset i (host.int64 (base + o)), host.int64 (base + o), None))
  = (if base + o >? host.MaxInt64 then (i, host.offset i, Some host.EOVERFLOW)
     else if base + o <? 0 then (i, host.offset i, Some host.EINVAL)
          else (host.set_offset i (base + o), base + o, None)).
Proof.
  intros B O. rewrite (int64_small (host.MaxInt64 - base))
    by (unfold host.MinInt64, host.MaxInt64 in *; lia).
  destruct (o >? host.MaxInt64 - base) eqn:E1;
    destruct (base + o >? host.MaxInt64) eqn:E2;
    try reflexivity;
    try (apply Z.gtb_lt in E1); try (apply Z.gtb_lt in E2);
    try (rewrite Z.gtb_ltb in E1; apply Z.ltb_ge in E1);
    try (rewrite Z.gtb_ltb in E2; apply Z.ltb_ge in E2);
    try lia.
  rewrite (int64_small (base + o))
    by (unfold host.MinInt64, host.MaxInt64 in *; lia).
  reflexivity.
Qed.

(** X21.  A seek relative to the current offset or to the end of the file
    is decided in the integers, without wrap-around: when the sum of the
    base and the offset is above the largest [int64] the error is
    EOVERFLOW, when it is negative the error is EINVAL, and the file offset
    stays as it was; otherwise the file offset becomes the sum, which is
    returned. *)
Theorem Seek_relative_exact (i : host.inode) (o size : Z) :
  SEEK_CUR <> SEEK_SET ->
  SEEK_END <> SEEK_SET ->
  SEEK_END <> SEEK_CUR ->
  host.seekable i = true ->
  0 <= host.offset i <= host.MaxInt64 ->
  host.MinInt64 <= o <= host.MaxInt64 ->
  Seek i o SEEK_CUR
  = (if host.offset i + o >? host.MaxInt64 then (i, host.offset i, Some host.EOVERFLOW)
     else if host.offset i + o <? 0 then (i, host.offset i, Some host.EINVAL)
          else (host.set_offset i (host.offset i + o), host.offset i + o, None))
  /\ (Fstat_Size (host.hostFD i) = inl size ->
      0 <= size <= host.MaxInt64 ->
      Seek i o SEEK_END
      = (if size + o >? host.MaxInt64 then (i, host.offset i, Some host.EOVERFLOW)
         else if size + o <? 0 then (i, host.offset i, Some host.EINVAL)
              else (host.set_offset i (size + o), size + o, None))).
Proof.
  intros D1 D2 D3 S B O. unfold host.Seek. rewrite S. cbn [negb].
  apply Z.eqb_neq in D1, D2, D3. rewrite D1, D2, D3, !Z.eqb_refl.
  split.
  - apply relative_seek; assumption.
  - intros F Sz. rewrite F. apply relative_seek; assumption.
Qed.

(** X22.  [Seek] keeps the file offset within 0 and the largest [int64],
    whatever the offset and the whence are, as long as the host reports
    sizes and positions in that range; an error leaves the inode as it
    was; and the value returned for a seekable file is the file offset
    after the call. *)
Theorem Seek_keeps_offset (i : host.inode) (o whence : Z) :
  0 <= host.offset i <= host.MaxInt64 ->
  host.MinInt64 <= o <= host.MaxInt64 ->
  (forall fd size, Fstat_Size fd = inl size -> 0 <= size <= host.MaxInt64) ->
  (forall fd o' w n, unix_Seek fd o' w = inl n -> 0 <= n <= host.MaxInt64) ->
  0 <= host.offset (fst (fst (Seek i o whence))) <= host.MaxInt64
  /\ host.hostFD (fst (fst (Seek i o whence))) = host.hostFD i
  /\ host.seekable (fst (fst (Seek i o whence))) = host.seekable i
  /\ (snd (Seek i o whence) <> None -> fst (fst (Seek i o whence)) = i)
  /\ (host.seekable i = true ->
      snd (fst (Seek i o whence)) = host.offset (fst (fst (Seek i o whence)))).
Proof.
  intros B O HF HS. unfold host.Seek.
  assert (Rel : forall base,
             0 <= base <= host.MaxInt64 ->
             let r := if o >? host.int64 (host.MaxInt64 - base)
                      then (i, host.offset i, Some host.EOVERFLOW)
                      else if host.int64 (base + o) <? 0
                           then (i, host.offset i, Some host.EINVAL)
                           else (host.set_offset i (host.int64 (base + o)),
                                 host.int64 (base + o), None) in
             0 <= host.offset (fst (fst r)) <= host.MaxInt64
             /\ host.hostFD (fst (fst r)) = host.hostFD i
             /\ host.seekable (fst (fst r)) = host.seekable i
             /\ (snd r <> None -> fst (fst r) = i)
             /\ (host.seekable i = true -> snd (fst r) = host.offset (fst (fst r)))).
  { intros base Bb r. subst r. rewrite (relative_seek i base o Bb O).
    destruct (base + o >? host.MaxInt64) eqn:E1; [cbn; repeat split; try reflexivity; try assumption; try (unfold host.MaxInt64, host.MinInt64 in *; lia); try (intro; congruence)|].
    destruct (base + o <? 0) eqn:E2; [cbn; repeat split; try reflexivity; try assumption; try (unfold host.MaxInt64, host.MinInt64 in *; lia); try (intro; congruence)|].
    rewrite Z.gtb_ltb in E1. apply Z.ltb_ge in E1, E2.
    cbn; repeat split; try reflexivity; try assumption;
      try (unfold host.MaxInt64, host.MinInt64 in *; lia); try (intro; congruence). }
  destruct (host.seekable i) eqn:S; cbn [negb].
  2:{ cbn; repeat split; try reflexivity; try assumption;
      try (unfold host.MaxInt64, host.MinInt64 in *; lia); try (intro; congruence). }
  destruct (whence =? SEEK_SET).
  { destruct (o <? 0) eqn:E; [cbn; repeat split; try reflexivity; try assumption; try (unfold host.MaxInt64, host.MinInt64 in *; lia); try (intro; congruence)|]. apply Z.ltb_ge in E.
    cbn; repeat split; try reflexivity; try assumption;
      try (unfold host.MaxInt64, host.MinInt64 in *; lia); try (intro; congruence). }
  destruct (whence =? SEEK_CUR); [apply Rel; exact B|].
  destruct (whence =? SEEK_END).
  { destruct (Fstat_Size (host.hostFD i)) as [size|err] eqn:F; [|cbn; repeat split; try reflexivity; try assumption; try (unfold host.MaxInt64, host.MinInt64 in *; lia); try (intro; congruence)].
    apply Rel. exact (HF _ _ F). }
  destruct ((whence =? SEEK_DATA) || (whence =? SEEK_HOLE)); [|cbn; repeat split; try reflexivity; try assumption; try (unfold host.MaxInt64, host.MinInt64 in *; lia); try (intro; congruence)].
  destruct (unix_Seek (host.hostFD i) o whence) as [n|err] eqn:U; [|cbn; repeat split; try reflexivity; try assumption; try (unfold host.MaxInt64, host.MinInt64 in *; lia); try (intro; congruence)].
  pose proof (HS _ _ _ _ U).
  cbn; repeat split; try reflexivity; try assumption;
      try (unfold host.MaxInt64, host.MinInt64 in *; lia); try (intro; congruence).
Qed.

Lemma perform_not_seekable (i : host.inode) (op : host.operation) :
  host.seekable i = false ->
  fst (fst (perform i op)) = i.
Proof.
  intros S. destruct op; cbn [host.perform];
    unfold host.Seek, host.Read, host.Write, host.PRead, host.PWrite;
    rewrite S; cbn [negb]; try reflexivity.
  - destruct (host.readFromHostFD host_read (host.hostFD i) (-1) flags) as [n err].
    destruct (isBlockError err); reflexivity.
  - destruct (host.writeToHostFD host_write (host.hostFD i) (-1) flags) as [n err].
    destruct (isBlockError err); reflexivity.
Qed.

(** X23.  The offset of a file that is not seekable (a socket, a pipe) is
    never moved: whatever sequence of seeks, reads and writes, positioned
    or not, is performed, the inode is as it was; every seek and every
    positioned read or write on it fails with ESPIPE and does not reach the
    host. *)
Theorem not_seekable_offset_fixed (i : host.inode) (ops : list host.operation) :
  host.seekable i = false ->
  perform_all i ops = i
  /\ (forall o w, perform i (host.OpSeek o w) = (i, 0, Some host.ESPIPE))
  /\ (forall o f, perform i (host.OpPRead o f) = (i, 0, Some host.ESPIPE))
  /\ (forall o f, perform i (host.OpPWrite o f) = (i, 0, Some host.ESPIPE)).
Proof.
  intros S. split.
  - unfold host.perform_all. induction ops as [|op ops IH]; [reflexivity|].
    cbn [fold_left]. rewrite (perform_not_seekable i op S). exact IH.
  - repeat split; intros; cbn [host.perform];
      unfold host.Seek, host.PRead, host.PWrite; rewrite S; reflexivity.
Qed.

(** X24.  A positioned read or write never moves the file offset, and a
    read or a write of a seekable file moves it by the number of bytes
    that the host reports, also when the host reports an error with them;
    with flags that are not zero nothing is asked of the host and the
    offset stays. *)
Theorem offset_moves_by_bytes (i : host.inode) (o flags : Z) :
  host.seekable i = true ->
  0 <= host.offset i <= host.MaxInt64 ->
  fst (fst (perform i (host.OpPRead o flags))) = i
  /\ fst (fst (perform i (host.OpPWrite o flags))) = i
  /\ (flags = 0 ->
      forall n err,
        host_read (host.hostFD i) (host.offset i) = (n, err) ->
        0 <= n <= host.MaxInt64 - host.offset i ->
        perform i (host.OpRead flags)
        = (host.set_offset i (host.offset i + n), n, err))
  /\ (flags = 0 ->
      forall n err,
        host_write (host.hostFD i) (host.offset i) = (n, err) ->
        0 <= n <= host.MaxInt64 - host.offset i ->
        perform i (host.OpWrite flags)
        = (host.set_offset i (host.offset i + n), n, err))
  /\ (flags <> 0 ->
      perform i (host.OpRead flags) = (i, 0, Some host.EOPNOTSUPP)
      /\ perform i (host.OpWrite flags) = (i, 0, Some host.EOPNOTSUPP)).
Proof.
  intros S B. cbn [host.perform].
  unfold host.PRead, host.PWrite, host.Read, host.Write,
    host.readFromHostFD, host.writeToHostFD.
  rewrite S. cbn [negb]. split; [|split; [|split; [|split]]].
  - destruct (flags =? 0); [destruct (host_read _ _)|]; reflexivity.
  - destruct (flags =? 0); [destruct (host_write _ _)|]; reflexivity.
  - intros -> n err H R. rewrite Z.eqb_refl, H, int64_small; [reflexivity|].
    unfold host.MinInt64, host.MaxInt64 in *. lia.
  - intros -> n err H R. rewrite Z.eqb_refl, H, int64_small; [reflexivity|].
    unfold host.MinInt64, host.MaxInt64 in *. lia.
  - intros N. apply Z.eqb_neq in N. rewrite N, Z.add_0_r, int64_small.
    + destruct i; split; reflexivity.
    + unfold host.MinInt64, host.MaxInt64 in *. lia.
Qed.

End HostFacts.

Lemma Seek_relative_exact_witness :
  host.Seek 0 1 2 3 4 (fun _ => inl 100) (fun _ _ _ => inr host.EINVAL)
    (host.BuildInode 5 true 10) (host.MaxInt64 - 5) 1
  = (host.BuildInode 5 true 10, 10, Some host.EOVERFLOW)
  /\ host.Seek 0 1 2 3 4 (fun _ => inl 100) (fun _ _ _ => inr host.EINVAL)
       (host.BuildInode 5 true 10) (-40) 2
     = (host.BuildInode 5 true 60, 60, None).
Proof.
  destruct (Seek_relative_exact 0 1 2 3 4 (fun _ => inl 100)
              (fun _ _ _ => inr host.EINVAL)
              (host.BuildInode 5 true 10) (host.MaxInt64 - 5) 100)
    as [A _]; try discriminate; try reflexivity; try (cbn; lia).
  destruct (Seek_relative_exact 0 1 2 3 4 (fun _ => inl 100)
              (fun _ _ _ => inr host.EINVAL)
              (host.BuildInode 5 true 10) (-40) 100)
    as [_ B]; try discriminate; try reflexivity; try (cbn; lia).
  split; [exact A|]. apply B; [reflexivity | cbn; lia].
Defined.

Lemma Seek_keeps_offset_witness :
  0 <= host.offset
         (fst (fst (host.Seek 0 1 2 3 4 (fun _ => inl 100) (fun _ _ _ => inl 7)
                      (host.BuildInode 5 true 10) (-3) 1)))
    <= host.MaxInt64.
Proof.
  apply (Seek_keeps_offset 0 1 2 3 4 (fun _ => inl 100) (fun _ _ _ => inl 7)
           (host.BuildInode 5 true 10) (-3) 1).
  - cbn. lia.
  - cbn. lia.
  - intros fd size E. injection E as <-. cbn. lia.
  - intros fd o' w n E. injection E as <-. cbn. lia.
Defined.

Lemma not_seekable_offset_fixed_witness :
  host.perform_all 0 1 2 3 4 (fun _ => inl 100) (fun _ _ _ => inl 7)
    (fun _ _ => (3, None)) (fun _ _ => (2, None)) (fun _ => false)
    (host.BuildInode 5 false 0)
    [host.OpRead 0; host.OpSeek 10 0; host.OpWrite 0; host.OpPRead 4 0]
  = host.BuildInode 5 false 0.
Proof.
  apply (not_seekable_offset_fixed 0 1 2 3 4 (fun _ => inl 100) (fun _ _ _ => inl 7)
           (fun _ _ => (3, None)) (fun _ _ => (2, None)) (fun _ => false)
           (host.BuildInode 5 false 0)
           [host.OpRead 0; host.OpSeek 10 0; host.OpWrite 0; host.OpPRead 4 0]).
  reflexivity.
Defined.

Lemma offset_moves_by_bytes_witness :
  host.perform 0 1 2 3 4 (fun _ => inl 100) (fun _ _ _ => inl 7)
    (fun _ _ => (3, Some (host.HostError 5))) (fun _ _ => (2, None)) (fun _ => false)
    (host.BuildInode 5 true 10) (host.OpRead 0)
  = (host.BuildInode 5 true 13, 3, Some (host.HostError 5)).
Proof.
  destruct (offset_moves_by_bytes 0 1 2 3 4 (fun _ => inl 100) (fun _ _ _ => inl 7)
              (fun _ _ => (3, Some (host.HostError 5))) (fun _ _ => (2, None))
              (fun _ => false) (host.BuildInode 5 true 10) 0 0)
    as (_ & _ & R & _).
  - reflexivity.
  - cbn. lia.
  - apply (R eq_refl 3 (Some (host.HostError 5))); [reflexivity | cbn; lia].
Defined.

(** ** What a TCP/IPv4 connection accepts *)

Lemma match_TCPIPv4_layer (e : etherState.t) (i : ipv4State.t) (ts : tcpState.t)
      (tcp : TCP.t) (frame : Layers) :
  match_ (NewTCPIPv4 e i ts) [None; None; Some (LTCP tcp)] frame = Ok true ->
  exists l0 l1 got rest newIn,
    frame = l0 :: l1 :: Some (LTCP got) :: rest
    /\ tcpState.incoming ts (Some (LTCP got)) = Ok (Some (LTCP newIn))
    /\ equalLayer (Some (LTCP (tcpState.merge_TCP newIn tcp))) (Some (LTCP got)) = true.
Proof.
  intros M. pose proof (match_true_length _ _ _ M) as Len.
  destruct frame as [|l0 [|l1 [|l2 rest]]]; try (cbn in Len; lia).
  unfold match_, incoming in M.
  cbn [layerStates NewTCPIPv4 List.length Nat.ltb Nat.leb] in M.
  cbn [incoming_loop layerState_.incoming bind] in M.
  destruct (tcpState_incoming_outcome ts l2) as [_ T].
  destruct (tcpState.incoming ts l2) as [[x|]| | | |] eqn:I; try discriminate M.
  destruct (T x eq_refl) as [got ->].
  assert (X : exists newIn, x = LTCP newIn).
  { revert I. unfold tcpState.incoming.
    destruct (tcpState.localSeqNum ts); [|intros I; injection I as <-; eauto].
    destruct (TCP.Flags got) as [f|]; [|discriminate].
    destruct (has_flag f header.TCPFlagAck); intros I; injection I as <-; eauto. }
  destruct X as [newIn ->].
  cbn [bind option_map Layers_merge mergeLayer Layers_match] in M.
  injection M as M.
  apply andb_true_iff in M as [_ M]. apply andb_true_iff in M as [_ M].
  apply andb_true_iff in M as [M _].
  exists l0, l1, got, rest, newIn.
  split; [reflexivity|]. split; [exact I | exact M].
Qed.

(** X25.  A TCP/IPv4 connection that knows the remote sequence number
    accepts the next segment in order only: unless the caller expects a
    sequence number of its own, the TCP layer that [Expect] returns carries
    the remote sequence number as its sequence number; and if it has the
    ACK flag, and the caller expects no ack number of its own, it
    acknowledges exactly the local sequence number. *)
Theorem TCPIPv4_Expect_in_order {codec : LayerCodec} (e : etherState.t)
        (i : ipv4State.t) (ts : tcpState.t) (tcp got : TCP.t) (timeout : Z)
        (w w' : World) (conn' : Connection) (err : option expectError) :
  TCPIPv4_Expect (NewTCPIPv4 e i ts) tcp timeout w = Ok (Some got, err, conn', w') ->
  (forall r, tcpState.remoteSeqNum ts = Some r -> TCP.SeqNum tcp = None ->
             TCP.SeqNum got = Some r)
  /\ (forall v f, tcpState.localSeqNum ts = Some v -> TCP.AckNum tcp = None ->
                  TCP.Flags got = Some f -> has_flag f header.TCPFlagAck = true ->
                  TCP.AckNum got = Some v)
  /\ equalLayer (Some (LTCP tcp)) (Some (LTCP got)) = true.
Proof.
  unfold TCPIPv4_Expect, Expect.
  cbn [NewTCPIPv4 layerStates List.length innermost_only repeat app bind].
  fold (NewTCPIPv4 e i ts).
  destruct (ExpectFrame (NewTCPIPv4 e i ts) [None; None; Some (LTCP tcp)] timeout w)
    as [[[r c] w2]| | | |] eqn:E; try discriminate.
  cbn [bind]. destruct r as [frame|er]; [|discriminate].
  apply ExpectFrame_result in E. destruct E as (b & _ & -> & M & _).
  destruct (match_TCPIPv4_layer _ _ _ _ _ M)
    as (l0 & l1 & g & rest & newIn & P & I & Q).
  rewrite P. cbn [Nat.sub nth_error bind]. intros H. injection H as -> _ _ _.
  cbn [equalLayer tcpState.merge_TCP TCP.SrcPort TCP.DstPort TCP.SeqNum TCP.AckNum
       TCP.Flags] in Q.
  apply andb_true_iff in Q as [Q QF]. apply andb_true_iff in Q as [Q QA].
  apply andb_true_iff in Q as [Q QS]. apply andb_true_iff in Q as [QP QD].
  split; [|split].
  - intros r R N. rewrite N in QS. cbn [merge_field] in QS.
    revert I. unfold tcpState.incoming. rewrite R.
    assert (K : TCP.SeqNum newIn = Some r -> TCP.SeqNum got = Some r).
    { intros X. rewrite X in QS. cbn in QS.
      destruct (TCP.SeqNum got); [|discriminate QS].
      apply Z.eqb_eq in QS. congruence. }
    destruct (tcpState.localSeqNum ts); [|intros I; injection I as <-; apply K; reflexivity].
    destruct (TCP.Flags got) as [f|]; [|discriminate].
    destruct (has_flag f header.TCPFlagAck); intros I; injection I as <-;
      apply K; reflexivity.
  - intros v f L N F A. rewrite N in QA. cbn [merge_field] in QA.
    revert I. unfold tcpState.incoming. rewrite L, F, A.
    intros I. injection I as <-. cbn in QA.
    destruct (TCP.AckNum got); [|discriminate QA].
    apply Z.eqb_eq in QA. congruence.
  - cbn [equalLayer]. repeat (apply andb_true_iff; split);
      eauto using match_field_merge.
Qed.

Lemma TCPIPv4_Expect_in_order_witness :
  TCP.SeqNum (TCP.Build (Some 80) (Some 40000) (Some 501) (Some 1000) (Some 16))
  = Some 501.
Proof.
  destruct (TCPIPv4_Expect_in_order (codec := Wire.codec) Example.ether Example.ipv4
              (tcpState.set_remoteSeqNum Example.tcp (Some 501))
              (TCP.with_flags 16)
              (TCP.Build (Some 80) (Some 40000) (Some 501) (Some 1000) (Some 16))
              1000
              (Example.world
                 [Some (Example.wire (Example.remote_frame (Example.segment 500 1000 16)));
                  Some (Example.wire (Example.remote_frame (Example.segment 501 1000 16)))])
              (BuildWorld 3 (fun _ => 1%N) 3 [] [999; 998] [])
              (BuildConnection
                 [EtherSt Example.ether; IPv4St Example.ipv4;
                  TCPSt (tcpState.set_remoteSeqNum Example.tcp (Some 501))])
              None)
    as (S & _).
  - vm_compute. reflexivity.
  - apply (S 501); reflexivity.
Defined.


Section SetStatFacts.

Variables STATX_MODE STATX_SIZE STATX_ATIME STATX_MTIME : Z.
Variables HostStat Timespec : Type.
Variable toTimespec : Z -> bool -> Timespec.
Variable Fstat_result : Z -> HostStat + host.error.
Variable CheckSetStat : host.SetStatRequest -> HostStat -> option host.error.
Variable failure_of : host.call Timespec -> option host.error.

Local Abbreviation SetStat :=
  (host.SetStat STATX_MODE STATX_SIZE STATX_ATIME STATX_MTIME HostStat Timespec
     toTimespec Fstat_result CheckSetStat failure_of).


End SetStatFacts.

